(** * BestAppsComponent: lifecycle, subscription registry and clone detection

    A shallow embedding of [src/BestAppsComponent.js].  The component is a
    custom element: the host calls four entry points
    ([connectedCallback], [disconnectedCallback], [adoptedCallback],
    [attributeChangedCallback]); every stage is run by [callWithEvent],
    which awaits a hook and then publishes an event to the subscribers
    stored in the instance's [_data] record.

    Modelling choices, all read off the source:
    - objects that the code shares by reference ([_data], [defaultOptions])
      live in a store indexed by locations, instances hold locations;
    - an [await] parks the rest of the function on the microtask queue,
      [setTimeout] parks a callback on the timer queue; continuations are
      first-order data ([Task], [Kont]);
    - subscriber callbacks are the two closures of [initSubscriptions] or a
      user callback given by a list of actions. *)

From Stdlib Require Import ZArith Lia Ascii String.
From stdpp Require Import base option list strings gmap fin_maps.

Local Open Scope string_scope.
Local Open Scope list_scope.

(** ** Identifier generator *)

Module Uid.

Definition MASK : Z := 0x3d.
Definition LETTERS : string := "abcdefghijklmnopqrstuvwxyz".
Definition NUMBERS : string := "1234567890".

(** [String.prototype.toUpperCase] on ASCII letters. *)
Definition upper_ascii (c : ascii) : ascii :=
  let n := nat_of_ascii c in
  if (97 <=? n)%nat && (n <=? 122)%nat then ascii_of_nat (n - 32) else c.

Fixpoint toUpperCase (s : string) : string :=
  match s with
  | EmptyString => EmptyString
  | String c s' => String (upper_ascii c) (toUpperCase s')
  end.

(** [`${NUMBERS}${LETTERS}${LETTERS.toUpperCase()}`.split('')] *)
Definition charset : list ascii :=
  list_ascii_of_string (NUMBERS ++ LETTERS ++ toUpperCase LETTERS)%string.

(** [byte & MASK] *)
Definition index_of_byte (byte : Z) : Z := Z.land byte MASK.

(** [`${acc}${charset[byte & MASK]}`]: an index outside the array reads
    [undefined], which the template literal prints as the word. *)
Definition symbol_at (i : Z) : string :=
  match charset !! Z.to_nat i with
  | Some c => String c EmptyString
  | None => "undefined"
  end.

Definition reduce_step (acc : string) (byte : Z) : string :=
  (acc ++ symbol_at (index_of_byte byte))%string.

(** [bytes.reduce((acc, byte) => ..., '')], [bytes] being the twelve
    values written by [crypto.getRandomValues]. *)
Definition generateUid (bytes : list Z) : string :=
  fold_left reduce_step bytes "".

Definition is_byte (b : Z) : Prop := (0 <= b < 256)%Z.

(** The indices that some byte value reaches. *)
Definition attainable (i : Z) : bool :=
  existsb (fun b => Z.eqb (index_of_byte b) i) (map Z.of_nat (seq 0 256)).

Definition attainable_indices : list Z :=
  filter (fun i => attainable i = true) (map Z.of_nat (seq 0 62)).

End Uid.

(** ** Data model *)

(** Names of the hooks that [callWithEvent] looks up with [this[method]]. *)
Inductive Method :=
| initProps | initElements | render | initConnected
| processDisconnected | processAdopted
| processAttributeChanged | processChanged | clonedCallback.

(** A thrown value: the message is all the code ever forwards. *)
Abbreviation Error := string.

(** The objects that travel as event payloads.  Attribute values are
    [None] for JavaScript's [null]. *)
Inductive Value :=
| VUndefined
| VObject                                              (* a fresh [{}] *)
| VElement (el : nat)                                  (* a component instance *)
| VAttribute (name : string) (oldValue newValue : option string)
| VBlank            (* [{name, oldValue, newValue}] with the three undefined *)
| VChange (data : Value)                               (* [{type: 'attribute', data}] *)
| VCallInfo (method : Method) (event : string) (data : Value)
| VError (action : string) (error : Error) (data : Value).

(** Option values; [truthy] is JavaScript's conversion to boolean. *)
Inductive OptVal :=
| OBool (b : bool)
| OStr (s : string)
| ONum (n : Z).

Definition truthy (v : OptVal) : bool :=
  match v with
  | OBool b => b
  | OStr s => negb (String.eqb s "")
  | ONum n => negb (Z.eqb n 0)
  end.

(** Subscriber callbacks.  The first two are the arrow functions that
    [initSubscriptions] registers; they close over the instance that was
    being constructed.  A user callback is a straight-line body. *)
#[local] Unset Elimination Schemes.
Inductive Action :=
| AObserve (el : nat)
    (* read [el.loaded] and [el.getAttribute('loaded')] and note them
       together with the payload *)
| ASubscribe (target : nat) (event : string) (name : string) (body : list Action)
    (* [target.subscribe(event, cb)] *)
| AThrow (err : Error).
#[local] Set Elimination Schemes.

Inductive Callback :=
| CbConnecting (owner : nat)
| CbConnected (owner : nat)
| CbUser (name : string) (body : list Action).

(** The [_data] record.  [options] is the object made by
    [Object.create(this.defaultOptions)]: its own properties plus the
    location of its prototype.  The one assignment to the [options] field
    is the last line of [setOptions], which stores the object it has just
    merged into: that is the object the record already has, unless the
    instance was handed another record while the call was suspended (see
    [setOptions_resume]).  Apart from that case, which is left out, a
    record keeps its options object, and the object is kept in the record
    itself. *)
Record Data := mkData {
  options : gmap string OptVal;
  options_proto : nat;
  subscriptions : gmap string (list Callback);
}.

(** What one call of [_sendSubscriptionEvent] was given.  [pub_source] is
    the [_source] tag that [callWithEvent] writes on the payload. *)
Record Published := mkPublished {
  pub_on : nat;
  pub_action : string;
  pub_data : Value;
  pub_source : option Value;
}.

Record Observation := mkObservation {
  obs_callback : string;
  obs_payload : Value;
  obs_loaded : bool;
  obs_loaded_attribute : option string;
}.

Inductive LogEntry :=
| LogEvent (component_guid : string) (component_clonedGuid : option string)
           (action : string) (data : Value)
| LogWarn (action : string) (data : Value) (error : Error) (component_guid : string).

(** Continuations: who is awaiting the promise of a [callWithEvent]. *)
Inductive Kont :=
| KDetached                  (* nobody: the promise is dropped *)
| KExecutor (el : nat) (done : Method)
                             (* the async executor of [connectedCallback] *)
| KThen (el : nat)           (* the [.then] callback of [connectedCallback] *)
| KCheckClone (owner : nat). (* [checkClone], itself awaited by the
                                connected subscriber *)

Inductive Task :=
| TAfterHook (el : nat) (method : Method) (event : string) (data : Value)
             (settled : Value + Error) (k : Kont)
    (* [callWithEvent] after [await this[method](data)] *)
| TAfterSetOption (el : nat) (data : Value) (event : string) (k : Kont)
    (* [processAttributeChanged] after [await this.setOption('debug', true)] *)
| TSettled (k : Kont) (settled : Value + Error)
    (* the awaiter of a [callWithEvent] promise resumes *)
| TThenCallback (el : nat)
    (* the executor called [resolve()]: the [.then] callback runs *)
| TCatchCallback (el : nat) (err : Error)
    (* the [.then] promise rejected: the [.catch] callback runs *)
| TSubscriberDone
    (* the rest of a subscriber after its last [await]: nothing *)
| TTimer (el : nat) (data : Value).
    (* the callback given to [setTimeout] in [processAttributeChanged] *)

Record Instance := mkInstance {
  guid : string;
  clonedGuid : option string;
  loaded : bool;
  _data : nat;
  defaultOptions : nat;
  attributes : gmap string string;
  classList : list string;
  shadowRoot : bool;                 (* the host has a shadow root for it *)
  component_data : option nat;       (* [this.component.data] *)
  _source : option Value;            (* written when the instance is a payload *)
  initProps_hook : option Error;     (* the overridable no-ops: [Some e] throws [e] *)
  render_hook : option Error;
}.

Record World := mkWorld {
  elements : gmap nat Instance;
  document : list nat;               (* connected elements, in tree order *)
  datas : gmap nat Data;
  defaults : gmap nat (gmap string OptVal);
  published : list Published;
  observed : list Observation;
  console : list LogEntry;
  microtasks : list Task;
  timers : list Task;
  unhandled : list Error;            (* rejections nobody handles *)
}.

(** *** Field updates *)

Definition set_elements (x : gmap nat Instance) (w : World) : World :=
  mkWorld x (document w) (datas w) (defaults w) (published w) (observed w)
          (console w) (microtasks w) (timers w) (unhandled w).
Definition set_datas (x : gmap nat Data) (w : World) : World :=
  mkWorld (elements w) (document w) x (defaults w) (published w) (observed w)
          (console w) (microtasks w) (timers w) (unhandled w).
Definition set_published (x : list Published) (w : World) : World :=
  mkWorld (elements w) (document w) (datas w) (defaults w) x (observed w)
          (console w) (microtasks w) (timers w) (unhandled w).
Definition set_observed (x : list Observation) (w : World) : World :=
  mkWorld (elements w) (document w) (datas w) (defaults w) (published w) x
          (console w) (microtasks w) (timers w) (unhandled w).
Definition set_console (x : list LogEntry) (w : World) : World :=
  mkWorld (elements w) (document w) (datas w) (defaults w) (published w)
          (observed w) x (microtasks w) (timers w) (unhandled w).
Definition set_microtasks (x : list Task) (w : World) : World :=
  mkWorld (elements w) (document w) (datas w) (defaults w) (published w)
          (observed w) (console w) x (timers w) (unhandled w).
Definition set_timers (x : list Task) (w : World) : World :=
  mkWorld (elements w) (document w) (datas w) (defaults w) (published w)
          (observed w) (console w) (microtasks w) x (unhandled w).
Definition set_unhandled (x : list Error) (w : World) : World :=
  mkWorld (elements w) (document w) (datas w) (defaults w) (published w)
          (observed w) (console w) (microtasks w) (timers w) x.

Definition set_attributes (x : gmap string string) (i : Instance) : Instance :=
  mkInstance (guid i) (clonedGuid i) (loaded i) (_data i) (defaultOptions i) x
             (classList i) (shadowRoot i) (component_data i) (_source i)
             (initProps_hook i) (render_hook i).
Definition set_classList (x : list string) (i : Instance) : Instance :=
  mkInstance (guid i) (clonedGuid i) (loaded i) (_data i) (defaultOptions i)
             (attributes i) x (shadowRoot i) (component_data i) (_source i)
             (initProps_hook i) (render_hook i).
Definition set_loaded (x : bool) (i : Instance) : Instance :=
  mkInstance (guid i) (clonedGuid i) x (_data i) (defaultOptions i)
             (attributes i) (classList i) (shadowRoot i) (component_data i)
             (_source i) (initProps_hook i) (render_hook i).
Definition set_clonedGuid (x : option string) (i : Instance) : Instance :=
  mkInstance (guid i) x (loaded i) (_data i) (defaultOptions i)
             (attributes i) (classList i) (shadowRoot i) (component_data i)
             (_source i) (initProps_hook i) (render_hook i).
Definition set__data (x : nat) (i : Instance) : Instance :=
  mkInstance (guid i) (clonedGuid i) (loaded i) x (defaultOptions i)
             (attributes i) (classList i) (shadowRoot i) (component_data i)
             (_source i) (initProps_hook i) (render_hook i).
Definition set_shadowRoot (x : bool) (i : Instance) : Instance :=
  mkInstance (guid i) (clonedGuid i) (loaded i) (_data i) (defaultOptions i)
             (attributes i) (classList i) x (component_data i) (_source i)
             (initProps_hook i) (render_hook i).
Definition set_component_data (x : option nat) (i : Instance) : Instance :=
  mkInstance (guid i) (clonedGuid i) (loaded i) (_data i) (defaultOptions i)
             (attributes i) (classList i) (shadowRoot i) x (_source i)
             (initProps_hook i) (render_hook i).
Definition set__source (x : option Value) (i : Instance) : Instance :=
  mkInstance (guid i) (clonedGuid i) (loaded i) (_data i) (defaultOptions i)
             (attributes i) (classList i) (shadowRoot i) (component_data i) x
             (initProps_hook i) (render_hook i).

Definition set_options (x : gmap string OptVal) (d : Data) : Data :=
  mkData x (options_proto d) (subscriptions d).
Definition set_subscriptions (x : gmap string (list Callback)) (d : Data) : Data :=
  mkData (options d) (options_proto d) x.

(** In-place change of an object that exists; nothing is created. *)
Definition update_element (el : nat) (f : Instance -> Instance) (w : World) : World :=
  set_elements (alter f el (elements w)) w.
Definition update_data (loc : nat) (f : Data -> Data) (w : World) : World :=
  set_datas (alter f loc (datas w)) w.

Definition enqueue_microtask (t : Task) (w : World) : World :=
  set_microtasks (microtasks w ++ [t]) w.

(** ** Static settings *)

Definition rootClass : string := "ba-component".
Definition EVENT_CHANGED : string := "changed".
Definition EVENT_ATTRIBUTE_CHANGED : string := "attribute.changed".
Definition EVENT_CLONED : string := "cloned".
Definition EVENT_CONNECTING : string := "connecting".
Definition EVENT_CONNECTED : string := "connected".
Definition EVENT_RENDERED : string := "rendered".
Definition EVENT_DISCONNECTED : string := "disconnected".
Definition EVENT_ADOPTED : string := "adopted".
Definition EVENT_PROPS_SET : string := "props.set".
Definition EVENT_ELEMENTS_SET : string := "elements.set".
Definition EVENT_ERROR : string := "error".

Definition TypeError : Error := "TypeError".
Definition NotSupportedError : Error := "NotSupportedError".

(** ** Host operations on the represented node

    [observedAttributes] is [['debug']] and the code itself only writes
    [guid], [cloned-guid] and [loaded], so its own [setAttribute] calls do
    not re-enter [attributeChangedCallback]. *)

(** The [class] attribute and [classList] are two views of one thing: the
    instance holds the token list, its other attributes are in
    [attributes].  Tokens are separated by ASCII white space and a token
    listed twice counts once; an empty list stands for no class
    attribute.  Reading the attribute gives the tokens joined by single
    spaces, the text that [classList] writes; the exact text a host wrote
    (its white space, a repeated token) is not kept, and nothing in the
    code reads it. *)
Definition is_space (c : ascii) : bool :=
  let n := nat_of_ascii c in
  Nat.eqb n 32 || Nat.eqb n 9 || Nat.eqb n 10 || Nat.eqb n 12 || Nat.eqb n 13.

Fixpoint split_tokens (cur : string) (s : string) : list string :=
  match s with
  | EmptyString => if String.eqb cur "" then [] else [cur]
  | String c s' =>
      if is_space c
      then (if String.eqb cur "" then [] else [cur]) ++ split_tokens "" s'
      else split_tokens (cur ++ String c "")%string s'
  end.

Fixpoint first_occurrences (seen : list string) (l : list string) : list string :=
  match l with
  | [] => []
  | x :: l' =>
      if existsb (String.eqb x) seen then first_occurrences seen l'
      else x :: first_occurrences (x :: seen) l'
  end.

Definition class_tokens (value : string) : list string :=
  first_occurrences [] (split_tokens "" value).

Definition getAttribute (el : nat) (name : string) (w : World) : option string :=
  i ← elements w !! el;
  if String.eqb name "class"
  then match classList i with
       | [] => None
       | tokens => Some (String.concat " " tokens)
       end
  else attributes i !! name.

Definition setAttribute (el : nat) (name value : string) (w : World) : World :=
  if String.eqb name "class"
  then update_element el (set_classList (class_tokens value)) w
  else update_element el (fun i => set_attributes (<[name := value]> (attributes i)) i) w.

Definition removeAttribute (el : nat) (name : string) (w : World) : World :=
  if String.eqb name "class"
  then update_element el (set_classList []) w
  else update_element el (fun i => set_attributes (delete name (attributes i)) i) w.

(** JavaScript's truthiness of an attribute value: [null] and the empty
    string are falsy. *)
Definition attr_truthy (v : option string) : bool :=
  match v with
  | Some s => negb (String.eqb s "")
  | None => false
  end.

Definition has_class (cls : string) (classes : list string) : bool :=
  existsb (String.eqb cls) classes.

Definition matches_selector (cls g : string) (w : World) (el : nat) : bool :=
  match elements w !! el with
  | Some i => has_class cls (classList i) &&
              match attributes i !! "guid" with
              | Some g' => String.eqb g' g
              | None => false
              end
  | None => false
  end.

(** The identity is pasted into the selector between double quotes.  It is
    read there as it stands when it holds no double quote, backslash,
    line break or NUL: such an identity is [selector_safe], as every one
    of [generateUid] is.  Any other identity ends the string early or is
    rewritten by the escapes of the selector syntax; what the query does
    then is not described here, and the statements about the outcome of
    the query take a safe identity. *)
Definition selector_safe (g : string) : bool :=
  forallb (fun c => let n := nat_of_ascii c in
                    negb (Nat.eqb n 34 || Nat.eqb n 92 || Nat.eqb n 10 || Nat.eqb n 12
                          || Nat.eqb n 13 || Nat.eqb n 0))
          (list_ascii_of_string g).

(** [document.querySelector(`.${rootClass}[guid="${guid}"]`)]: the first
    element of the document, in tree order, that has the class and the
    attribute value.  The documents here hold component instances only. *)
Definition querySelector (cls g : string) (w : World) : option nat :=
  List.find (matches_selector cls g w) (document w).

(** ** Data record and options store *)

Definition getData (el : nat) (w : World) : option nat :=
  _data <$> elements w !! el.

Definition setData (el : nat) (loc : nat) (w : World) : World :=
  update_element el (set__data loc) w.

(** The options object and the default map are plain objects: the chain
    of a read is the options object, the default map, [Object.prototype].
    These are the members of [Object.prototype]; [__proto__] is an
    accessor, the others are functions. *)
Definition OBJECT_PROTOTYPE : list string :=
  ["constructor"; "__defineGetter__"; "__defineSetter__"; "hasOwnProperty";
   "__lookupGetter__"; "__lookupSetter__"; "isPrototypeOf"; "propertyIsEnumerable";
   "toString"; "valueOf"; "__proto__"; "toLocaleString"].

Definition in_object_prototype (key : string) : bool :=
  existsb (String.eqb key) OBJECT_PROTOTYPE.

(** What [options[key]] evaluates to. *)
Inductive Read :=
| RUndefined
| RValue (v : OptVal)        (* a stored value *)
| RPrototype (loc : nat)     (* the default map itself, by the getter of [__proto__] *)
| RBuiltin (key : string).   (* the function of that name of [Object.prototype] *)

(** The property of that name of the default map that the options object
    of [d] delegates to. *)
Definition default_property (d : Data) (key : string) (dfs : gmap nat (gmap string OptVal))
    : option OptVal :=
  m ← dfs !! options_proto d; m !! key.

(** Reading [options[key]]: own property first, then the default map,
    then [Object.prototype]. *)
Definition read_property (d : Data) (key : string) (dfs : gmap nat (gmap string OptVal))
    : Read :=
  match options d !! key with
  | Some v => RValue v
  | None =>
      match default_property d key dfs with
      | Some v => RValue v
      | None =>
          if String.eqb key "__proto__" then RPrototype (options_proto d)
          else if in_object_prototype key then RBuiltin key
          else RUndefined
      end
  end.

(** The stored value that the read gives, if it gives one.  For [debug],
    which [Object.prototype] does not define, [None] is [undefined]. *)
Definition read_option (d : Data) (key : string) (dfs : gmap nat (gmap string OptVal))
    : option OptVal :=
  match read_property d key dfs with
  | RValue v => Some v
  | _ => None
  end.

Definition getOption (el : nat) (key : string) (w : World) : option OptVal :=
  loc ← getData el w; d ← datas w !! loc; read_option d key (defaults w).

(** [this.getOptions()[key]] *)
Definition getProperty (el : nat) (key : string) (w : World) : option Read :=
  loc ← getData el w; d ← datas w !! loc; Some (read_property d key (defaults w)).

(** An assignment [options[key] = value] that finds no own property and
    none in the default map reaches, for [__proto__], the setter of
    [Object.prototype]. *)
Definition reaches_setter (d : Data) (key : string) (dfs : gmap nat (gmap string OptVal))
    : bool :=
  String.eqb key "__proto__" &&
  match options d !! key, default_property d key dfs with
  | None, None => true
  | _, _ => false
  end.

(** [options[key] = value]: the assignment creates or overwrites an own
    property; the setter of [__proto__] ignores a value that is not an
    object, as every option value here. *)
Definition assign_option (key : string) (value : OptVal) (dfs : gmap nat (gmap string OptVal))
    (d : Data) : Data :=
  if reaches_setter d key dfs then d
  else set_options (<[key := value]> (options d)) d.

Definition write_option (loc : nat) (key : string) (value : OptVal) (w : World) : World :=
  update_data loc (assign_option key value (defaults w)) w.

Definition setOption (el : nat) (key : string) (value : OptVal) (w : World) : World :=
  match getData el w with
  | Some loc => write_option loc key value w
  | None => w
  end.

(** [Object.assign(target, options)] assigns every own property of
    [options] to the target, each as [assign_option] does; an assignment
    of one key does not change what another key reaches. *)
Definition assign_options (opts : gmap string OptVal) (dfs : gmap nat (gmap string OptVal))
    (d : Data) : Data :=
  set_options (filter (fun kv => reaches_setter d kv.1 dfs = false) opts ∪ options d) d.

(** [setOptions] once it has resumed from its [await], the instance
    holding the record it held at the call: the merged object is the one
    already stored, so the assignment back changes nothing. *)
Definition setOptions (el : nat) (opts : gmap string OptVal) (w : World) : World :=
  match getData el w with
  | Some loc => update_data loc (assign_options opts (defaults w)) w
  | None => w
  end.

(** ** Subscription registry *)

(** [this.getData().subscriptions.get(action) || []] *)
Definition _getSubscriptions (d : Data) (action : string) : list Callback :=
  default [] (subscriptions d !! action).

Definition push_subscription (action : string) (cb : Callback) (d : Data) : Data :=
  set_subscriptions (<[action := _getSubscriptions d action ++ [cb]]> (subscriptions d)) d.

Definition subscribe (el : nat) (action : string) (cb : Callback) (w : World) : World :=
  match getData el w with
  | Some loc => update_data loc (push_subscription action cb) w
  | None => w
  end.

(** ** Hooks

    Every hook is an [async] method: it runs synchronously up to its first
    [await] and never throws into its caller; a failure is a rejected
    promise. *)

Inductive HookRun :=
| HSettled (settled : Value + Error) (w : World)
| HSuspended (w : World).   (* the hook parked its own continuation *)

Definition run_overridable (h : option Error) (w : World) : HookRun :=
  match h with
  | None => HSettled (inl VUndefined) w
  | Some e => HSettled (inr e) w
  end.

(** [initElements]: the class is added before the shadow root is asked
    for, and [attachShadow] refuses a node that already has one. *)
Definition run_initElements (el : nat) (i : Instance) (w : World) : HookRun :=
  let w1 := update_element el (fun i => set_classList (classList i ++ 
              (if has_class rootClass (classList i) then [] else [rootClass])) i) w in
  if shadowRoot i then HSettled (inr NotSupportedError) w1
  else
    let w2 := update_element el
                (fun i => set_component_data (Some (_data i)) (set_shadowRoot true i)) w1 in
    let w3 := if attr_truthy (getAttribute el "guid" w2) then w2
              else setAttribute el "guid" (guid i) w2 in
    HSettled (inl VUndefined) w3.

Definition run_initConnected (el : nat) (w : World) : HookRun :=
  let w1 := setAttribute el "loaded" "loaded" w in
  let w2 := update_element el (set_loaded true) w1 in
  HSettled (inl (VElement el)) w2.

Definition setTimeout (t : Task) (w : World) : World :=
  set_timers (timers w ++ [t]) w.

(** [processAttributeChanged({name, oldValue, newValue})].  Destructuring
    [undefined] fails; any other object that is not a mutation has none
    of the three properties, so they are [undefined] and the timer gets
    the blank object. *)
Definition run_processAttributeChanged (el : nat) (data : Value) (event : string)
    (k : Kont) (w : World) : HookRun :=
  match data with
  | VAttribute name oldValue newValue =>
      if String.eqb name "debug" && attr_truthy newValue then
        HSuspended (enqueue_microtask (TAfterSetOption el data event k)
                      (setOption el "debug" (OBool true) w))
      else HSettled (inl VUndefined) (setTimeout (TTimer el data) w)
  | VUndefined => HSettled (inr TypeError) w
  | _ => HSettled (inl VUndefined) (setTimeout (TTimer el VBlank) w)
  end.

(** [clonedCallback(fromElement)]: [this.setData(fromElement.getData())]. *)
Definition run_clonedCallback (el : nat) (data : Value) (w : World) : HookRun :=
  match data with
  | VElement from =>
      match getData from w with
      | Some loc => HSettled (inl (VElement from)) (setData el loc w)
      | None => HSettled (inr TypeError) w
      end
  | _ => HSettled (inr TypeError) w
  end.

Definition run_hook (el : nat) (method : Method) (data : Value) (event : string)
    (k : Kont) (w : World) : HookRun :=
  match elements w !! el with
  | None => HSettled (inr TypeError) w
  | Some i =>
      match method with
      | initProps => run_overridable (initProps_hook i) w
      | initElements => run_initElements el i w
      | render => run_overridable (render_hook i) w
      | initConnected => run_initConnected el w
      | processDisconnected | processAdopted => HSettled (inl VUndefined) w
      | processChanged =>
          match data with
          | VUndefined => HSettled (inr TypeError) w    (* [{type, data}] of undefined *)
          | _ => HSettled (inl VUndefined) w
          end
      | processAttributeChanged => run_processAttributeChanged el data event k w
      | clonedCallback => run_clonedCallback el data w
      end
  end.

(** [callWithEvent] up to its [await]: the hook has run its synchronous
    part, the rest waits on the microtask queue. *)
Definition callWithEvent (el : nat) (method : Method) (event : string) (data : Value)
    (k : Kont) (w : World) : World :=
  match run_hook el method data event k w with
  | HSettled r w' => enqueue_microtask (TAfterHook el method event data r k) w'
  | HSuspended w' => w'
  end.

(** ** Clone detection *)

Definition checkClone (el : nat) (w : World) : World :=
  match elements w !! el with
  | None => w
  | Some i =>
      match attributes i !! "guid" with
      | Some g =>
          if String.eqb g "" then enqueue_microtask (TSettled (KCheckClone el) (inl VUndefined)) w
          else
            match querySelector rootClass g w with
            | Some found =>
                if negb (String.eqb (guid i) g) then
                  let w1 := setAttribute el "cloned-guid" g w in
                  let w2 := update_element el (set_clonedGuid (Some g)) w1 in
                  let w3 := setAttribute el "guid" (guid i) w2 in
                  callWithEvent el clonedCallback EVENT_CLONED (VElement found)
                                (KCheckClone el) w3
                else enqueue_microtask (TSettled (KCheckClone el) (inl VUndefined)) w
            | None => enqueue_microtask (TSettled (KCheckClone el) (inl VUndefined)) w
            end
      | None => enqueue_microtask (TSettled (KCheckClone el) (inl VUndefined)) w
      end
  end.

(** ** Publishing *)

(** Synchronous code either returns, throws, or (a dispatch loop whose
    callbacks keep appending to the list it walks) does not come back
    within the fuel. *)
Inductive Res :=
| Normal (w : World)
| Raised (e : Error) (w : World)
| Spin.

Definition observe (name : string) (data : Value) (i : Instance) : Observation :=
  mkObservation name data (loaded i) (attributes i !! "loaded").

Fixpoint run_actions (name : string) (data : Value) (body : list Action) (w : World) : Res :=
  match body with
  | [] => Normal w
  | AObserve el :: rest =>
      match elements w !! el with
      | Some i => run_actions name data rest
                    (set_observed (observed w ++ [observe name data i]) w)
      | None => Raised TypeError w
      end
  | ASubscribe target event n b :: rest =>
      match elements w !! target with
      | Some _ => run_actions name data rest (subscribe target event (CbUser n b) w)
      | None => Raised TypeError w
      end
  | AThrow e :: _ => Raised e w
  end.

(** [sub(data)].  The two built-in subscribers are [async] arrows: they
    start their work and hand back a promise that nobody looks at. *)
Definition invoke (cb : Callback) (data : Value) (w : World) : Res :=
  match cb with
  | CbConnecting owner => Normal (enqueue_microtask TSubscriberDone w)
  | CbConnected owner => Normal (checkClone owner w)
  | CbUser name body => run_actions name data body w
  end.

(** [for (const sub of subs) sub(data)]: the array iterator reads the
    array afresh at every step, so it also reaches callbacks pushed while
    the loop runs.  The array is the one stored under [action] in the
    record at [loc] when the loop started. *)
Fixpoint dispatch (fuel : nat) (loc : nat) (action : string) (k : nat) (data : Value)
    (w : World) : Res :=
  match fuel with
  | O => Spin
  | S fuel' =>
      match d ← datas w !! loc; _getSubscriptions d action !! k with
      | None => Normal w
      | Some cb =>
          match invoke cb data w with
          | Normal w' => dispatch fuel' loc action (S k) data w'
          | r => r
          end
      end
  end.

(** [if (options.debug) console.log('EVENT:', ...)]: the records written to
    the console, none when the option is falsy. *)
Definition debug_entries (debug : option OptVal) (entry : LogEntry) : list LogEntry :=
  match debug with
  | Some v => if truthy v then [entry] else []
  | None => []
  end.

(** The world in which [_sendSubscriptionEvent] starts its loop. *)
Definition publish_record (el : nat) (i : Instance) (d : Data) (action : string)
    (data : Value) (source : option Value) (w : World) : World :=
  set_published (published w ++ [mkPublished el action data source])
    (set_console (console w ++
       debug_entries (read_option d "debug" (defaults w))
                     (LogEvent (guid i) (clonedGuid i) action data)) w).

Definition _sendSubscriptionEvent (fuel : nat) (el : nat) (action : string) (data : Value)
    (source : option Value) (w : World) : Res :=
  match elements w !! el with
  | None => Raised TypeError w
  | Some i =>
      match datas w !! _data i with
      | None => Raised TypeError w
      | Some d =>
          dispatch fuel (_data i) action 0 data (publish_record el i d action data source w)
      end
  end.

Definition warning (fuel : nat) (el : nat) (action : string) (error : Error) (data : Value)
    (w : World) : Res :=
  let g := default "" (guid <$> elements w !! el) in
  let w1 := set_console (console w ++ [LogWarn action data error g]) w in
  _sendSubscriptionEvent fuel el EVENT_ERROR (VError action error data) None w1.

(** ** Continuations *)

(** [d._source = data]: when the outgoing payload is an instance, the tag
    lands on the instance. *)
Definition tag_source (d data : Value) (w : World) : World :=
  match d with
  | VElement e => update_element e (set__source (Some data)) w
  | _ => w
  end.

(** [await this[method](data) || (data || {})] *)
Definition outgoing (v data : Value) : Value :=
  match v with
  | VUndefined => match data with VUndefined => VObject | _ => data end
  | _ => v
  end.

Definition reject_unhandled (e : Error) (w : World) : World :=
  set_unhandled (unhandled w ++ [e]) w.

(** The [catch] block of [callWithEvent]: warn, then throw again.  A
    subscriber of [error] that throws replaces the error. *)
Definition callWithEvent_catch (fuel : nat) (el : nat) (method : Method) (event : string)
    (data : Value) (err : Error) (k : Kont) (w : World) : option World :=
  match warning fuel el "callWithEvent" err (VCallInfo method event data) w with
  | Normal w' => Some (enqueue_microtask (TSettled k (inr err)) w')
  | Raised e' w' => Some (enqueue_microtask (TSettled k (inr e')) w')
  | Spin => None
  end.

Definition settled (k : Kont) (r : Value + Error) (w : World) : World :=
  match k, r with
  | KDetached, inl _ => w
  | KDetached, inr e => reject_unhandled e w
  | KExecutor el initProps, inl _ =>
      callWithEvent el initElements EVENT_ELEMENTS_SET VUndefined (KExecutor el initElements) w
  | KExecutor el initElements, inl _ =>
      callWithEvent el render EVENT_RENDERED VUndefined (KExecutor el render) w
  | KExecutor el render, inl _ => enqueue_microtask (TThenCallback el) w    (* [resolve()] *)
  | KExecutor el _, inl _ => w
  | KExecutor el _, inr e =>
      (* the executor's own promise rejects; the promise made by
         [new Promise] is never settled, so neither [.then] nor [.catch]
         of [connectedCallback] runs *)
      reject_unhandled e w
  | KThen el, inl _ => w
  | KThen el, inr e => enqueue_microtask (TCatchCallback el e) w
  | KCheckClone owner, inl _ => enqueue_microtask TSubscriberDone w  (* [processConnected()] *)
  | KCheckClone owner, inr e => reject_unhandled e w
  end.

(** One task of either queue.  [None]: a dispatch loop did not finish. *)
Definition exec_task (fuel : nat) (t : Task) (w : World) : option World :=
  match t with
  | TAfterHook el method event data (inr err) k =>
      callWithEvent_catch fuel el method event data err k w
  | TAfterHook el method event data (inl v) k =>
      let d := outgoing v data in
      match _sendSubscriptionEvent fuel el event d (Some data) (tag_source d data w) with
      | Normal w' => Some (enqueue_microtask (TSettled k (inl d)) w')
      | Raised e w' => callWithEvent_catch fuel el method event data e k w'
      | Spin => None
      end
  | TAfterSetOption el data event k =>
      Some (enqueue_microtask (TAfterHook el processAttributeChanged event data (inl VUndefined) k)
              (setTimeout (TTimer el data) w))
  | TSettled k r => Some (settled k r w)
  | TThenCallback el =>
      Some (callWithEvent el initConnected EVENT_CONNECTED VUndefined (KThen el) w)
  | TCatchCallback el err =>
      match warning fuel el "connectedCallback" err VUndefined w with
      | Normal w' => Some w'
      | Raised e' w' => Some (reject_unhandled e' w')
      | Spin => None
      end
  | TSubscriberDone => Some w
  | TTimer el data =>
      Some (callWithEvent el processChanged EVENT_CHANGED (VChange data) KDetached w)
  end.

(** ** Entry points called by the host *)

Definition connectedCallback (fuel : nat) (el : nat) (w : World) : Res :=
  match _sendSubscriptionEvent fuel el EVENT_CONNECTING (VElement el) None w with
  | Normal w1 =>
      Normal (callWithEvent el initProps EVENT_PROPS_SET VUndefined (KExecutor el initProps) w1)
  | r => r
  end.

Definition disconnectedCallback (el : nat) (w : World) : World :=
  callWithEvent el processDisconnected EVENT_DISCONNECTED VUndefined KDetached w.

Definition adoptedCallback (el : nat) (w : World) : World :=
  callWithEvent el processAdopted EVENT_ADOPTED VUndefined KDetached w.

Definition attributeChangedCallback (el : nat) (name : string) (oldValue newValue : option string)
    (w : World) : World :=
  callWithEvent el processAttributeChanged EVENT_ATTRIBUTE_CHANGED
                (VAttribute name oldValue newValue) KDetached w.

(** ** Event loop *)

(** Run microtasks, oldest first, until the queue is empty ([n] bounds the
    number of tasks). *)
Fixpoint drain (n : nat) (fuel : nat) (w : World) : option World :=
  match microtasks w with
  | [] => Some w
  | t :: rest =>
      match n with
      | O => None
      | S n' => w' ← exec_task fuel t (set_microtasks rest w); drain n' fuel w'
      end
  end.

(** One turn of the timer queue: the oldest timer callback, then every
    microtask it leaves behind. *)
Definition tick (n : nat) (fuel : nat) (w : World) : option World :=
  match timers w with
  | [] => Some w
  | t :: rest => w' ← exec_task fuel t (set_timers rest w); drain n fuel w'
  end.

Fixpoint run_timers (turns : nat) (n fuel : nat) (w : World) : option World :=
  match turns with
  | O => Some w
  | S turns' => w' ← tick n fuel w; run_timers turns' n fuel w'
  end.

(** ** Construction and tree membership *)

(** The constructor: a new default map [{debug: false}], a new [_data]
    record whose options object delegates to it, the identity drawn from
    the twelve random [bytes], and the two built-in subscriptions.  The two
    overridable no-op hooks of the component kind are given with it. *)
Definition construct (bytes : list Z) (hprops hrender : option Error) (w : World)
    : nat * World :=
  let el := fresh (dom (elements w)) in
  let dloc := fresh (dom (defaults w)) in
  let loc := fresh (dom (datas w)) in
  let i := mkInstance (Uid.generateUid bytes) None false loc dloc ∅ [] false None None
                      hprops hrender in
  let w1 := mkWorld (<[el := i]> (elements w)) (document w)
                    (<[loc := mkData ∅ dloc ∅]> (datas w))
                    (<[dloc := {["debug" := OBool false]}]> (defaults w))
                    (published w) (observed w) (console w) (microtasks w)
                    (timers w) (unhandled w) in
  (el, subscribe el EVENT_CONNECTED (CbConnected el)
         (subscribe el EVENT_CONNECTING (CbConnecting el) w1)).

(** The host puts a node into the document, last or first in tree order. *)
Definition host_append (el : nat) (w : World) : World :=
  mkWorld (elements w) (document w ++ [el]) (datas w) (defaults w) (published w)
          (observed w) (console w) (microtasks w) (timers w) (unhandled w).
Definition host_prepend (el : nat) (w : World) : World :=
  mkWorld (elements w) (el :: document w) (datas w) (defaults w) (published w)
          (observed w) (console w) (microtasks w) (timers w) (unhandled w).

Definition empty_world : World := mkWorld ∅ [] ∅ ∅ [] [] [] [] [] [].

(** The names of the events published so far, oldest first. *)
Definition actions_on (el : nat) (w : World) : list string :=
  pub_action <$> filter (fun p => pub_on p = el) (published w).

(** Attach [el] and let the microtask queue run dry. *)
Definition mount (n fuel : nat) (el : nat) (w : World) : option World :=
  match connectedCallback fuel el w with
  | Normal w' => drain n fuel w'
  | Raised _ w' => drain n fuel w'
  | Spin => None
  end.


(** *** Fresh instances *)

(** What [initSubscriptions] leaves in the registry. *)
Definition builtin_subscriptions (el : nat) : gmap string (list Callback) :=
  <[EVENT_CONNECTED := [CbConnected el]]> (<[EVENT_CONNECTING := [CbConnecting el]]> ∅).

(** An instance as the constructor leaves it, before its first attach: the
    registry holds the two built-in subscribers only, the node carries no
    declared identity and has no shadow root yet. *)
Definition fresh_instance (el : nat) (i : Instance) (d : Data) (w : World) : Prop :=
  elements w !! el = Some i /\ datas w !! _data i = Some d /\
  subscriptions d = builtin_subscriptions el /\
  attributes i !! "guid" = None /\ shadowRoot i = false.

Definition hooks_succeed (i : Instance) : Prop :=
  initProps_hook i = None /\ render_hook i = None.

(** The record of a publish made by [callWithEvent] for a hook that was
    called with no input. *)
Definition stage_event (el : nat) (action : string) (d : Value) : Published :=
  mkPublished el action d (Some VUndefined).


(** *** Scenarios *)

Definition bytesA : list Z := [0; 1; 2; 3; 4; 5; 6; 7; 8; 9; 10; 11]%Z.
Definition bytesB : list Z := [12; 13; 14; 15; 16; 17; 18; 19; 20; 21; 22; 23]%Z.

(** One instance, just constructed and put into an empty document. *)
Definition one_instance (hprops hrender : option Error) : World :=
  let '(a, w) := construct bytesA hprops hrender empty_world in host_append a w.

(** The [action] fields of the [error] events published on [el]. *)
Definition error_action (p : Published) : option string :=
  match pub_data p with
  | VError action _ _ => if String.eqb (pub_action p) EVENT_ERROR then Some action else None
  | _ => None
  end.

Definition error_actions (el : nat) (w : World) : list string :=
  omap error_action (filter (fun p => pub_on p = el) (published w)).

(** The record of the [error] event that the [catch] of [callWithEvent]
    publishes. *)
Definition stage_error (el : nat) (method : Method) (event : string) (data : Value)
    (err : Error) : Published :=
  mkPublished el EVENT_ERROR (VError "callWithEvent" err (VCallInfo method event data)) None.

(** *** Declared identities and clones *)

(** An instance whose node carries a declared identity that no other
    element has. *)
Definition stale_identity : World :=
  let '(a, w) := construct bytesA None None empty_world in
  host_append a (setAttribute a "guid" "X" w).

(** [A] is mounted; the host then copies the node ([B] gets the attributes
    of [A], its own constructor has run) and inserts the copy after it. *)
Definition clone_scenario : option World :=
  let '(a, w0) := construct bytesA None None empty_world in
  w1 ← mount 12 3 a (host_append a w0);
  let '(b, w2) := construct bytesB None None w1 in
  let w3 := setAttribute b "guid" (Uid.generateUid bytesA) w2 in
  mount 14 3 b (host_append b w3).


(** Two instances of the kind, just constructed. *)
Definition two_instances : World :=
  let '(a, w0) := construct bytesA None None empty_world in
  let '(b, w1) := construct bytesB None None w0 in
  w1.

(** The same node once [initElements] has put the root class on it. *)
Definition stale_identity_classed : World :=
  update_element 0 (set_classList [rootClass]) stale_identity.

(** The microtask that [callWithEvent] leaves for the clone hook. *)
Definition clone_hook_task (el found : nat) : Task :=
  TAfterHook el clonedCallback EVENT_CLONED (VElement found) (inl (VElement found))
             (KCheckClone el).

Definition cloned_event (el found : nat) : Published :=
  mkPublished el EVENT_CLONED (VElement found) (Some (VElement found)).

(** *** Recording and throwing subscribers *)

(** A subscriber that only records its call. *)
Definition recorder (el : nat) (name : string) : Callback := CbUser name [AObserve el].

(** A subscriber that throws [e] first thing. *)
Definition thrower (name : string) (e : Error) (rest : list Action) : Callback :=
  CbUser name (AThrow e :: rest).

(** Recording subscribers of [connected] next to the built-in one: each
    notes what it sees of the instance when it is called. *)
Definition probe_subscriptions (el : nat) (names : list string)
    : gmap string (list Callback) :=
  <[EVENT_CONNECTED := CbConnected el :: (recorder el <$> names)]> (builtin_subscriptions el).

Definition probed_instance : World :=
  let '(a, w) := construct bytesA None None empty_world in
  host_append a
    (subscribe a EVENT_CONNECTED (recorder a "late")
       (subscribe a EVENT_CONNECTED (recorder a "early") w)).

(** An instance with a subscriber of [connected] that throws. *)
Definition late_failure : World :=
  subscribe 0 EVENT_CONNECTED (thrower "t" "late" []) (one_instance None None).

(** A subscriber of [ping] that, when called, registers [g] for [ping]. *)
Definition reentrant_world : World :=
  subscribe 0 "ping"
    (CbUser "f" [AObserve 0; ASubscribe 0 "ping" "g" [AObserve 0]])
    (one_instance None None).

Definition registered_names (el : nat) (action : string) (w : World) : list string :=
  match getData el w ≫= (fun loc => datas w !! loc) with
  | Some d => omap (fun cb => match cb with CbUser n _ => Some n | _ => None end)
                   (_getSubscriptions d action)
  | None => []
  end.

(** Three recorders, one of them registered twice. *)
Definition recorders_world : World :=
  subscribe 0 "ping" (recorder 0 "a")
    (subscribe 0 "ping" (recorder 0 "b")
       (subscribe 0 "ping" (recorder 0 "a") (one_instance None None))).

(** *** Attribute mutations *)

Definition two_mutations (el : nat) (n1 : string) (o1 v1 : option string)
    (n2 : string) (o2 v2 : option string) (w : World) : World :=
  attributeChangedCallback el n2 o2 v2 (attributeChangedCallback el n1 o1 v1 w).

(** The host signals one attribute mutation; the microtasks and then the
    timer it leaves behind run. *)
Definition attribute_turn (fuel : nat) (el : nat) (c : string * option string * option string)
    (w : World) : option World :=
  let '(name, oldValue, newValue) := c in
  w1 ← drain 4 fuel (attributeChangedCallback el name oldValue newValue w);
  tick 4 fuel w1.

Fixpoint attribute_turns (fuel : nat) (el : nat)
    (cs : list (string * option string * option string)) (w : World) : option World :=
  match cs with
  | [] => Some w
  | c :: cs' => w' ← attribute_turn fuel el c w; attribute_turns fuel el cs' w'
  end.

Definition sets_debug (c : string * option string * option string) : bool :=
  String.eqb c.1.1 "debug" && attr_truthy c.2.

(** A subscriber that leaves the registry alone. *)
Definition passive_action (a : Action) : bool :=
  match a with
  | ASubscribe _ _ _ _ => false
  | _ => true
  end.

Definition passive (cb : Callback) : bool :=
  match cb with
  | CbUser _ body => forallb passive_action body
  | _ => false
  end.

(** Payload objects that are neither [undefined] nor an instance. *)
Definition plain_object (v : Value) : bool :=
  match v with
  | VUndefined | VElement _ => false
  | _ => true
  end.

(** The payloads of the [changed] events published on [el]. *)
Definition changed_payload (el : nat) (p : Published) : option Value :=
  if Nat.eqb (pub_on p) el && String.eqb (pub_action p) EVENT_CHANGED
  then Some (pub_data p) else None.

Definition changed_payloads (el : nat) (pubs : list Published) : list Value :=
  omap (changed_payload el) pubs.

(** The tasks that the attribute flow of [el] leaves on the microtask
    queue. *)
Definition flow_task (el : nat) (t : Task) : bool :=
  match t with
  | TAfterSetOption e a event KDetached =>
      Nat.eqb e el && plain_object a && String.eqb event EVENT_ATTRIBUTE_CHANGED
  | TAfterHook e _ event data (inl VUndefined) KDetached =>
      Nat.eqb e el && plain_object data &&
      (String.eqb event EVENT_ATTRIBUTE_CHANGED || String.eqb event EVENT_CHANGED)
  | TSettled KDetached _ => true
  | _ => false
  end.

(** How many microtasks a task still stands for. *)
Definition task_weight (t : Task) : nat :=
  match t with
  | TAfterSetOption _ _ _ _ => 3
  | TAfterHook _ _ _ _ _ _ => 2
  | _ => 1
  end.

Definition queue_weight (ts : list Task) : nat := sum_list_with task_weight ts.

(** The timers that the queued tasks will set, and the [changed]
    payloads that they will publish. *)
Definition timer_from (t : Task) : option Task :=
  match t with
  | TAfterSetOption e a _ _ => Some (TTimer e a)
  | _ => None
  end.

Definition changed_from (t : Task) : option Value :=
  match t with
  | TAfterHook _ _ event data _ _ =>
      if String.eqb event EVENT_CHANGED then Some data else None
  | _ => None
  end.

Definition add_observations (obs : list Observation) (w : World) : World :=
  set_observed (observed w ++ obs) w.

(** A call that came back, or threw, having only recorded observations. *)
Definition recorded_only (w : World) (r : Res) : Prop :=
  exists obs, r = Normal (add_observations obs w)
              \/ exists e, r = Raised e (add_observations obs w).

(** The events of the attribute flow and the [error] event of its
    failures. *)
Definition flow_event (action : string) : Prop :=
  action = EVENT_ATTRIBUTE_CHANGED \/ action = EVENT_CHANGED \/ action = EVENT_ERROR.

(** The subscribers of the flow's events are passive and fewer than the
    fuel of a dispatch. *)
Definition passive_flow (subs : gmap string (list Callback)) (fuel : nat) : Prop :=
  forall action, flow_event action ->
    Forall (fun cb => passive cb = true) (default [] (subs !! action)) /\
    length (default [] (subs !! action)) < fuel.

(** The instance [el] is [i], and its registry is [subs]. *)
Definition flow_instance (el : nat) (i : Instance) (subs : gmap string (list Callback))
    (w : World) : Prop :=
  elements w !! el = Some i /\
  exists d, datas w !! _data i = Some d /\ subscriptions d = subs.

Definition same_stores (w w' : World) : Prop :=
  elements w' = elements w /\ datas w' = datas w /\ defaults w' = defaults w.

(** An instance with a recording subscriber of [attribute.changed] and a
    subscriber of [changed] that throws. *)
Definition listening_subscriptions : gmap string (list Callback) :=
  <[EVENT_CHANGED := [thrower "t" "boom" []]]>
    (<[EVENT_ATTRIBUTE_CHANGED := [recorder 0 "r"]]> (builtin_subscriptions 0)).

Definition listening_instance : World :=
  subscribe 0 EVENT_CHANGED (thrower "t" "boom" [])
    (subscribe 0 EVENT_ATTRIBUTE_CHANGED (recorder 0 "r") (one_instance None None)).

(** *** Further modelling *)

(** A subscriber that records its call and then registers, for the same
    event of the same instance, a recorder for each of the names
    [adds]. *)
Definition registrar (el : nat) (action : string) (reg : string * list string) : Callback :=
  CbUser reg.1
    (AObserve el :: ((fun g => ASubscribe el action g [AObserve el]) <$> reg.2)).

(** The names under which the callbacks of a list of registrars are
    observed by one dispatch: the registrars in their order, then the
    recorders that they registered, in the order of the registrations. *)
Definition dispatch_order (regs : list (string * list string)) : list string :=
  (fst <$> regs) ++ concat (snd <$> regs).


(** [setOptions(options)]: [this.getOptions()] is evaluated before the
    [await]; the merge and the assignment back to [this._data.options]
    happen when the function resumes, [loc] being the record whose options
    object was read.  When the instance holds another record by then, that
    record would get the options object of [loc] for its own: two records
    with one options object, which the store does not represent. *)
Definition setOptions_resume (el loc : nat) (opts : gmap string OptVal) (w : World)
    : option World :=
  match getData el w with
  | Some loc' => if decide (loc' = loc) then Some (setOptions el opts w) else None
  | None => None
  end.

(** The instance as the constructor builds it. *)
Definition new_instance (bytes : list Z) (hprops hrender : option Error) (loc dloc : nat)
    : Instance :=
  mkInstance (Uid.generateUid bytes) None false loc dloc ∅ [] false None None hprops hrender.

(** The symbol that a byte contributes to an identity. *)
Definition symbol_of_byte (byte : Z) : option ascii :=
  Uid.charset !! Z.to_nat (Uid.index_of_byte byte).

(** Neither trace nor the rejections changed. *)
Definition silent (w w' : World) : Prop :=
  published w' = published w /\ observed w' = observed w /\
  console w' = console w /\ unhandled w' = unhandled w.

(** A registry with a subscriber of [connected] that throws, behind the
    built-in one. *)
Definition failing_connected (el : nat) (name : string) (e : Error) (rest : list Action)
    (post : list Callback) : gmap string (list Callback) :=
  <[EVENT_CONNECTED := CbConnected el :: thrower name e rest :: post]>
    (builtin_subscriptions el).




(** *** Histories *)

(** [static observedAttributes = [...this.defaultObservedAttributes]] *)
Definition observedAttributes : list string := ["debug"].

Definition host_remove (el : nat) (w : World) : World :=
  mkWorld (elements w) (filter (fun e => e <> el) (document w)) (datas w) (defaults w)
          (published w) (observed w) (console w) (microtasks w) (timers w) (unhandled w).

(** What the host and the page's own code do to the instances, one step
    at a time. *)
Inductive HostEvent :=
| HConstruct (bytes : list Z) (hprops hrender : option Error)
| HInsert (el : nat)          (* the node enters the document *)
| HRemove (el : nat)          (* the node leaves the document *)
| HAdopt (el : nat)           (* the node moves to another document *)
| HSetAttribute (el : nat) (name value : string)
| HRemoveAttribute (el : nat) (name : string)
| HSubscribe (el : nat) (action : string) (cb : Callback)
| HSetOption (el : nat) (key : string) (value : OptVal)
| HSetOptionsResumes (el loc : nat) (opts : gmap string OptVal)
    (* a [setOptions] call made when [el] held the record [loc] resumes *)
| HSetData (el loc : nat)      (* [setData] with a record of the store *)
| HMicrotask                  (* the oldest microtask runs *)
| HMicrotasks (n : nat)       (* the microtask queue runs dry *)
| HTimer (n : nat).           (* the oldest timer fires *)

Definition host_step (fuel : nat) (e : HostEvent) (w : World) : option World :=
  match e with
  | HConstruct bytes hprops hrender => Some (construct bytes hprops hrender w).2
  | HInsert el =>
      match connectedCallback fuel el (host_append el w) with
      | Normal w' => Some w'
      | Raised _ w' => Some w'      (* the host reports the exception *)
      | Spin => None
      end
  | HRemove el => Some (disconnectedCallback el (host_remove el w))
  | HAdopt el => Some (adoptedCallback el w)
  | HSetAttribute el name value =>
      let w1 := setAttribute el name value w in
      Some (if bool_decide (name ∈ observedAttributes)
            then attributeChangedCallback el name (getAttribute el name w) (Some value) w1
            else w1)
  | HRemoveAttribute el name =>
      match getAttribute el name w with
      | None => Some w
      | Some old =>
          let w1 := removeAttribute el name w in
          Some (if bool_decide (name ∈ observedAttributes)
                then attributeChangedCallback el name (Some old) None w1
                else w1)
      end
  | HSubscribe el action cb => Some (subscribe el action cb w)
  | HSetOption el key value => Some (setOption el key value w)
  | HSetOptionsResumes el loc opts => setOptions_resume el loc opts w
  | HSetData el loc =>
      if decide (is_Some (datas w !! loc)) then Some (setData el loc w) else None
  | HMicrotask =>
      match microtasks w with
      | [] => Some w
      | t :: rest => exec_task fuel t (set_microtasks rest w)
      end
  | HMicrotasks n => drain n fuel w
  | HTimer n => tick n fuel w
  end.

Fixpoint host_run (fuel : nat) (es : list HostEvent) (w : World) : option World :=
  match es with
  | [] => Some w
  | e :: es' => w' ← host_step fuel e w; host_run fuel es' w'
  end.

(** What may change on an instance, and on a data record, as time goes
    by. *)
Definition instance_evolves (i i' : Instance) : Prop :=
  guid i' = guid i /\ defaultOptions i' = defaultOptions i /\
  initProps_hook i' = initProps_hook i /\ render_hook i' = render_hook i /\
  (loaded i = true -> loaded i' = true) /\
  (shadowRoot i = true -> shadowRoot i' = true).

Definition data_evolves (d d' : Data) : Prop :=
  options_proto d' = options_proto d /\
  dom (options d) ⊆ dom (options d') /\
  forall action, _getSubscriptions d action `prefix_of` _getSubscriptions d' action.

Definition evolves (w w' : World) : Prop :=
  (forall el i, elements w !! el = Some i ->
     exists i', elements w' !! el = Some i' /\ instance_evolves i i') /\
  (forall loc d, datas w !! loc = Some d ->
     exists d', datas w' !! loc = Some d' /\ data_evolves d d') /\
  defaults w ⊆ defaults w' /\
  published w `prefix_of` published w' /\
  observed w `prefix_of` observed w' /\
  console w `prefix_of` console w' /\
  unhandled w `prefix_of` unhandled w'.

Definition res_evolves (w : World) (r : Res) : Prop :=
  match r with
  | Normal w' | Raised _ w' => evolves w w'
  | Spin => True
  end.

Definition hook_evolves (w : World) (h : HookRun) : Prop :=
  match h with
  | HSettled _ w' | HSuspended w' => evolves w w'
  end.

(** A page history: an instance is attached, gets a late subscriber and
    a debug attribute; a copy of its node is made and attached; options
    are set through the copy; the class attribute of the first node is
    rewritten and its debug attribute removed; the copy is given back the
    record of its constructor; the first node is removed. *)
Definition constructed : World := (construct bytesA None None empty_world).2.

Definition page_history : list HostEvent :=
  [HInsert 0; HMicrotasks 12;
   HSubscribe 0 "changed" (recorder 0 "seen");
   HSetAttribute 0 "debug" "1"; HMicrotasks 4; HTimer 4;
   HConstruct bytesB None None; HSetAttribute 1 "guid" "121256569090";
   HInsert 1; HMicrotasks 14; HSetOption 1 "theme" (OStr "dark");
   HSetOptionsResumes 1 0 {["debug" := OBool false]};
   HSetAttribute 0 "class" "plain";
   HRemoveAttribute 0 "debug"; HMicrotask; HMicrotask; HTimer 4;
   HSetData 1 1; HRemove 0; HMicrotasks 4].

(** The page at the end of that history. *)
Definition page_end : World :=
  default empty_world (host_run 3 page_history constructed).

(** * Properties *)

Lemma builtin_connecting el :
  builtin_subscriptions el !! "connecting" = Some [CbConnecting el].
Proof. unfold builtin_subscriptions. by rewrite lookup_insert_ne, lookup_insert_eq. Qed.

Lemma builtin_connected el :
  builtin_subscriptions el !! "connected" = Some [CbConnected el].
Proof. unfold builtin_subscriptions. by rewrite lookup_insert_eq. Qed.

Lemma builtin_other el action :
  action <> "connecting" -> action <> "connected" ->
  builtin_subscriptions el !! action = None.
Proof.
  intros H1 H2. unfold builtin_subscriptions.
  rewrite !lookup_insert_ne by (unfold EVENT_CONNECTED, EVENT_CONNECTING; congruence).
  apply lookup_empty.
Qed.

#[local] Arguments builtin_subscriptions : simpl never.
#[local] Arguments debug_entries : simpl never.
#[local] Arguments read_option : simpl never.

Lemma drain_cons n fuel w t rest :
  microtasks w = t :: rest ->
  drain (S n) fuel w = exec_task fuel t (set_microtasks rest w) ≫= drain n fuel.
Proof. intros H. cbn. by rewrite H. Qed.

Lemma drain_nil n fuel w : microtasks w = [] -> drain n fuel w = Some w.
Proof. intros H. destruct n; cbn; by rewrite H. Qed.

#[local] Arguments drain : simpl never.
#[local] Arguments has_class : simpl never.
#[local] Arguments String.eqb : simpl never.

Lemma checkClone_own_identity el i w :
  elements w !! el = Some i -> attributes i !! "guid" = Some (guid i) ->
  checkClone el w = enqueue_microtask (TSettled (KCheckClone el) (inl VUndefined)) w.
Proof.
  intros Hel Hg. unfold checkClone. rewrite Hel, Hg.
  destruct (String.eqb (guid i) ""); [done|].
  rewrite String.eqb_refl. cbn. by destruct (querySelector _ _ _).
Qed.

(** *** Symbolic execution

    Worlds are kept in constructor form with the instance and the record
    under study on top of their stores; the store updates are rewritten
    on such worlds and are otherwise sealed. *)

Lemma update_element_top el f i els doc ds dfs pub obs con mt tm un :
  update_element el f (mkWorld (<[el := i]> els) doc ds dfs pub obs con mt tm un)
  = mkWorld (<[el := f i]> els) doc ds dfs pub obs con mt tm un.
Proof. unfold update_element, set_elements. cbn. by rewrite alter_insert_eq. Qed.

Lemma update_data_top loc f d els doc ds dfs pub obs con mt tm un :
  update_data loc f (mkWorld els doc (<[loc := d]> ds) dfs pub obs con mt tm un)
  = mkWorld els doc (<[loc := f d]> ds) dfs pub obs con mt tm un.
Proof. unfold update_data, set_datas. cbn. by rewrite alter_insert_eq. Qed.

Lemma elements_update_element el f w :
  elements (update_element el f w) = alter f el (elements w).
Proof. reflexivity. Qed.

Lemma datas_update_element el f w : datas (update_element el f w) = datas w.
Proof. reflexivity. Qed.

Lemma defaults_update_element el f w : defaults (update_element el f w) = defaults w.
Proof. reflexivity. Qed.

Lemma datas_update_data loc f w :
  datas (update_data loc f w) = alter f loc (datas w).
Proof. reflexivity. Qed.

Lemma elements_update_data loc f w : elements (update_data loc f w) = elements w.
Proof. reflexivity. Qed.

Lemma defaults_update_data loc f w : defaults (update_data loc f w) = defaults w.
Proof. reflexivity. Qed.

Lemma update_element_unfold el f w :
  update_element el f w
  = mkWorld (alter f el (elements w)) (document w) (datas w) (defaults w) (published w)
            (observed w) (console w) (microtasks w) (timers w) (unhandled w).
Proof. reflexivity. Qed.

Lemma update_data_unfold loc f w :
  update_data loc f w
  = mkWorld (elements w) (document w) (alter f loc (datas w)) (defaults w) (published w)
            (observed w) (console w) (microtasks w) (timers w) (unhandled w).
Proof. reflexivity. Qed.

(** Attributes other than [class], and option keys other than
    [__proto__], are plain entries of their maps. *)
Lemma setAttribute_other el name value w :
  name <> "class" ->
  setAttribute el name value w
  = update_element el (fun i => set_attributes (<[name := value]> (attributes i)) i) w.
Proof.
  intros H. unfold setAttribute. apply String.eqb_neq in H. by rewrite H.
Qed.

Lemma getAttribute_other el name w :
  name <> "class" ->
  getAttribute el name w = (i ← elements w !! el; attributes i !! name).
Proof.
  intros H. unfold getAttribute. apply String.eqb_neq in H. by rewrite H.
Qed.

Lemma assign_option_other key value dfs d :
  key <> "__proto__" ->
  assign_option key value dfs d = set_options (<[key := value]> (options d)) d.
Proof.
  intros H. unfold assign_option, reaches_setter. apply String.eqb_neq in H. by rewrite H.
Qed.

Lemma write_option_other loc key value w :
  key <> "__proto__" ->
  write_option loc key value w
  = update_data loc (fun d => set_options (<[key := value]> (options d)) d) w.
Proof.
  intros H. unfold write_option. rewrite !update_data_unfold. f_equal.
  apply alter_ext. intros d _. by apply assign_option_other.
Qed.

Lemma read_property_other d key dfs :
  key <> "__proto__" -> in_object_prototype key = false ->
  read_property d key dfs
  = match options d !! key with
    | Some v => RValue v
    | None => match default_property d key dfs with
              | Some v => RValue v
              | None => RUndefined
              end
    end.
Proof.
  intros H Hin. unfold read_property. apply String.eqb_neq in H. by rewrite H, Hin.
Qed.

Lemma read_option_other d key dfs :
  key <> "__proto__" -> in_object_prototype key = false ->
  read_option d key dfs
  = match options d !! key with
    | Some v => Some v
    | None => default_property d key dfs
    end.
Proof.
  intros H Hin. unfold read_option. rewrite read_property_other by done.
  destruct (options d !! key); [done|]. by destruct (default_property d key dfs).
Qed.

Lemma read_option_own d key v dfs : options d !! key = Some v -> read_option d key dfs = Some v.
Proof. intros H. unfold read_option, read_property. by rewrite H. Qed.

#[local] Opaque update_element update_data.

Lemma probe_connected el names :
  probe_subscriptions el names !! "connected"
  = Some (CbConnected el :: (recorder el <$> names)).
Proof. unfold probe_subscriptions. by rewrite lookup_insert_eq. Qed.

Lemma probe_other el names action :
  action <> "connected" ->
  probe_subscriptions el names !! action = builtin_subscriptions el !! action.
Proof. intros H. unfold probe_subscriptions. by rewrite lookup_insert_ne. Qed.

#[local] Arguments probe_subscriptions : simpl never.

(** Lookups in the registries that the statements mention. *)
Ltac registry_lookup :=
  match goal with
  | |- context [builtin_subscriptions _ !! _] =>
      first [ rewrite builtin_connecting | rewrite builtin_connected
            | rewrite builtin_other by discriminate ]
  | |- context [probe_subscriptions _ _ !! _] =>
      first [ rewrite probe_connected | rewrite probe_other by discriminate ]
  end.

Ltac simp_lookup :=
  repeat first
    [ rewrite lookup_insert_eq
    | rewrite lookup_insert_ne by discriminate
    | registry_lookup
    | match goal with H : _ !! _ = _ |- _ => rewrite H end
    | progress cbn ].

Ltac simp_step :=
  match goal with
  | |- context [update_element _ _ (mkWorld _ _ _ _ _ _ _ _ _ _)] =>
      rewrite update_element_top
  | |- context [update_data _ _ (mkWorld _ _ _ _ _ _ _ _ _ _)] =>
      rewrite update_data_top
  | |- context [<[_ := _]> _ !! _] =>
      first [ rewrite lookup_insert_eq | rewrite lookup_insert_ne by discriminate ]
  | |- _ => registry_lookup
  | H : ?m !! ?k = _ |- context [?m !! ?k] => rewrite H
  | H : ?c = _ |- context [if ?c then _ else _] => rewrite H
  | |- context [checkClone _ _] =>
      erewrite checkClone_own_identity by (simp_lookup; reflexivity)
  | |- context [setAttribute _ _ _ _] => rewrite setAttribute_other by discriminate
  | |- context [getAttribute _ _ _] => rewrite getAttribute_other by discriminate
  | |- context [write_option _ _ _ _] => rewrite write_option_other by discriminate
  | |- _ =>
      progress unfold publish_record, _getSubscriptions, getData, setData, setOption,
        callWithEvent, run_hook, run_overridable, run_initElements,
        run_initConnected, run_processAttributeChanged, run_clonedCallback,
        settled, outgoing,
        enqueue_microtask, setTimeout, tag_source,
        reject_unhandled,
        set_published, set_observed, set_console,
        set_microtasks, set_timers, set_unhandled,
        set_attributes, set_classList, set_loaded, set_clonedGuid, set__data,
        set_shadowRoot, set_component_data, set__source, set_options,
        set_subscriptions,
        EVENT_CHANGED, EVENT_ATTRIBUTE_CHANGED, EVENT_CLONED, EVENT_CONNECTING,
        EVENT_CONNECTED, EVENT_RENDERED, EVENT_DISCONNECTED, EVENT_ADOPTED,
        EVENT_PROPS_SET, EVENT_ELEMENTS_SET, EVENT_ERROR
  | |- _ => progress cbn
  end.

Ltac simp_code := repeat simp_step.

Ltac eval_send :=
  match goal with
  | |- context [_sendSubscriptionEvent ?f ?e ?a ?d ?s ?W] =>
      let H := fresh "Hsend" in
      eassert (H : _sendSubscriptionEvent f e a d s W = _)
        by (unfold _sendSubscriptionEvent; simp_code; reflexivity);
      rewrite H; clear H
  end.

Ltac run_task :=
  erewrite drain_cons by reflexivity;
  unfold exec_task; simp_code;
  try (unfold callWithEvent_catch, warning; simp_code);
  try eval_send; simp_code.

Ltac flatten_world w i d Hel :=
  destruct w, i, d; cbn in *; subst;
  rewrite <- (insert_id _ _ _ Hel); clear Hel.

(** ** Dispatch *)

Lemma dispatch_recorders el i loc d action data names :
  forall pre fuel w,
  elements w !! el = Some i -> datas w !! loc = Some d ->
  subscriptions d !! action = Some (pre ++ (recorder el <$> names)) ->
  length names < fuel ->
  dispatch fuel loc action (length pre) data w
  = Normal (set_observed (observed w ++ ((fun n => observe n data i) <$> names)) w).
Proof.
  induction names as [|n names IH]; intros pre fuel w Hel Hd Hsubs Hfuel.
  - destruct fuel as [|fuel]; [cbn in Hfuel; lia|]. cbn [dispatch].
    rewrite Hd. cbn [mbind option_bind]. unfold _getSubscriptions. rewrite Hsubs.
    cbn [default from_option id fmap list_fmap].
    rewrite app_nil_r, lookup_ge_None_2 by lia.
    cbn. rewrite app_nil_r. by destruct w.
  - destruct fuel as [|fuel]; [cbn in Hfuel; lia|]. cbn [dispatch].
    rewrite Hd. cbn [mbind option_bind]. unfold _getSubscriptions. rewrite Hsubs.
    cbn [default from_option id]. rewrite lookup_app_r, Nat.sub_diag by lia.
    cbn. rewrite Hel.
    replace (S (length pre)) with (length (pre ++ [recorder el n]))
      by (rewrite length_app; cbn; lia).
    rewrite IH; cbn; try assumption.
    + by rewrite <- app_assoc.
    + by rewrite <- app_assoc.
    + cbn in Hfuel. lia.
Qed.

Lemma dispatch_thrower el i loc d action data name e rest post todo :
  forall pre fuel w,
  elements w !! el = Some i -> datas w !! loc = Some d ->
  subscriptions d !! action
    = Some (pre ++ (recorder el <$> todo) ++ thrower name e rest :: post) ->
  length todo < fuel ->
  dispatch fuel loc action (length pre) data w
  = Raised e (set_observed (observed w ++ ((fun n => observe n data i) <$> todo)) w).
Proof.
  induction todo as [|n todo IH]; intros pre fuel w Hel Hd Hsubs Hfuel.
  - destruct fuel as [|fuel]; [cbn in Hfuel; lia|]. cbn [dispatch].
    rewrite Hd. cbn [mbind option_bind]. unfold _getSubscriptions. rewrite Hsubs.
    cbn [default from_option id fmap list_fmap app].
    rewrite lookup_app_r, Nat.sub_diag by lia.
    cbn. rewrite app_nil_r. by destruct w.
  - destruct fuel as [|fuel]; [cbn in Hfuel; lia|]. cbn [dispatch].
    rewrite Hd. cbn [mbind option_bind]. unfold _getSubscriptions. rewrite Hsubs.
    cbn [default from_option id]. rewrite lookup_app_r, Nat.sub_diag by lia.
    cbn. rewrite Hel.
    replace (S (length pre)) with (length (pre ++ [recorder el n]))
      by (rewrite length_app; cbn; lia).
    rewrite IH; cbn; try assumption.
    + by rewrite <- app_assoc.
    + by rewrite <- app_assoc.
    + cbn in Hfuel. lia.
Qed.

Lemma dispatch_recorders_from el i loc d action data names pre fuel w :
  elements w !! el = Some i -> datas w !! loc = Some d ->
  _getSubscriptions d action = pre ++ (recorder el <$> names) ->
  length names < fuel ->
  dispatch fuel loc action (length pre) data w
  = Normal (set_observed (observed w ++ ((fun n => observe n data i) <$> names)) w).
Proof.
  intros Hel Hd Hsubs Hfuel. unfold _getSubscriptions in Hsubs.
  destruct (subscriptions d !! action) as [l|] eqn:E; cbn in Hsubs.
  - subst l. by apply (dispatch_recorders el i loc d).
  - symmetry in Hsubs. apply app_eq_nil in Hsubs as [-> Hn].
    apply fmap_nil_inv in Hn as ->.
    destruct fuel as [|fuel]; [cbn in Hfuel; lia|]. cbn [dispatch].
    rewrite Hd. cbn [mbind option_bind]. unfold _getSubscriptions. rewrite E.
    cbn. rewrite app_nil_r. by destruct w.
Qed.

Lemma send_recorders fuel el i d action data source names w :
  elements w !! el = Some i -> datas w !! _data i = Some d ->
  _getSubscriptions d action = recorder el <$> names -> length names < fuel ->
  _sendSubscriptionEvent fuel el action data source w
  = Normal (mkWorld (elements w) (document w) (datas w) (defaults w)
              (published w ++ [mkPublished el action data source])
              (observed w ++ ((fun n => observe n data i) <$> names))
              (console w ++
                 debug_entries (read_option d "debug" (defaults w))
                               (LogEvent (guid i) (clonedGuid i) action data))
              (microtasks w) (timers w) (unhandled w)).
Proof.
  intros Hel Hd Hsubs Hfuel. unfold _sendSubscriptionEvent. rewrite Hel, Hd.
  by erewrite (dispatch_recorders_from el i (_data i) d action data names []).
Qed.

Lemma send_thrower fuel el i d action data source pre name e rest post w :
  elements w !! el = Some i -> datas w !! _data i = Some d ->
  subscriptions d !! action = Some ((recorder el <$> pre) ++ thrower name e rest :: post) ->
  length pre < fuel ->
  _sendSubscriptionEvent fuel el action data source w
  = Raised e (mkWorld (elements w) (document w) (datas w) (defaults w)
                (published w ++ [mkPublished el action data source])
                (observed w ++ ((fun n => observe n data i) <$> pre))
                (console w ++
                   debug_entries (read_option d "debug" (defaults w))
                                 (LogEvent (guid i) (clonedGuid i) action data))
                (microtasks w) (timers w) (unhandled w)).
Proof.
  intros Hel Hd Hsubs Hfuel. unfold _sendSubscriptionEvent. rewrite Hel, Hd.
  by erewrite (dispatch_thrower el i (_data i) d action data name e rest post pre []).
Qed.

Lemma subscribe_flat el i d action cb w :
  elements w !! el = Some i -> datas w !! _data i = Some d ->
  subscribe el action cb w
  = mkWorld (elements w) (document w)
            (<[_data i := push_subscription action cb d]> (datas w)) (defaults w)
            (published w) (observed w) (console w) (microtasks w) (timers w) (unhandled w).
Proof.
  intros Hel Hd. unfold subscribe, getData. rewrite Hel. cbn.
  rewrite update_data_unfold. f_equal.
  rewrite <- (insert_id (datas w) (_data i) d Hd) at 1. by rewrite alter_insert_eq.
Qed.

Lemma push_subscription_at action cb d l :
  subscriptions d !! action = Some l ->
  subscriptions (push_subscription action cb d) !! action = Some (l ++ [cb]).
Proof.
  intros H. unfold push_subscription, _getSubscriptions. cbn.
  by rewrite lookup_insert_eq, H.
Qed.

(** The registrations of a registrar: each lands at the end of the list
    that the loop is walking. *)
Lemma run_registrations el i action name data adds :
  forall w d l,
  elements w !! el = Some i -> datas w !! _data i = Some d ->
  subscriptions d !! action = Some l ->
  exists d',
    run_actions name data ((fun g => ASubscribe el action g [AObserve el]) <$> adds) w
    = Normal (mkWorld (elements w) (document w) (<[_data i := d']> (datas w)) (defaults w)
                (published w) (observed w) (console w) (microtasks w) (timers w)
                (unhandled w)) /\
    subscriptions d' !! action = Some (l ++ (recorder el <$> adds)).
Proof.
  induction adds as [|g adds IH]; intros w d l Hel Hd Hl.
  - exists d. cbn. rewrite app_nil_r, (insert_id _ _ _ Hd). split; [by destruct w | done].
  - cbn [fmap list_fmap run_actions]. rewrite Hel.
    rewrite (subscribe_flat el i d action _ w Hel Hd).
    set (d1 := push_subscription action (CbUser g [AObserve el]) d).
    set (w1 := mkWorld _ _ _ _ _ _ _ _ _ _).
    destruct (IH w1 d1 (l ++ [recorder el g])) as (d' & Hrun & Hl');
      [exact Hel | apply lookup_insert_eq | by apply push_subscription_at |].
    exists d'. split.
    + rewrite Hrun. unfold w1. cbn. by rewrite insert_insert_eq.
    + rewrite Hl'. cbn. by rewrite <- app_assoc.
Qed.

Lemma dispatch_registrars el i action data :
  forall regs done added fuel w d,
  elements w !! el = Some i -> datas w !! _data i = Some d ->
  subscriptions d !! action
    = Some (done ++ (registrar el action <$> regs) ++ (recorder el <$> added)) ->
  length regs + length added + length (concat (snd <$> regs)) < fuel ->
  exists d',
    dispatch fuel (_data i) action (length done) data w
    = Normal (mkWorld (elements w) (document w) (<[_data i := d']> (datas w)) (defaults w)
                (published w)
                (observed w ++ ((fun n => observe n data i)
                                  <$> (fst <$> regs) ++ added ++ concat (snd <$> regs)))
                (console w) (microtasks w) (timers w) (unhandled w)) /\
    subscriptions d' !! action
      = Some (done ++ (registrar el action <$> regs)
                   ++ (recorder el <$> added ++ concat (snd <$> regs))).
Proof.
  induction regs as [|[n adds] regs IH]; intros done added fuel w d Hel Hd Hsubs Hfuel.
  - exists d. cbn [fmap list_fmap concat app] in *. rewrite app_nil_r in *.
    rewrite (dispatch_recorders el i (_data i) d action data added done fuel w Hel Hd Hsubs)
      by lia.
    rewrite (insert_id _ _ _ Hd). split; [by destruct w | done].
  - destruct fuel as [|fuel]; [lia|]. cbn [dispatch].
    rewrite Hd. cbn [mbind option_bind]. unfold _getSubscriptions. rewrite Hsubs.
    cbn [default from_option id fmap list_fmap].
    rewrite lookup_app_r, Nat.sub_diag by lia.
    cbn [lookup list_lookup app invoke registrar fst snd run_actions]. rewrite Hel.
    set (w0 := set_observed (observed w ++ [observe n data i]) w).
    destruct (run_registrations el i action n data adds w0 d _ Hel Hd Hsubs)
      as (d1 & Hrun & Hl1).
    rewrite Hrun. clear Hrun.
    set (w1 := mkWorld _ _ _ _ _ _ _ _ _ _).
    destruct (IH (done ++ [registrar el action (n, adds)]) (added ++ adds) fuel w1 d1)
      as (d' & Hgo & Hl');
      [ exact Hel | apply lookup_insert_eq
      | rewrite Hl1; cbn [fmap list_fmap]; rewrite fmap_app, <- !app_assoc; reflexivity
      | cbn [fmap list_fmap concat snd length] in Hfuel; rewrite !length_app in *; lia | ].
    replace (S (length done)) with (length (done ++ [registrar el action (n, adds)]))
      by (rewrite length_app; cbn; lia).
    rewrite Hgo. exists d'. split.
    + unfold w1, w0. cbn. rewrite insert_insert_eq.
      by rewrite <- !app_assoc.
    + rewrite Hl'. cbn [fmap list_fmap concat snd]. by rewrite <- !app_assoc.
Qed.

(** C5.  [_sendSubscriptionEvent] calls the callbacks of the event's list
    in registration order, each with the payload, duplicates included.
    The loop walks the live list: a callback that is appended to the list
    while the loop runs is called by that same loop, after the callbacks
    that were registered before it, so that with callbacks that leave the
    registry alone the callbacks called are the ones registered when the
    call started.  A callback that throws ends the loop: the error
    reaches the caller and the callbacks behind it are not called. *)
Theorem C5_publish_dispatch el i d action data source fuel w :
  elements w !! el = Some i -> datas w !! _data i = Some d ->
  (forall names,
     subscriptions d !! action = Some (recorder el <$> names) ->
     length names < fuel ->
     _sendSubscriptionEvent fuel el action data source w
     = Normal (set_observed
                 (observed w ++ ((fun n => observe n data i) <$> names))
                 (publish_record el i d action data source w))) /\
  (forall regs,
     subscriptions d !! action = Some (registrar el action <$> regs) ->
     length (dispatch_order regs) < fuel ->
     exists w' d',
       _sendSubscriptionEvent fuel el action data source w = Normal w' /\
       observed w' = observed w ++ ((fun n => observe n data i) <$> dispatch_order regs) /\
       datas w' !! _data i = Some d' /\
       _getSubscriptions d' action
         = (registrar el action <$> regs) ++ (recorder el <$> concat (snd <$> regs)) /\
       published w' = published w ++ [mkPublished el action data source]) /\
  (forall pre name e rest post,
     subscriptions d !! action
       = Some ((recorder el <$> pre) ++ thrower name e rest :: post) ->
     length pre < fuel ->
     _sendSubscriptionEvent fuel el action data source w
     = Raised e (set_observed
                   (observed w ++ ((fun n => observe n data i) <$> pre))
                   (publish_record el i d action data source w))).
Proof.
  intros Hel Hd. split; [|split].
  - intros names Hsubs Hfuel. unfold _sendSubscriptionEvent. rewrite Hel, Hd.
    cbv zeta.
    erewrite (dispatch_recorders el i (_data i) d action data names []);
      [reflexivity | exact Hel | exact Hd | exact Hsubs | exact Hfuel].
  - intros regs Hsubs Hfuel. unfold _sendSubscriptionEvent. rewrite Hel, Hd.
    set (w0 := publish_record el i d action data source w).
    destruct (dispatch_registrars el i action data regs [] [] fuel w0 d Hel Hd)
      as (d' & Hrun & Hl).
    + cbn [fmap list_fmap app]. by rewrite app_nil_r.
    + unfold dispatch_order in Hfuel. rewrite length_app, length_fmap in Hfuel. cbn. lia.
    + cbn [length] in Hrun. rewrite Hrun. eexists _, d'. split; [reflexivity|]. cbn.
      split; [done|]. split; [apply lookup_insert_eq|].
      unfold _getSubscriptions. rewrite Hl. cbn. done.
  - intros pre name e rest post Hsubs Hfuel. unfold _sendSubscriptionEvent.
    rewrite Hel, Hd. cbv zeta.
    erewrite (dispatch_thrower el i (_data i) d action data name e rest post pre []);
      [reflexivity | exact Hel | exact Hd | exact Hsubs | exact Hfuel].
Qed.

Lemma C5_publish_dispatch_witness :
  (exists w', _sendSubscriptionEvent 4 0 "ping" VObject None recorders_world = Normal w' /\
     obs_callback <$> observed w' = ["a"; "b"; "a"]) /\
  (exists w', _sendSubscriptionEvent 3 0 "ping" VObject None reentrant_world = Normal w' /\
     obs_callback <$> observed w' = ["f"; "g"]).
Proof.
  split.
  - destruct (C5_publish_dispatch 0
                (mkInstance "121256569090" None false 0 0 ∅ [] false None None None None)
                (mkData ∅ 0 (<["ping" := recorder 0 <$> ["a"; "b"; "a"]]>
                               (builtin_subscriptions 0)))
                "ping" VObject None 4 recorders_world) as (Hall & _ & _);
      [vm_compute; reflexivity | vm_compute; reflexivity |].
    eexists. split.
    + apply (Hall ["a"; "b"; "a"]); [vm_compute; reflexivity | cbn; lia].
    + reflexivity.
  - destruct (C5_publish_dispatch 0
                (mkInstance "121256569090" None false 0 0 ∅ [] false None None None None)
                (mkData ∅ 0 (<["ping" := registrar 0 "ping" <$> [("f", ["g"])]]>
                               (builtin_subscriptions 0)))
                "ping" VObject None 3 reentrant_world) as (_ & Hlive & _);
      [vm_compute; reflexivity | vm_compute; reflexivity |].
    destruct (Hlive [("f", ["g"])]) as (w' & d' & Hrun & Hobs & _);
      [vm_compute; reflexivity | cbn; lia |].
    exists w'. split; [exact Hrun|]. rewrite Hobs. reflexivity.
Defined.

(** A callback registered for the same event while the loop runs is
    called by that same loop. *)
Lemma C5_counterexample :
  registered_names 0 "ping" reentrant_world = ["f"] /\
  exists w', _sendSubscriptionEvent 3 0 "ping" VObject None reentrant_world = Normal w' /\
    obs_callback <$> observed w' = ["f"; "g"] /\
    obs_callback <$> observed w' <> registered_names 0 "ping" reentrant_world.
Proof.
  split; [reflexivity|]. eexists. split; [vm_compute; reflexivity|].
  split; [reflexivity | discriminate].
Qed.

(** ** Mount sequence *)

Lemma subscribe_at el i loc d action cb w :
  elements w !! el = Some i -> _data i = loc -> datas w !! loc = Some d ->
  elements (subscribe el action cb w) = elements w /\
  datas (subscribe el action cb w) = <[loc := push_subscription action cb d]> (datas w) /\
  defaults (subscribe el action cb w) = defaults w.
Proof.
  intros Hel Hloc Hd. unfold subscribe, getData. rewrite Hel. cbn. rewrite Hloc.
  rewrite elements_update_data, datas_update_data, defaults_update_data.
  split; [reflexivity|]. split; [|reflexivity].
  rewrite <- (insert_id (datas w) loc d Hd) at 1. by rewrite alter_insert_eq.
Qed.

(** The constructor yields a fresh instance with the hooks it was given
    and the identity drawn from the bytes; its data record and its default
    map are new objects. *)
Lemma construct_fresh bytes hprops hrender w :
  exists i d,
    fresh_instance (construct bytes hprops hrender w).1 i d
                   (construct bytes hprops hrender w).2 /\
    elements w !! (construct bytes hprops hrender w).1 = None /\
    datas w !! _data i = None /\ defaults w !! options_proto d = None /\
    guid i = Uid.generateUid bytes /\
    initProps_hook i = hprops /\ render_hook i = hrender /\
    options d = ∅ /\ defaults (construct bytes hprops hrender w).2 !! options_proto d
                      = Some {["debug" := OBool false]}.
Proof.
  unfold construct. cbn [fst snd].
  set (el := fresh (dom (elements w))).
  set (dloc := fresh (dom (defaults w))).
  set (loc := fresh (dom (datas w))).
  set (i := mkInstance _ _ _ _ _ _ _ _ _ _ _ _).
  set (w1 := mkWorld _ _ _ _ _ _ _ _ _ _).
  assert (Hel1 : elements w1 !! el = Some i) by apply lookup_insert_eq.
  assert (Hd1 : datas w1 !! loc = Some (mkData ∅ dloc ∅)) by apply lookup_insert_eq.
  destruct (subscribe_at el i loc _ EVENT_CONNECTING (CbConnecting el) w1 Hel1 eq_refl Hd1)
    as (He2 & Hd2 & Hf2).
  set (w2 := subscribe el EVENT_CONNECTING (CbConnecting el) w1) in *.
  assert (Hel2 : elements w2 !! el = Some i) by (by rewrite He2).
  assert (Hd2' : datas w2 !! loc
                 = Some (push_subscription EVENT_CONNECTING (CbConnecting el)
                           (mkData ∅ dloc ∅)))
    by (rewrite Hd2; apply lookup_insert_eq).
  destruct (subscribe_at el i loc _ EVENT_CONNECTED (CbConnected el) w2 Hel2 eq_refl Hd2')
    as (He3 & Hd3 & Hf3).
  set (w3 := subscribe el EVENT_CONNECTED (CbConnected el) w2) in *.
  exists i. eexists. split; [|split; [|split; [|split; [|split; [|split; [|split; [|split]]]]]]].
  - split; [by rewrite He3|]. split; [rewrite Hd3; apply lookup_insert_eq|].
    split; [|by split].
    unfold push_subscription, _getSubscriptions, set_subscriptions, builtin_subscriptions.
    cbn. unfold EVENT_CONNECTED, EVENT_CONNECTING.
    by rewrite lookup_empty, lookup_insert_ne, lookup_empty.
  - apply not_elem_of_dom, is_fresh.
  - apply not_elem_of_dom, is_fresh.
  - apply not_elem_of_dom, is_fresh.
  - reflexivity.
  - reflexivity.
  - reflexivity.
  - reflexivity.
  - cbn. rewrite Hf3, Hf2. apply lookup_insert_eq.
Qed.









(** Mount abort, as the code runs it: when [initProps] throws [e], the
    stage wrapper publishes its own [error] event and the three later
    stage events never appear.  The rejection ends in the executor's own
    promise; the [.catch] of [connectedCallback] is not reached. *)
Lemma mount_abort_on_props_failure w el i d e n fuel :
  fresh_instance el i d w -> initProps_hook i = Some e -> microtasks w = [] ->
  2 <= fuel -> 3 <= n ->
  exists w', mount n fuel el w = Some w' /\
    published w' = published w ++
      [mkPublished el EVENT_CONNECTING (VElement el) None;
       stage_error el initProps EVENT_PROPS_SET VUndefined e] /\
    microtasks w' = [] /\ unhandled w' = unhandled w ++ [e].
Proof.
  intros (Hel & Hd & Hsubs & Hguid & Hshadow) Hp Hq Hfuel Hn.
  destruct fuel as [|[|fuel]]; [lia | lia |].
  do 3 (destruct n as [|n]; [lia|]).
  flatten_world w i d Hel.
  unfold mount, connectedCallback.
  eval_send. simp_code.
  do 3 run_task.
  rewrite drain_nil by reflexivity.
  eexists. split; [reflexivity|]. cbn.
  by rewrite <- !app_assoc.
Qed.

(** A failure of the connected stage does reach the [.catch] of
    [connectedCallback]: the stage wrapper reports it, and so does the
    entry point, with action [connectedCallback]. *)
Lemma connected_failure_reaches_catch :
  exists w', mount 14 3 0 late_failure = Some w' /\
    actions_on 0 w' = ["connecting"; "props.set"; "elements.set"; "rendered";
                       "connected"; "error"; "error"] /\
    error_actions 0 w' = ["callWithEvent"; "connectedCallback"] /\
    unhandled w' = [].
Proof. eexists. split; [vm_compute; reflexivity|]. repeat split. Qed.

(** C2.  With a props hook that throws, attaching publishes connecting and
    then a single [error] event whose action is [callWithEvent]; no
    [error] event with action [connectedCallback] is published and the
    rejection is left unhandled. *)
Theorem C2_props_failure_reports_callWithEvent :
  exists w', mount 12 2 0 (one_instance (Some "boom") None) = Some w' /\
    actions_on 0 w' = ["connecting"; "error"] /\
    error_actions 0 w' = ["callWithEvent"] /\
    unhandled w' = ["boom"].
Proof. eexists. split; [vm_compute; reflexivity|]. repeat split. Qed.

(** Publishing [connected] to the built-in subscriber followed by
    recorders, on an instance whose declared identity is its own. *)
Lemma send_connected_probes fuel el i d names data source w :
  elements w !! el = Some i -> attributes i !! "guid" = Some (guid i) ->
  datas w !! _data i = Some d -> subscriptions d = probe_subscriptions el names ->
  length names + 1 < fuel ->
  _sendSubscriptionEvent fuel el "connected" data source w
  = Normal (mkWorld (elements w) (document w) (datas w) (defaults w)
              (published w ++ [mkPublished el "connected" data source])
              (observed w ++ ((fun n => observe n data i) <$> names))
              (console w ++
                 debug_entries (read_option d "debug" (defaults w))
                               (LogEvent (guid i) (clonedGuid i) "connected" data))
              (microtasks w ++ [TSettled (KCheckClone el) (inl VUndefined)])
              (timers w) (unhandled w)).
Proof.
  intros Hel Hg Hd Hsubs Hfuel. destruct fuel as [|fuel]; [lia|].
  unfold _sendSubscriptionEvent. rewrite Hel, Hd. cbn [dispatch].
  change (datas (publish_record el i d "connected" data source w)) with (datas w).
  rewrite Hd. cbn [mbind option_bind]. unfold _getSubscriptions.
  rewrite Hsubs, probe_connected. cbn [default from_option id lookup list_lookup invoke].
  rewrite (checkClone_own_identity el i) by assumption.
  erewrite (dispatch_recorders el i (_data i) d "connected" data names [CbConnected el]);
    [reflexivity | exact Hel | exact Hd | by rewrite Hsubs, probe_connected | lia].
Qed.

(** C10.  On a mount whose stages succeed, [initConnected] has set the
    attribute [loaded] to "loaded" and the field [loaded] to [true] before
    [connected] is published: every subscriber of [connected] that looks
    at the instance sees both. *)
Theorem C10_connected_subscriber_sees_loaded w el i d names n fuel :
  elements w !! el = Some i -> datas w !! _data i = Some d ->
  subscriptions d = probe_subscriptions el names ->
  attributes i !! "guid" = None -> shadowRoot i = false ->
  hooks_succeed i -> microtasks w = [] ->
  length names + 2 <= fuel -> 12 <= n ->
  exists w' i', mount n fuel el w = Some w' /\
    observed w' = observed w ++
      ((fun name => mkObservation name (VElement el) true (Some "loaded")) <$> names) /\
    elements w' !! el = Some i' /\ loaded i' = true /\
    attributes i' !! "loaded" = Some "loaded".
Proof.
  intros Hel Hd Hsubs Hguid Hshadow [Hp Hr] Hq Hfuel Hn.
  destruct fuel as [|[|fuel]]; [lia | lia |].
  do 12 (destruct n as [|n]; [lia|]).
  flatten_world w i d Hel.
  unfold mount, connectedCallback.
  eval_send. simp_code.
  do 8 run_task.
  erewrite drain_cons by reflexivity. unfold exec_task. simp_code.
  erewrite (send_connected_probes _ el _ _ names);
    [ | cbn [elements]; rewrite lookup_insert_eq; reflexivity
      | cbn; rewrite lookup_insert_ne by discriminate; rewrite lookup_insert_eq; reflexivity
      | cbn; exact Hd | reflexivity | cbn in Hfuel |- *; lia ].
  simp_code.
  do 3 run_task.
  rewrite drain_nil by reflexivity.
  eexists. eexists. split; [reflexivity|]. cbn.
  rewrite lookup_insert_eq. unfold observe. cbn. rewrite lookup_insert_eq.
  repeat split; try reflexivity. cbn. by rewrite lookup_insert_eq.
Qed.

Lemma C10_connected_subscriber_sees_loaded_witness :
  exists w' i', mount 12 4 0 probed_instance = Some w' /\
    observed w' = [mkObservation "early" (VElement 0) true (Some "loaded");
                   mkObservation "late" (VElement 0) true (Some "loaded")] /\
    elements w' !! 0 = Some i' /\ loaded i' = true /\
    attributes i' !! "loaded" = Some "loaded".
Proof.
  apply (C10_connected_subscriber_sees_loaded probed_instance 0
           (mkInstance "121256569090" None false 0 0 ∅ [] false None None None None)
           (mkData ∅ 0 (probe_subscriptions 0 ["early"; "late"])) ["early"; "late"] 12 4);
    try (vm_compute; reflexivity); try (cbn; lia).
  split; reflexivity.
Defined.

(** ** Clone detection and hand-off *)

Lemma querySelector_Some cls g w found :
  querySelector cls g w = Some found ->
  exists fi, elements w !! found = Some fi /\ attributes fi !! "guid" = Some g.
Proof.
  unfold querySelector. intros H. apply find_some in H as [_ H].
  unfold matches_selector in H. destruct (elements w !! found) as [fi|]; [|discriminate].
  exists fi. split; [reflexivity|].
  apply andb_true_iff in H as [_ H].
  destruct (attributes fi !! "guid") as [g'|]; [|discriminate].
  apply String.eqb_eq in H. by subst.
Qed.

Lemma querySelector_self cls g w el i :
  el ∈ document w -> elements w !! el = Some i ->
  has_class cls (classList i) = true -> attributes i !! "guid" = Some g ->
  is_Some (querySelector cls g w).
Proof.
  intros Hin Hel Hcls Hg. unfold querySelector.
  destruct (List.find _ _) eqn:E; [by eexists|].
  apply list_elem_of_In in Hin. apply (find_none _ _ E el) in Hin.
  unfold matches_selector in Hin. rewrite Hel, Hcls, Hg, String.eqb_refl in Hin.
  discriminate.
Qed.

Lemma update_element_lookup el f w i :
  elements w !! el = Some i -> elements (update_element el f w) !! el = Some (f i).
Proof. intros H. by rewrite elements_update_element, lookup_alter_eq, H. Qed.

Lemma update_element_lookup_ne el e f w :
  e <> el -> elements (update_element el f w) !! e = elements w !! e.
Proof. intros H. by rewrite elements_update_element, lookup_alter_ne. Qed.

Lemma update_element_data el e f w :
  (forall i, _data (f i) = _data i) ->
  getData e (update_element el f w) = getData e w.
Proof.
  intros Hf. unfold getData. destruct (decide (e = el)) as [->|Hne].
  - rewrite elements_update_element, lookup_alter_eq.
    destruct (elements w !! el); cbn; [by rewrite Hf | reflexivity].
  - by rewrite update_element_lookup_ne.
Qed.

Lemma microtasks_update_element el f w :
  microtasks (update_element el f w) = microtasks w.
Proof. by rewrite update_element_unfold. Qed.

Lemma published_update_element el f w :
  published (update_element el f w) = published w.
Proof. by rewrite update_element_unfold. Qed.

Lemma checkClone_found w el i g found fi :
  elements w !! el = Some i -> attributes i !! "guid" = Some g ->
  String.eqb g "" = false -> String.eqb (guid i) g = false ->
  querySelector rootClass g w = Some found -> elements w !! found = Some fi ->
  let w1 := checkClone el w in
  microtasks w1 = microtasks w ++ [clone_hook_task el found] /\
  getAttribute el "cloned-guid" w1 = Some g /\
  getAttribute el "guid" w1 = Some (guid i) /\
  (clonedGuid <$> elements w1 !! el) = Some (Some g) /\
  getData el w1 = Some (_data fi) /\
  getData found w1 = Some (_data fi) /\
  datas w1 = datas w /\ published w1 = published w.
Proof.
  intros Hel Hg Hne Hdiff Hq Hfound w1. subst w1.
  unfold checkClone. rewrite Hel, Hg, Hne, Hq, Hdiff. cbn [negb].
  rewrite !setAttribute_other by discriminate.
  set (f1 := fun i0 => set_attributes (<["cloned-guid" := g]> (attributes i0)) i0).
  set (f3 := fun i0 => set_attributes (<["guid" := guid i]> (attributes i0)) i0).
  set (w3 := update_element el f3
               (update_element el (set_clonedGuid (Some g)) (update_element el f1 w))).
  assert (H3 : elements w3 !! el = Some (f3 (set_clonedGuid (Some g) (f1 i))))
    by (by do 3 apply update_element_lookup).
  assert (Hf3 : getData found w3 = Some (_data fi)).
  { unfold w3. rewrite !update_element_data by done. unfold getData. by rewrite Hfound. }
  unfold callWithEvent, run_hook. rewrite H3. unfold run_clonedCallback. rewrite Hf3.
  unfold setData.
  set (w4 := update_element el (set__data (_data fi)) w3).
  assert (H4 : elements w4 !! el
               = Some (set__data (_data fi) (f3 (set_clonedGuid (Some g) (f1 i)))))
    by (by apply update_element_lookup).
  rewrite !getAttribute_other by discriminate.
  unfold enqueue_microtask, set_microtasks, getData.
  cbn [microtasks elements datas published].
  rewrite H4. cbn [mbind option_bind fmap option_fmap option_map].
  split; [unfold w4, w3; by rewrite !microtasks_update_element|].
  split; [unfold f3, f1; cbn; by rewrite lookup_insert_ne, lookup_insert_eq by discriminate|].
  split; [unfold f3; cbn; by rewrite lookup_insert_eq|].
  split; [reflexivity|]. split; [reflexivity|].
  split; [|split].
  - destruct (decide (found = el)) as [->|Hn].
    + by rewrite H4.
    + unfold w4. rewrite update_element_lookup_ne by done. exact Hf3.
  - unfold w4, w3. by rewrite !datas_update_element.
  - unfold w4, w3. by rewrite !published_update_element.
Qed.

Lemma clone_hook_task_publishes w el found i fi d fuel :
  elements w !! el = Some i -> elements w !! found = Some fi ->
  datas w !! _data i = Some d -> subscriptions d !! "cloned" = None -> 1 <= fuel ->
  exists w2, exec_task fuel (clone_hook_task el found) w = Some w2 /\
    published w2 = published w ++ [cloned_event el found].
Proof.
  intros Hel Hfound Hd Hsubs Hfuel. destruct fuel as [|fuel]; [lia|].
  unfold clone_hook_task, exec_task, outgoing, tag_source.
  set (w1 := update_element found (set__source (Some (VElement found))) w).
  assert (H1 : exists i1, elements w1 !! el = Some i1 /\ _data i1 = _data i
                          /\ guid i1 = guid i /\ clonedGuid i1 = clonedGuid i).
  { destruct (decide (el = found)) as [<-|Hn].
    - exists (set__source (Some (VElement el)) i). split; [|done].
      by apply update_element_lookup.
    - exists i. split; [|done]. unfold w1. by rewrite update_element_lookup_ne. }
  destruct H1 as (i1 & H1 & Hdata & Hguid & Hcg).
  unfold _sendSubscriptionEvent. rewrite H1, Hdata.
  unfold w1 at 1. rewrite datas_update_element, Hd.
  cbn [dispatch]. unfold publish_record, set_published, set_console. cbn [datas].
  unfold w1 at 1. rewrite datas_update_element, Hd. cbn [mbind option_bind].
  unfold _getSubscriptions. unfold EVENT_CLONED. rewrite Hsubs. cbn.
  eexists. split; [reflexivity|]. cbn. unfold w1.
  by rewrite published_update_element.
Qed.

(** C3.  With a declared identity that is present, is read in the
    selector as it stands ([selector_safe]) and differs from the
    instance's own, [checkClone] runs the clone procedure (marker
    attribute, declared attribute overwritten, clone hook on the element
    found, [cloned] published) exactly when the selector query finds an
    element; with no match nothing is written, no hook runs, nothing is
    published.  The query looks at every element of the document with
    the root class and that identity, the instance itself included; the
    elements of the document are component instances. *)
Theorem C3_clone_procedure_iff_query_finds w el i g :
  elements w !! el = Some i -> attributes i !! "guid" = Some g ->
  String.eqb g "" = false -> selector_safe g = true ->
  String.eqb (guid i) g = false ->
  let w1 := checkClone el w in
  ((exists found, microtasks w1 = microtasks w ++ [clone_hook_task el found])
     <-> is_Some (querySelector rootClass g w)) /\
  (forall found, querySelector rootClass g w = Some found ->
     microtasks w1 = microtasks w ++ [clone_hook_task el found] /\
     getAttribute el "cloned-guid" w1 = Some g /\
     getAttribute el "guid" w1 = Some (guid i) /\
     (clonedGuid <$> elements w1 !! el) = Some (Some g) /\
     getData el w1 = getData found w /\
     forall d fuel,
       (getData found w ≫= (fun l => datas w !! l)) = Some d ->
       subscriptions d !! "cloned" = None -> 1 <= fuel ->
       exists w2, exec_task fuel (clone_hook_task el found) w1 = Some w2 /\
         published w2 = published w ++ [cloned_event el found]) /\
  (querySelector rootClass g w = None ->
     w1 = enqueue_microtask (TSettled (KCheckClone el) (inl VUndefined)) w) /\
  (el ∈ document w -> has_class rootClass (classList i) = true ->
     is_Some (querySelector rootClass g w)).
Proof.
  intros Hel Hg Hne _ Hdiff w1.
  assert (Hnone : querySelector rootClass g w = None ->
            w1 = enqueue_microtask (TSettled (KCheckClone el) (inl VUndefined)) w).
  { intros Hq. unfold w1, checkClone. by rewrite Hel, Hg, Hne, Hq. }
  assert (Hsome : forall found, querySelector rootClass g w = Some found ->
            exists fi, elements w !! found = Some fi /\
              microtasks w1 = microtasks w ++ [clone_hook_task el found] /\
              getAttribute el "cloned-guid" w1 = Some g /\
              getAttribute el "guid" w1 = Some (guid i) /\
              (clonedGuid <$> elements w1 !! el) = Some (Some g) /\
              getData el w1 = Some (_data fi) /\
              getData found w1 = Some (_data fi) /\
              datas w1 = datas w /\ published w1 = published w).
  { intros found Hq. destruct (querySelector_Some _ _ _ _ Hq) as (fi & Hfi & _).
    exists fi. split; [exact Hfi|].
    by apply (checkClone_found w el i g found fi). }
  split; [|split; [|split]].
  - split.
    + intros [found Hm]. destruct (querySelector rootClass g w) eqn:Hq; [by eexists|].
      rewrite (Hnone eq_refl) in Hm. cbn in Hm.
      apply app_inj_tail in Hm as [_ Hm]. discriminate.
    + intros [found Hq]. exists found.
      by destruct (Hsome found Hq) as (fi & _ & Hm & _).
  - intros found Hq.
    destruct (Hsome found Hq) as (fi & Hfi & Hm & Hcg & Hgu & Hfield & Hdel & Hdfound & Hds & Hpub).
    split; [exact Hm|]. split; [exact Hcg|]. split; [exact Hgu|]. split; [exact Hfield|].
    split; [unfold getData at 2; by rewrite Hfi|].
    intros d fuel Hd Hsubs Hfuel. unfold getData in Hd. rewrite Hfi in Hd. cbn in Hd.
    unfold getData in Hdel, Hdfound.
    destruct (elements w1 !! el) as [i1|] eqn:E1; [|discriminate].
    destruct (elements w1 !! found) as [f1|] eqn:E2; [|discriminate].
    cbn in Hdel, Hdfound. injection Hdel as Hdel.
    rewrite <- Hpub.
    apply (clone_hook_task_publishes w1 el found i1 f1 d fuel); try assumption.
    by rewrite Hdel, Hds.
  - exact Hnone.
  - intros Hin Hcls. by apply (querySelector_self rootClass g w el i).
Qed.

Lemma C3_clone_procedure_iff_query_finds_witness :
  is_Some (querySelector rootClass "X" stale_identity_classed) /\
  exists found,
    microtasks (checkClone 0 stale_identity_classed) = [clone_hook_task 0 found].
Proof.
  destruct (C3_clone_procedure_iff_query_finds stale_identity_classed 0
              (mkInstance "121256569090" None false 0 0 {["guid" := "X"]} [rootClass]
                          false None None None None) "X")
    as (Hiff & _ & _ & Hself);
    [vm_compute; reflexivity | vm_compute; reflexivity | vm_compute; reflexivity
    | vm_compute; reflexivity | vm_compute; reflexivity |].
  assert (Hq : is_Some (querySelector rootClass "X" stale_identity_classed)).
  { apply Hself; [|reflexivity]. vm_compute. left. }
  split; [exact Hq|]. apply Hiff in Hq as [found Hm]. by exists found.
Defined.

(** A single instance whose node carries a declared identity: no other
    element exists, and the clone procedure still runs, on the instance
    itself. *)
Lemma C3_counterexample :
  exists w', mount 14 3 0 stale_identity = Some w' /\
    size (elements w') = 1 /\
    guid <$> elements w' !! 0 = Some "121256569090" /\
    getAttribute 0 "cloned-guid" w' = Some "X" /\
    getAttribute 0 "guid" w' = Some "121256569090" /\
    last (published w') = Some (cloned_event 0 0).
Proof.
  eexists. split; [vm_compute; reflexivity|].
  repeat split.
Qed.

Lemma getData_setData_eq el loc w :
  is_Some (elements w !! el) -> getData el (setData el loc w) = Some loc.
Proof.
  intros [i Hi]. unfold getData, setData.
  by rewrite elements_update_element, lookup_alter_eq, Hi.
Qed.

Lemma getData_setData_ne el other loc w :
  other <> el -> getData other (setData el loc w) = getData other w.
Proof.
  intros Hne. unfold getData, setData.
  by rewrite elements_update_element, lookup_alter_ne.
Qed.

Lemma getData_update_data el loc f w :
  getData el (update_data loc f w) = getData el w.
Proof. unfold getData. by rewrite elements_update_data. Qed.

Lemma getData_setOption el other key v w :
  getData other (setOption el key v w) = getData other w.
Proof.
  unfold setOption, write_option. destruct (getData el w); [|reflexivity].
  apply getData_update_data.
Qed.

Lemma read_property_assigned d key v dfs :
  reaches_setter d key dfs = false ->
  read_property (assign_option key v dfs d) key dfs = RValue v.
Proof.
  intros H. unfold assign_option. rewrite H. unfold read_property. cbn.
  by rewrite lookup_insert_eq.
Qed.



Lemma getProperty_write_option el loc d key v k w :
  getData el w = Some loc -> datas w !! loc = Some d ->
  getProperty el k (write_option loc key v w)
  = Some (read_property (assign_option key v (defaults w) d) k (defaults w)).
Proof.
  intros Hloc Hd. unfold getProperty, write_option.
  rewrite getData_update_data, Hloc. cbn.
  by rewrite datas_update_data, lookup_alter_eq, Hd, defaults_update_data.
Qed.

Lemma getProperty_same_record el1 el2 k w :
  getData el1 w = getData el2 w -> getProperty el1 k w = getProperty el2 k w.
Proof. intros H. unfold getProperty. by rewrite H. Qed.

(** C4.  The default clone hook makes the clone hold the very record of
    the original: the two read the same data, and whatever is written to
    the record through the original afterwards (an option set, a
    subscription added) is read through the clone. *)
Theorem C4_clone_shares_data_record w el from loc d :
  is_Some (elements w !! el) -> getData from w = Some loc -> datas w !! loc = Some d ->
  let w' := setData el loc w in
  run_clonedCallback el (VElement from) w = HSettled (inl (VElement from)) w' /\
  getData el w' = Some loc /\ getData from w' = Some loc /\
  (getData el w' ≫= (fun l => datas w' !! l)) = Some d /\
  (forall f, let w'' := update_data loc f w' in
     (getData el w'' ≫= (fun l => datas w'' !! l)) = Some (f d) /\
     (getData from w'' ≫= (fun l => datas w'' !! l)) = Some (f d)) /\
  (forall key v,
     reaches_setter d key (defaults w) = false ->
     getProperty el key (setOption from key v w') = Some (RValue v)) /\
  (forall key v k,
     getProperty el k (setOption from key v w')
     = getProperty from k (setOption from key v w')) /\
  (forall action cb, let w'' := subscribe from action cb w' in
     exists d'', (getData el w'' ≫= (fun l => datas w'' !! l)) = Some d'' /\
       _getSubscriptions d'' action = _getSubscriptions d action ++ [cb]).
Proof.
  intros Hel Hfrom Hd w'. subst w'.
  assert (Hel' : getData el (setData el loc w) = Some loc)
    by (by apply getData_setData_eq).
  assert (Hfrom' : getData from (setData el loc w) = Some loc).
  { destruct (decide (from = el)) as [->|Hne]; [exact Hel'|].
    by rewrite getData_setData_ne. }
  assert (Hdatas : datas (setData el loc w) = datas w)
    by (unfold setData; apply datas_update_element).
  assert (Hdefs : defaults (setData el loc w) = defaults w)
    by (unfold setData; apply defaults_update_element).
  split; [unfold run_clonedCallback; by rewrite Hfrom|].
  split; [exact Hel'|]. split; [exact Hfrom'|].
  split; [rewrite Hel'; cbn; by rewrite Hdatas|].
  split; [|split; [|split]].
  - intros f w''. subst w''.
    rewrite !getData_update_data, Hel', Hfrom'. cbn.
    by rewrite datas_update_data, lookup_alter_eq, Hdatas, Hd.
  - intros key v Hset. unfold setOption. rewrite Hfrom'.
    rewrite (getProperty_write_option el loc d) by (by rewrite ?Hdatas).
    by rewrite Hdefs, read_property_assigned.
  - intros key v k. apply getProperty_same_record.
    by rewrite !getData_setOption, Hel', Hfrom'.
  - intros action cb w''. subst w''. unfold subscribe. rewrite Hfrom'.
    rewrite getData_update_data, Hel'. cbn.
    rewrite datas_update_data, lookup_alter_eq, Hdatas, Hd. cbn.
    eexists. split; [reflexivity|].
    unfold push_subscription, _getSubscriptions. cbn. by rewrite lookup_insert_eq.
Qed.

Lemma C4_clone_shares_data_record_witness :
  getData 1 (setData 1 0 two_instances) = getData 0 (setData 1 0 two_instances) /\
  getProperty 1 "k" (setOption 0 "k" (OStr "v") (setData 1 0 two_instances))
  = Some (RValue (OStr "v")) /\
  exists d'',
    (getData 1 (subscribe 0 "changed" (recorder 0 "r") (setData 1 0 two_instances))
       ≫= (fun l => datas (subscribe 0 "changed" (recorder 0 "r") (setData 1 0 two_instances))
                      !! l)) = Some d'' /\
    _getSubscriptions d'' "changed" = [recorder 0 "r"].
Proof.
  destruct (C4_clone_shares_data_record two_instances 1 0 0
              (mkData ∅ 0 (builtin_subscriptions 0)))
    as (_ & H1 & H0 & _ & _ & Hset & _ & Hsub);
    [by eexists | vm_compute; reflexivity | vm_compute; reflexivity |].
  split; [by rewrite H1, H0|]. split; [by apply Hset|].
  apply (Hsub "changed" (recorder 0 "r")).
Defined.

(** The mounted clone reads what is written to the original afterwards. *)
Lemma C4_counterexample :
  exists w, clone_scenario = Some w /\
    getData 1 w = getData 0 w /\
    getProperty 1 "k" w = Some RUndefined /\
    getProperty 1 "k" (setOption 0 "k" (OStr "v") w) = Some (RValue (OStr "v")).
Proof. eexists. split; [vm_compute; reflexivity|]. repeat split. Qed.

(** ** Options store *)




(** ** Attribute changes *)

Lemma add_observations_nil w : add_observations [] w = w.
Proof. destruct w. unfold add_observations, set_observed. cbn. by rewrite app_nil_r. Qed.

Lemma add_observations_app o1 o2 w :
  add_observations o2 (add_observations o1 w) = add_observations (o1 ++ o2) w.
Proof. unfold add_observations, set_observed. cbn. by rewrite app_assoc. Qed.

Lemma run_actions_passive name data body :
  forallb passive_action body = true ->
  forall w, recorded_only w (run_actions name data body w).
Proof.
  induction body as [|a body IH]; intros Hp w; cbn [run_actions].
  - exists []. left. by rewrite add_observations_nil.
  - cbn in Hp. apply andb_true_iff in Hp as [Ha Hp].
    destruct a as [o| |e]; [|discriminate|].
    + destruct (elements w !! o) as [io|] eqn:E.
      * destruct (IH Hp (set_observed (observed w ++ [observe name data io]) w))
          as (obs & [H | [e H]]); rewrite H;
          exists ([observe name data io] ++ obs);
          [left | right; exists e];
          by rewrite <- add_observations_app.
      * exists []. right. exists TypeError. by rewrite add_observations_nil.
    + exists []. right. exists e. by rewrite add_observations_nil.
Qed.

Lemma invoke_passive cb data w :
  passive cb = true -> recorded_only w (invoke cb data w).
Proof.
  destruct cb as [o|o|name body]; [discriminate | discriminate |].
  intros Hp. by apply run_actions_passive.
Qed.

Lemma dispatch_passive loc action data d l :
  _getSubscriptions d action = l -> Forall (fun cb => passive cb = true) l ->
  forall fuel k w,
  datas w !! loc = Some d -> length l - k < fuel ->
  recorded_only w (dispatch fuel loc action k data w).
Proof.
  intros Hl Hp. induction fuel as [|fuel IH]; intros k w Hd Hfuel; [lia|].
  cbn [dispatch]. rewrite Hd. cbn [mbind option_bind]. rewrite Hl.
  destruct (l !! k) as [cb|] eqn:E.
  - assert (Hcb : passive cb = true).
    { rewrite Forall_forall in Hp. apply Hp. by apply (list_elem_of_lookup_2 _ k). }
    destruct (invoke_passive cb data w Hcb) as (obs & [H | [e H]]); rewrite H.
    + apply lookup_lt_Some in E.
      destruct (IH (S k) (add_observations obs w)) as (obs' & [H' | [e' H']]);
        [exact Hd | lia | |]; rewrite H'; exists (obs ++ obs');
        [left | right; exists e']; by rewrite add_observations_app.
    + exists obs. right. by exists e.
  - exists []. left. by rewrite add_observations_nil.
Qed.

Section AttributeFlow.

Variables (el : nat) (i : Instance) (subs : gmap string (list Callback)) (fuel : nat).
Hypothesis Hflow : passive_flow subs fuel.

Lemma same_stores_flow w w' :
  same_stores w w' -> flow_instance el i subs w -> flow_instance el i subs w'.
Proof. intros (He & Hd & _) [Hi Hdata]. unfold flow_instance. by rewrite He, Hd. Qed.

Lemma send_passive action data source w d :
  elements w !! el = Some i -> datas w !! _data i = Some d -> subscriptions d = subs ->
  flow_event action ->
  recorded_only (publish_record el i d action data source w)
                (_sendSubscriptionEvent fuel el action data source w).
Proof.
  intros Hel Hd Hsubs Hev. unfold _sendSubscriptionEvent. rewrite Hel, Hd.
  destruct (Hflow action Hev) as [Hp Hlen].
  apply (dispatch_passive (_data i) action data d (default [] (subs !! action))).
  - unfold _getSubscriptions. by rewrite Hsubs.
  - exact Hp.
  - exact Hd.
  - lia.
Qed.

Lemma exec_stage_flow method event data w :
  flow_instance el i subs w ->
  event = EVENT_ATTRIBUTE_CHANGED \/ event = EVENT_CHANGED ->
  plain_object data = true ->
  exists w' r errs,
    exec_task fuel (TAfterHook el method event data (inl VUndefined) KDetached) w = Some w' /\
    same_stores w w' /\
    microtasks w' = microtasks w ++ [TSettled KDetached r] /\
    timers w' = timers w /\
    published w' = published w ++ mkPublished el event data (Some data) :: errs /\
    Forall (fun p => pub_action p = EVENT_ERROR) errs.
Proof.
  intros (Hel & d & Hd & Hsubs) Hev Hplain.
  assert (Hev' : flow_event event) by (unfold flow_event; tauto).
  assert (Hout : outgoing VUndefined data = data) by (by destruct data).
  assert (Htag : tag_source data data w = w) by (by destruct data).
  unfold exec_task. rewrite Hout, Htag.
  destruct (send_passive event data (Some data) w d Hel Hd Hsubs Hev')
    as (obs & [H | [e H]]); rewrite H.
  - eexists _, (inl data), []. split; [reflexivity|]. by repeat split.
  - unfold callWithEvent_catch, warning.
    set (w1 := set_console _ _).
    assert (Hel1 : elements w1 !! el = Some i) by exact Hel.
    assert (Hd1 : datas w1 !! _data i = Some d) by exact Hd.
    destruct (send_passive EVENT_ERROR
                (VError "callWithEvent" e (VCallInfo method event data)) None w1 d
                Hel1 Hd1 Hsubs) as (obs' & [H' | [e' H']]);
      [unfold flow_event; tauto | |]; rewrite H'.
    + eexists _, (inr e), [_]. split; [reflexivity|].
      split; [by repeat split|]. split; [reflexivity|]. split; [reflexivity|].
      split; [cbn; by rewrite <- app_assoc | by repeat constructor].
    + eexists _, (inr e'), [_]. split; [reflexivity|].
      split; [by repeat split|]. split; [reflexivity|]. split; [reflexivity|].
      split; [cbn; by rewrite <- app_assoc | by repeat constructor].
Qed.

Lemma same_stores_refl w : same_stores w w.
Proof. by repeat split. Qed.

Lemma same_stores_trans w1 w2 w3 :
  same_stores w1 w2 -> same_stores w2 w3 -> same_stores w1 w3.
Proof.
  intros (He & Hd & Hf) (He' & Hd' & Hf'). unfold same_stores.
  by rewrite He', Hd', Hf'.
Qed.

Lemma changed_payloads_app pubs pubs' :
  changed_payloads el (pubs ++ pubs') = changed_payloads el pubs ++ changed_payloads el pubs'.
Proof. apply omap_app. Qed.

Lemma changed_payloads_errors errs :
  Forall (fun p => pub_action p = EVENT_ERROR) errs -> changed_payloads el errs = [].
Proof.
  induction 1 as [|p errs Hp _ IH]; [reflexivity|].
  cbn. unfold changed_payload. rewrite Hp, andb_false_r. exact IH.
Qed.

(** One microtask of the flow: the stores stay, what it queues is lighter
    and sets no further timer, the timer it sets and the [changed] event
    it publishes are the ones it stands for. *)
Lemma exec_flow_task t w :
  flow_instance el i subs w -> flow_task el t = true ->
  exists w' new,
    exec_task fuel t w = Some w' /\
    same_stores w w' /\
    microtasks w' = microtasks w ++ new /\
    Forall (fun t' => flow_task el t' = true) new /\
    queue_weight new < task_weight t /\
    omap timer_from new = [] /\ omap changed_from new = [] /\
    timers w' = timers w ++ from_option (fun x => [x]) [] (timer_from t) /\
    changed_payloads el (published w')
    = changed_payloads el (published w) ++ from_option (fun x => [x]) [] (changed_from t).
Proof.
  intros Hinst Ht. destruct t as [e m event data [v|err] k|e a event k|k r| | | |];
    try discriminate.
  - destruct v; try discriminate. destruct k; try discriminate.
    cbn in Ht. apply andb_true_iff in Ht as [Ht Hev].
    apply andb_true_iff in Ht as [He Hplain]. apply Nat.eqb_eq in He. subst e.
    assert (Hev' : event = EVENT_ATTRIBUTE_CHANGED \/ event = EVENT_CHANGED).
    { apply orb_true_iff in Hev as [H|H]; apply String.eqb_eq in H; tauto. }
    destruct (exec_stage_flow m event data w Hinst Hev' Hplain)
      as (w' & r & errs & Hrun & Hsame & Hm & Htm & Hpub & Herrs).
    exists w', [TSettled KDetached r]. split; [exact Hrun|]. split; [exact Hsame|].
    split; [exact Hm|]. split; [by repeat constructor|].
    split; [cbn; lia|]. split; [reflexivity|]. split; [reflexivity|].
    split; [cbn; by rewrite Htm, app_nil_r|].
    rewrite Hpub, changed_payloads_app. f_equal.
    change (mkPublished el event data (Some data) :: errs)
      with ([mkPublished el event data (Some data)] ++ errs).
    rewrite changed_payloads_app, (changed_payloads_errors errs Herrs), app_nil_r.
    cbn. unfold changed_payload. cbn.
    rewrite Nat.eqb_refl. cbn. by destruct (String.eqb event EVENT_CHANGED).
  - destruct k; try discriminate.
    cbn in Ht. apply andb_true_iff in Ht as [Ht Hev].
    apply andb_true_iff in Ht as [He Hplain]. apply Nat.eqb_eq in He. subst e.
    apply String.eqb_eq in Hev. subst event.
    eexists _, [_]. split; [reflexivity|]. split; [by repeat split|].
    split; [reflexivity|]. split.
    { repeat constructor. cbn. by rewrite Nat.eqb_refl, Hplain. }
    split; [cbn; lia|]. split; [reflexivity|]. split; [reflexivity|].
    split; [reflexivity|]. cbn. by rewrite app_nil_r.
  - destruct k; try discriminate.
    exists (settled KDetached r w), []. split; [reflexivity|].
    split; [by destruct r; repeat split|].
    split; [destruct r; cbn; by rewrite app_nil_r|]. split; [constructor|].
    split; [cbn; lia|]. split; [reflexivity|]. split; [reflexivity|].
    split; destruct r; cbn; by rewrite app_nil_r.
Qed.

Lemma omap_cons_option {A B} (f : A -> option B) x l :
  omap f (x :: l) = from_option (fun y => [y]) [] (f x) ++ omap f l.
Proof. cbn. by destruct (f x). Qed.

Lemma queue_weight_cons t ts : queue_weight (t :: ts) = task_weight t + queue_weight ts.
Proof. reflexivity. Qed.

Lemma queue_weight_app ts ts' :
  queue_weight (ts ++ ts') = queue_weight ts + queue_weight ts'.
Proof. apply sum_list_with_app. Qed.

Lemma task_weight_pos t : 1 <= task_weight t.
Proof. destruct t; cbn; lia. Qed.

(** The microtask queue of the flow runs dry within its weight; the
    timers set and the [changed] events published are those the queued
    tasks stand for, in queue order. *)
Lemma drain_flow n :
  forall w,
  flow_instance el i subs w ->
  Forall (fun t => flow_task el t = true) (microtasks w) ->
  queue_weight (microtasks w) <= n ->
  exists w',
    drain n fuel w = Some w' /\
    same_stores w w' /\
    microtasks w' = [] /\
    timers w' = timers w ++ omap timer_from (microtasks w) /\
    changed_payloads el (published w')
    = changed_payloads el (published w) ++ omap changed_from (microtasks w).
Proof.
  induction n as [|n IH]; intros w Hinst Hq Hn.
  - destruct (microtasks w) as [|t rest] eqn:E.
    + exists w. rewrite drain_nil by exact E. split; [reflexivity|].
      split; [apply same_stores_refl|]. split; [exact E|]. cbn. by rewrite !app_nil_r.
    + rewrite queue_weight_cons in Hn. assert (H := task_weight_pos t). lia.
  - destruct (microtasks w) as [|t rest] eqn:E.
    + exists w. rewrite drain_nil by exact E. split; [reflexivity|].
      split; [apply same_stores_refl|]. split; [exact E|]. cbn. by rewrite !app_nil_r.
    + rewrite (drain_cons n fuel w t rest E).
      apply Forall_cons in Hq as [Ht Hrest]. rewrite queue_weight_cons in Hn.
      destruct (exec_flow_task t (set_microtasks rest w)) as
        (w1 & new & Hrun & Hsame & Hm & Hnew & Hw & Htn & Hcn & Htm & Hpub);
        [exact Hinst | exact Ht |].
      rewrite Hrun. cbn [mbind option_bind]. cbn [microtasks set_microtasks] in Hm.
      destruct (IH w1) as (w' & Hrun' & Hsame' & Hm' & Htm' & Hpub').
      * by apply (same_stores_flow (set_microtasks rest w)).
      * rewrite Hm. by apply Forall_app.
      * rewrite Hm, queue_weight_app. lia.
      * exists w'. split; [exact Hrun'|].
        split; [by apply (same_stores_trans _ w1)|]. split; [exact Hm'|].
        rewrite Htm', Hpub', Htm, Hpub, Hm, !omap_app, Htn, Hcn, !app_nil_r.
        cbn [timers published set_microtasks].
        rewrite !omap_cons_option. by rewrite !app_assoc.
Qed.

(** The entry point: nothing is published; either the hook has set the
    debug option and waits, or it has set its timer already. *)
Lemma attributeChangedCallback_flow name oldValue newValue w :
  flow_instance el i subs w ->
  let a := VAttribute name oldValue newValue in
  let w' := attributeChangedCallback el name oldValue newValue w in
  flow_instance el i subs w' /\ published w' = published w /\
  ((sets_debug (name, oldValue, newValue) = true /\
    w' = enqueue_microtask (TAfterSetOption el a EVENT_ATTRIBUTE_CHANGED KDetached)
           (setOption el "debug" (OBool true) w))
   \/
   (sets_debug (name, oldValue, newValue) = false /\
    w' = enqueue_microtask
           (TAfterHook el processAttributeChanged EVENT_ATTRIBUTE_CHANGED a
                       (inl VUndefined) KDetached)
           (setTimeout (TTimer el a) w))).
Proof.
  intros (Hel & d & Hd & Hsubs) a w'. subst a w'.
  unfold attributeChangedCallback, callWithEvent, run_hook. rewrite Hel.
  unfold run_processAttributeChanged, sets_debug. cbn [fst snd].
  destruct (String.eqb name "debug" && attr_truthy newValue) eqn:E.
  - split; [|split; [|left; by split]].
    + unfold flow_instance, setOption, write_option, getData. rewrite Hel.
      cbn [fmap option_fmap option_map enqueue_microtask set_microtasks elements datas].
      rewrite elements_update_data, datas_update_data, lookup_alter_eq, Hd.
      split; [exact Hel|]. eexists. split; [reflexivity|]. exact Hsubs.
    + unfold setOption, write_option, getData. rewrite Hel.
      cbn [fmap option_fmap option_map enqueue_microtask set_microtasks published].
      by rewrite update_data_unfold.
  - split; [|split; [|right; by split]].
    + split; [exact Hel|]. by exists d.
    + reflexivity.
Qed.

Lemma tick_flow n a rest w :
  flow_instance el i subs w -> microtasks w = [] -> timers w = TTimer el a :: rest ->
  plain_object a = true -> 2 <= n ->
  exists w',
    tick n fuel w = Some w' /\ same_stores w w' /\
    microtasks w' = [] /\ timers w' = rest /\
    changed_payloads el (published w')
    = changed_payloads el (published w) ++ [VChange a].
Proof.
  intros Hinst Hq Ht Hplain Hn. unfold tick. rewrite Ht. unfold exec_task.
  cbn [mbind option_bind].
  set (w0 := set_timers rest w).
  assert (Hinst0 : flow_instance el i subs w0) by exact Hinst.
  destruct Hinst as (Hel & _).
  unfold callWithEvent, run_hook. change (elements w0) with (elements w). rewrite Hel.
  destruct (drain_flow n
              (enqueue_microtask
                 (TAfterHook el processChanged EVENT_CHANGED (VChange a)
                             (inl VUndefined) KDetached) w0))
    as (w' & Hrun & Hsame & Hm & Htm & Hpub).
  - exact Hinst0.
  - cbn. rewrite Hq. repeat constructor. cbn. by rewrite Nat.eqb_refl.
  - cbn. rewrite Hq. cbn. lia.
  - exists w'. split; [exact Hrun|]. split; [exact Hsame|]. split; [exact Hm|].
    rewrite Htm, Hpub. cbn. rewrite Hq. cbn. by rewrite app_nil_r.
Qed.

Lemma two_ticks_flow x y w :
  flow_instance el i subs w -> microtasks w = [] ->
  timers w = [TTimer el x; TTimer el y] ->
  plain_object x = true -> plain_object y = true ->
  exists w',
    run_timers 2 2 fuel w = Some w' /\ same_stores w w' /\
    microtasks w' = [] /\ timers w' = [] /\
    changed_payloads el (published w')
    = changed_payloads el (published w) ++ [VChange x; VChange y].
Proof.
  intros Hinst Hq Ht Hx Hy. cbn [run_timers].
  destruct (tick_flow 2 x [TTimer el y] w Hinst Hq Ht Hx (le_n 2))
    as (w1 & Hrun1 & Hsame1 & Hq1 & Ht1 & Hpub1).
  rewrite Hrun1. cbn [mbind option_bind].
  destruct (tick_flow 2 y [] w1 (same_stores_flow w w1 Hsame1 Hinst) Hq1 Ht1 Hy (le_n 2))
    as (w2 & Hrun2 & Hsame2 & Hq2 & Ht2 & Hpub2).
  rewrite Hrun2. cbn [mbind option_bind].
  exists w2. split; [reflexivity|]. split; [by apply (same_stores_trans _ w1)|].
  split; [exact Hq2|]. split; [exact Ht2|].
  by rewrite Hpub2, Hpub1, <- app_assoc.
Qed.

Lemma queues_setOption key v w :
  microtasks (setOption el key v w) = microtasks w /\
  timers (setOption el key v w) = timers w.
Proof.
  unfold setOption, write_option. destruct (getData el w); [|done].
  by rewrite update_data_unfold.
Qed.

(** C8.  Two attribute mutations signalled in one call stack: nothing is
    published when the second call returns; once the microtasks have run
    no [changed] event is out yet and two timers are set, one per
    mutation; the two timer turns then publish one [changed] event each,
    two in all. *)
Theorem C8_two_mutations_two_deferred_changed n1 o1 v1 n2 o2 v2 w :
  flow_instance el i subs w -> microtasks w = [] -> timers w = [] ->
  let a1 := VAttribute n1 o1 v1 in
  let a2 := VAttribute n2 o2 v2 in
  let w2 := two_mutations el n1 o1 v1 n2 o2 v2 w in
  published w2 = published w /\
  exists w3,
    drain 6 fuel w2 = Some w3 /\
    microtasks w3 = [] /\
    changed_payloads el (published w3) = changed_payloads el (published w) /\
    timers w3 ≡ₚ [TTimer el a1; TTimer el a2] /\
    exists w4,
      run_timers 2 2 fuel w3 = Some w4 /\
      changed_payloads el (published w4)
        ≡ₚ changed_payloads el (published w) ++ [VChange a1; VChange a2] /\
      microtasks w4 = [] /\ timers w4 = [].
Proof.
  intros Hinst Hq Ht a1 a2 w2. subst w2. unfold two_mutations.
  destruct (attributeChangedCallback_flow n1 o1 v1 w Hinst) as (Hinst1 & Hpub1 & Hcase1).
  set (w1 := attributeChangedCallback el n1 o1 v1 w) in *.
  destruct (attributeChangedCallback_flow n2 o2 v2 w1 Hinst1) as (Hinst2 & Hpub2 & Hcase2).
  set (w2 := attributeChangedCallback el n2 o2 v2 w1) in *.
  split; [by rewrite Hpub2, Hpub1|].
  assert (Hqueues : exists x y,
            (x = a1 /\ y = a2 \/ x = a2 /\ y = a1) /\
            Forall (fun t => flow_task el t = true) (microtasks w2) /\
            queue_weight (microtasks w2) <= 6 /\
            omap changed_from (microtasks w2) = [] /\
            timers w2 ++ omap timer_from (microtasks w2) = [TTimer el x; TTimer el y]).
  { destruct Hcase1 as [[_ E1]|[_ E1]], Hcase2 as [[_ E2]|[_ E2]].
    all: rewrite E2; cbn [microtasks timers enqueue_microtask set_microtasks setTimeout
                          set_timers];
      rewrite ?(proj1 (queues_setOption _ _ _)), ?(proj2 (queues_setOption _ _ _));
      rewrite E1; cbn [microtasks timers enqueue_microtask set_microtasks setTimeout
                       set_timers];
      rewrite ?(proj1 (queues_setOption _ _ _)), ?(proj2 (queues_setOption _ _ _)), Hq, Ht.
    - exists a1, a2. split; [tauto|]. cbn [app].
      split; [repeat constructor; unfold flow_task; by rewrite Nat.eqb_refl|].
      split; [cbn; lia|]. split; reflexivity.
    - exists a2, a1. split; [tauto|]. cbn [app].
      split; [repeat constructor; unfold flow_task; by rewrite Nat.eqb_refl|].
      split; [cbn; lia|]. split; reflexivity.
    - exists a1, a2. split; [tauto|]. cbn [app].
      split; [repeat constructor; unfold flow_task; by rewrite Nat.eqb_refl|].
      split; [cbn; lia|]. split; reflexivity.
    - exists a1, a2. split; [tauto|]. cbn [app].
      split; [repeat constructor; unfold flow_task; by rewrite Nat.eqb_refl|].
      split; [cbn; lia|]. split; reflexivity. }
  destruct Hqueues as (x & y & Hxy & Hflow2 & Hweight & Hnochanged & Htimers).
  destruct (drain_flow 6 w2 Hinst2 Hflow2 Hweight)
    as (w3 & Hrun3 & Hsame3 & Hq3 & Ht3 & Hpub3).
  rewrite Htimers in Ht3. rewrite Hnochanged, app_nil_r, Hpub2, Hpub1 in Hpub3.
  assert (Hplain : plain_object x = true /\ plain_object y = true)
    by (by destruct Hxy as [[-> ->]|[-> ->]]).
  destruct (two_ticks_flow x y w3 (same_stores_flow w2 w3 Hsame3 Hinst2) Hq3 Ht3
              (proj1 Hplain) (proj2 Hplain))
    as (w4 & Hrun4 & _ & Hq4 & Ht4 & Hpub4).
  exists w3. split; [exact Hrun3|]. split; [exact Hq3|]. split; [exact Hpub3|].
  split.
  { rewrite Ht3. destruct Hxy as [[-> ->]|[-> ->]]; [reflexivity | apply perm_swap]. }
  exists w4. split; [exact Hrun4|]. split; [|by split].
  rewrite Hpub4, Hpub3. apply Permutation_app_head.
  destruct Hxy as [[-> ->]|[-> ->]]; [reflexivity | apply perm_swap].
Qed.

Lemma getOption_same_stores key w w' :
  same_stores w w' -> getOption el key w' = getOption el key w.
Proof.
  intros (He & Hd & Hf). unfold getOption, getData. by rewrite He, Hd, Hf.
Qed.

Lemma getOption_setOption_eq key v w :
  key <> "__proto__" ->
  flow_instance el i subs w -> getOption el key (setOption el key v w) = Some v.
Proof.
  intros Hkey (Hel & d & Hd & _). unfold getOption, setOption, getData.
  rewrite Hel. cbn [fmap option_fmap option_map].
  rewrite write_option_other by exact Hkey.
  rewrite elements_update_data, Hel. cbn [fmap option_fmap option_map mbind option_bind].
  rewrite datas_update_data, lookup_alter_eq, Hd. cbn.
  apply read_option_own. cbn. by rewrite lookup_insert_eq.
Qed.

(** One mutation with its microtasks and its timer turn: the queues are
    empty again, and the debug option is [true] if the mutation gave the
    [debug] attribute a truthy value and is what it was otherwise. *)
Lemma attribute_turn_flow c w :
  flow_instance el i subs w -> microtasks w = [] -> timers w = [] ->
  exists w',
    attribute_turn fuel el c w = Some w' /\
    flow_instance el i subs w' /\ microtasks w' = [] /\ timers w' = [] /\
    getOption el "debug" w' =
      if sets_debug c then Some (OBool true) else getOption el "debug" w.
Proof.
  intros Hinst Hq Ht. destruct c as [[name oldValue] newValue].
  unfold attribute_turn.
  destruct (attributeChangedCallback_flow name oldValue newValue w Hinst)
    as (Hinst1 & _ & Hcase).
  set (w1 := attributeChangedCallback el name oldValue newValue w) in *.
  assert (Hw1 : Forall (fun t => flow_task el t = true) (microtasks w1) /\
                queue_weight (microtasks w1) <= 4 /\
                timers w1 ++ omap timer_from (microtasks w1)
                = [TTimer el (VAttribute name oldValue newValue)] /\
                getOption el "debug" w1 =
                  if sets_debug (name, oldValue, newValue) then Some (OBool true)
                  else getOption el "debug" w).
  { destruct Hcase as [[Hs E]|[Hs E]]; rewrite E, Hs;
      cbn [microtasks timers enqueue_microtask set_microtasks setTimeout set_timers];
      rewrite ?(proj1 (queues_setOption _ _ _)), ?(proj2 (queues_setOption _ _ _)), Hq, Ht;
      cbn [app].
    - split; [repeat constructor; unfold flow_task; by rewrite Nat.eqb_refl|].
      split; [cbn; lia|]. split; [reflexivity|].
      rewrite <- (getOption_setOption_eq "debug" (OBool true) w ltac:(discriminate) Hinst).
      by apply getOption_same_stores.
    - split; [repeat constructor; unfold flow_task; by rewrite Nat.eqb_refl|].
      split; [cbn; lia|]. split; [reflexivity|].
      by apply getOption_same_stores. }
  destruct Hw1 as (Hflow1 & Hweight & Htimers & Hdebug).
  destruct (drain_flow 4 w1 Hinst1 Hflow1 Hweight)
    as (w2 & Hrun2 & Hsame2 & Hq2 & Ht2 & _).
  rewrite Hrun2. cbn [mbind option_bind]. rewrite Htimers in Ht2.
  destruct (tick_flow 4 (VAttribute name oldValue newValue) [] w2
              (same_stores_flow w1 w2 Hsame2 Hinst1) Hq2 Ht2 eq_refl ltac:(lia))
    as (w3 & Hrun3 & Hsame3 & Hq3 & Ht3 & _).
  exists w3. split; [exact Hrun3|].
  split; [apply (same_stores_flow w2 w3 Hsame3), (same_stores_flow w1 w2 Hsame2), Hinst1|].
  split; [exact Hq3|]. split; [exact Ht3|].
  by rewrite (getOption_same_stores "debug" w2 w3 Hsame3),
             (getOption_same_stores "debug" w1 w2 Hsame2).
Qed.

Lemma attribute_turns_flow cs :
  forall w,
  flow_instance el i subs w -> microtasks w = [] -> timers w = [] ->
  exists w',
    attribute_turns fuel el cs w = Some w' /\
    getOption el "debug" w' =
      if existsb sets_debug cs then Some (OBool true) else getOption el "debug" w.
Proof.
  induction cs as [|c cs IH]; intros w Hinst Hq Ht; cbn [attribute_turns existsb].
  - eauto.
  - destruct (attribute_turn_flow c w Hinst Hq Ht) as (w1 & -> & Hinst1 & Hq1 & Ht1 & Hd1).
    cbn [mbind option_bind]. destruct (IH w1 Hinst1 Hq1 Ht1) as (w' & Hrun & Hd').
    exists w'. split; [exact Hrun|]. rewrite Hd', Hd1.
    destruct (sets_debug c), (existsb sets_debug cs); reflexivity.
Qed.

(** C9.  Under any sequence of attribute mutations, a debug option that is
    [true] stays [true], whatever the mutations are (the removal of the
    [debug] attribute included); and a mutation that gives the [debug]
    attribute a truthy value makes it [true]. *)
Theorem C9_debug_option_never_reset cs w :
  flow_instance el i subs w -> microtasks w = [] -> timers w = [] ->
  exists w', attribute_turns fuel el cs w = Some w' /\
    (getOption el "debug" w = Some (OBool true) ->
     getOption el "debug" w' = Some (OBool true)) /\
    (existsb sets_debug cs = true -> getOption el "debug" w' = Some (OBool true)).
Proof.
  intros Hinst Hq Ht.
  destruct (attribute_turns_flow cs w Hinst Hq Ht) as (w' & Hrun & Hd).
  exists w'. split; [exact Hrun|]. rewrite Hd.
  split; [intros ->; by destruct (existsb sets_debug cs) | by intros ->].
Qed.

End AttributeFlow.

Lemma C8_two_mutations_two_deferred_changed_witness :
  let w := listening_instance in
  let a1 := VAttribute "debug" None (Some "1") in
  let a2 := VAttribute "title" (Some "a") (Some "b") in
  let w2 := two_mutations 0 "debug" None (Some "1") "title" (Some "a") (Some "b") w in
  published w2 = published w /\
  exists w3,
    drain 6 2 w2 = Some w3 /\
    microtasks w3 = [] /\
    changed_payloads 0 (published w3) = changed_payloads 0 (published w) /\
    timers w3 ≡ₚ [TTimer 0 a1; TTimer 0 a2] /\
    exists w4,
      run_timers 2 2 2 w3 = Some w4 /\
      changed_payloads 0 (published w4)
        ≡ₚ changed_payloads 0 (published w) ++ [VChange a1; VChange a2] /\
      microtasks w4 = [] /\ timers w4 = [].
Proof.
  apply (C8_two_mutations_two_deferred_changed 0
           (mkInstance "121256569090" None false 0 0 ∅ [] false None None None None)
           listening_subscriptions 2).
  - intros action [H|[H|H]]; subst action; vm_compute;
      (split; [repeat constructor | lia]).
  - split; [vm_compute; reflexivity|].
    exists (mkData ∅ 0 listening_subscriptions). split; vm_compute; reflexivity.
  - reflexivity.
  - reflexivity.
Defined.

Lemma C9_debug_option_never_reset_witness :
  exists w', attribute_turns 2 0
      [("debug", None, Some "1"); ("debug", Some "1", None); ("debug", None, Some "")]
      listening_instance = Some w' /\
    getOption 0 "debug" w' = Some (OBool true).
Proof.
  destruct (C9_debug_option_never_reset 0
      (mkInstance "121256569090" None false 0 0 ∅ [] false None None None None)
      listening_subscriptions 2) with
      (cs := [("debug", None, Some "1"); ("debug", Some "1", None); ("debug", None, Some "")])
      (w := listening_instance) as (w' & Hrun & _ & Hset).
  - intros action [H|[H|H]]; subst action; vm_compute;
      (split; [repeat constructor | lia]).
  - split; [vm_compute; reflexivity|].
    exists (mkData ∅ 0 listening_subscriptions). split; vm_compute; reflexivity.
  - reflexivity.
  - reflexivity.
  - exists w'. split; [exact Hrun | apply Hset; reflexivity].
Defined.

(** ** Identifiers *)

Lemma index_of_byte_bit1 b : Z.testbit (Uid.index_of_byte b) 1 = false.
Proof.
  unfold Uid.index_of_byte, Uid.MASK. rewrite Z.land_spec.
  replace (Z.testbit 61 1) with false by reflexivity. apply andb_false_r.
Qed.

Lemma index_of_byte_range b : (0 <= Uid.index_of_byte b <= 61)%Z.
Proof.
  assert (H0 : (0 <= Uid.index_of_byte b)%Z).
  { unfold Uid.index_of_byte, Uid.MASK. apply Z.land_nonneg. right. lia. }
  assert (Hbit := index_of_byte_bit1 b).
  assert (Hlt : (Uid.index_of_byte b < 64)%Z).
  { unfold Uid.index_of_byte, Uid.MASK in *.
    replace (Z.land b 61) with (Z.land (b mod 2 ^ 6) 61) in *
      by (rewrite <- Z.land_ones, <- Z.land_assoc by lia; reflexivity).
    assert (Hr : (0 <= b mod 2 ^ 6)%Z) by (apply Z.mod_pos_bound; lia).
    destruct (Z.eq_dec (Z.land (b mod 2 ^ 6) 61) 0%Z) as [E0|Hne]; [rewrite E0; lia|].
    apply (Z.log2_lt_pow2 _ 6); [lia|].
    assert (H := Z.log2_land (b mod 2 ^ 6) 61 Hr ltac:(lia)).
    change (Z.log2 61) with 5%Z in H. lia. }
  split; [exact H0|].
  destruct (Z.eq_dec (Uid.index_of_byte b) 62%Z) as [E|]; [rewrite E in Hbit; discriminate|].
  destruct (Z.eq_dec (Uid.index_of_byte b) 63%Z) as [E|]; [rewrite E in Hbit; discriminate|].
  lia.
Qed.

Lemma symbol_at_length i : (0 <= i <= 61)%Z -> String.length (Uid.symbol_at i) = 1.
Proof.
  intros Hi. unfold Uid.symbol_at.
  destruct (Uid.charset !! Z.to_nat i) eqn:E; [reflexivity|].
  apply lookup_ge_None in E. change (length Uid.charset) with 62 in E. lia.
Qed.

Lemma append_length (s t : string) :
  String.length (s ++ t)%string = String.length s + String.length t.
Proof.
  induction s as [|c s IHs]; [reflexivity|].
  change (S (String.length (s ++ t)%string) = S (String.length s + String.length t)).
  by rewrite IHs.
Qed.

Lemma fold_reduce_length bytes acc :
  String.length (fold_left Uid.reduce_step bytes acc) = String.length acc + length bytes.
Proof.
  revert acc. induction bytes as [|b bytes IH]; intros acc; cbn [fold_left length]; [lia|].
  rewrite IH. unfold Uid.reduce_step.
  rewrite append_length, symbol_at_length by apply index_of_byte_range. lia.
Qed.

(** Twelve bytes give twelve symbols, every index is inside the alphabet. *)
Lemma generateUid_length bytes :
  String.length (Uid.generateUid bytes) = length bytes.
Proof. unfold Uid.generateUid. by rewrite fold_reduce_length. Qed.

(** C6.  The alphabet has 62 symbols and the index [byte & 0x3D] never
    leaves it, but the mask has bit 1 clear: index 2 (the symbol "3") is
    reached by no byte, only 32 of the 62 indices are, and the bytes 0 and
    2 give the same symbol. *)
Theorem C6_generateUid_mask_reaches_32_symbols :
  length Uid.charset = 62 /\
  (forall b, (0 <= Uid.index_of_byte b <= 61)%Z) /\
  (forall b, Uid.index_of_byte b <> 2%Z) /\
  length Uid.attainable_indices = 32 /\
  Uid.generateUid [2; 2; 2; 2; 2; 2; 2; 2; 2; 2; 2; 2]%Z = "111111111111" /\
  Uid.generateUid [0; 0; 0; 0; 0; 0; 0; 0; 0; 0; 0; 0]%Z = "111111111111".
Proof.
  split; [reflexivity|]. split; [apply index_of_byte_range|].
  split; [|by vm_compute].
  intros b Hb. assert (H := index_of_byte_bit1 b). rewrite Hb in H. discriminate.
Qed.

(** ** Histories: what no step ever undoes *)

Lemma instance_evolves_refl i : instance_evolves i i.
Proof. by repeat split. Qed.

Lemma instance_evolves_trans i1 i2 i3 :
  instance_evolves i1 i2 -> instance_evolves i2 i3 -> instance_evolves i1 i3.
Proof.
  intros (Hg & Hd & Hp & Hr & Hl & Hs) (Hg' & Hd' & Hp' & Hr' & Hl' & Hs').
  unfold instance_evolves. rewrite Hg', Hd', Hp', Hr'.
  split; [done|]. split; [done|]. split; [done|]. split; [done|].
  split; tauto.
Qed.

Lemma data_evolves_refl d : data_evolves d d.
Proof. by repeat split. Qed.

Lemma data_evolves_trans d1 d2 d3 :
  data_evolves d1 d2 -> data_evolves d2 d3 -> data_evolves d1 d3.
Proof.
  intros (Hp & Ho & Hs) (Hp' & Ho' & Hs'). unfold data_evolves. rewrite Hp'.
  split; [done|]. split; [by trans (dom (options d2))|].
  intros action. by trans (_getSubscriptions d2 action).
Qed.

Lemma evolves_refl w : evolves w w.
Proof.
  unfold evolves. repeat split; try done.
  - intros el i H. exists i. split; [done | apply instance_evolves_refl].
  - intros loc d H. exists d. split; [done | apply data_evolves_refl].
Qed.

Lemma evolves_trans w1 w2 w3 : evolves w1 w2 -> evolves w2 w3 -> evolves w1 w3.
Proof.
  intros (He & Hd & Hf & Hp & Ho & Hc & Hu) (He' & Hd' & Hf' & Hp' & Ho' & Hc' & Hu').
  unfold evolves. repeat split; try (by etrans).
  - intros el i H. destruct (He el i H) as (i2 & H2 & E2).
    destruct (He' el i2 H2) as (i3 & H3 & E3). exists i3. split; [done|].
    by apply (instance_evolves_trans i i2 i3).
  - intros loc d H. destruct (Hd loc d H) as (d2 & H2 & E2).
    destruct (Hd' loc d2 H2) as (d3 & H3 & E3). exists d3. split; [done|].
    by apply (data_evolves_trans d d2 d3).
Qed.

Lemma evolves_update_element el f w :
  (forall i, instance_evolves i (f i)) -> evolves w (update_element el f w).
Proof.
  intros Hf. rewrite update_element_unfold. unfold evolves. cbn.
  repeat split; try done.
  - intros e i H. destruct (decide (e = el)) as [->|Hne].
    + exists (f i). split; [by rewrite lookup_alter_eq, H | apply Hf].
    + exists i. split; [by rewrite lookup_alter_ne | apply instance_evolves_refl].
  - intros loc d H. exists d. split; [done | apply data_evolves_refl].
Qed.

Lemma evolves_update_data loc f w :
  (forall d, data_evolves d (f d)) -> evolves w (update_data loc f w).
Proof.
  intros Hf. rewrite update_data_unfold. unfold evolves. cbn.
  repeat split; try done.
  - intros e i H. exists i. split; [done | apply instance_evolves_refl].
  - intros l d H. destruct (decide (l = loc)) as [->|Hne].
    + exists (f d). split; [by rewrite lookup_alter_eq, H | apply Hf].
    + exists d. split; [by rewrite lookup_alter_ne | apply data_evolves_refl].
Qed.

(** Appending to the traces and replacing the queues. *)
Lemma evolves_traces w pub obs con mt tm un :
  evolves w (mkWorld (elements w) (document w) (datas w) (defaults w)
               (published w ++ pub) (observed w ++ obs) (console w ++ con) mt tm
               (unhandled w ++ un)).
Proof.
  unfold evolves. cbn. repeat split; try done; try (by apply prefix_app_r).
  - intros el i H. exists i. split; [done | apply instance_evolves_refl].
  - intros loc d H. exists d. split; [done | apply data_evolves_refl].
Qed.

Lemma evolves_document w doc :
  evolves w (mkWorld (elements w) doc (datas w) (defaults w) (published w) (observed w)
               (console w) (microtasks w) (timers w) (unhandled w)).
Proof.
  unfold evolves. cbn. repeat split; try done.
  - intros el i H. exists i. split; [done | apply instance_evolves_refl].
  - intros loc d H. exists d. split; [done | apply data_evolves_refl].
Qed.

Lemma evolves_queues w mt tm : evolves w (set_timers tm (set_microtasks mt w)).
Proof.
  generalize (evolves_traces w [] [] [] mt tm []). by rewrite !app_nil_r.
Qed.

Lemma evolves_enqueue t w : evolves w (enqueue_microtask t w).
Proof.
  generalize (evolves_traces w [] [] [] (microtasks w ++ [t]) (timers w) []).
  by rewrite !app_nil_r.
Qed.

Lemma evolves_setTimeout t w : evolves w (setTimeout t w).
Proof.
  generalize (evolves_traces w [] [] [] (microtasks w) (timers w ++ [t]) []).
  by rewrite !app_nil_r.
Qed.

Lemma evolves_reject e w : evolves w (reject_unhandled e w).
Proof.
  generalize (evolves_traces w [] [] [] (microtasks w) (timers w) [e]).
  by rewrite !app_nil_r.
Qed.

Lemma evolves_setAttribute el name value w : evolves w (setAttribute el name value w).
Proof.
  unfold setAttribute.
  destruct (String.eqb name "class"); apply evolves_update_element; intros i;
    by repeat split.
Qed.

Lemma evolves_removeAttribute el name w : evolves w (removeAttribute el name w).
Proof.
  unfold removeAttribute.
  destruct (String.eqb name "class"); apply evolves_update_element; intros i;
    by repeat split.
Qed.

Lemma evolves_setData el loc w : evolves w (setData el loc w).
Proof. apply evolves_update_element. intros i. by repeat split. Qed.

Lemma evolves_setOption el key v w : evolves w (setOption el key v w).
Proof.
  unfold setOption, write_option. destruct (getData el w); [|apply evolves_refl].
  apply evolves_update_data. intros d. unfold assign_option.
  destruct (reaches_setter _ _ _); [apply data_evolves_refl|].
  repeat split; try done. cbn. set_solver.
Qed.

Lemma evolves_setOptions el opts w : evolves w (setOptions el opts w).
Proof.
  unfold setOptions. destruct (getData el w); [|apply evolves_refl].
  apply evolves_update_data. intros d. unfold assign_options.
  repeat split; try done. cbn. rewrite dom_union. set_solver.
Qed.

Lemma push_subscription_lookup action cb d a :
  _getSubscriptions (push_subscription action cb d) a
  = if decide (a = action) then _getSubscriptions d action ++ [cb] else _getSubscriptions d a.
Proof.
  unfold push_subscription, _getSubscriptions at 1. cbn.
  destruct (decide (a = action)) as [->|Hne].
  - by rewrite lookup_insert_eq.
  - by rewrite lookup_insert_ne.
Qed.

Lemma evolves_subscribe el action cb w : evolves w (subscribe el action cb w).
Proof.
  unfold subscribe. destruct (getData el w); [|apply evolves_refl].
  apply evolves_update_data. intros d. repeat split; try done.
  intros a. rewrite push_subscription_lookup.
  destruct (decide (a = action)) as [->|Hne]; [by apply prefix_app_r | done].
Qed.

Lemma evolves_run_hook el method data event k w :
  hook_evolves w (run_hook el method data event k w).
Proof.
  unfold run_hook. destruct (elements w !! el) as [i|]; [|apply evolves_refl].
  destruct method; cbn [hook_evolves].
  - unfold run_overridable. destruct (initProps_hook i); apply evolves_refl.
  - unfold run_initElements.
    set (w1 := update_element el _ w).
    assert (H1 : evolves w w1).
    { apply evolves_update_element. intros j. by repeat split. }
    destruct (shadowRoot i); [exact H1|]. cbn [hook_evolves].
    set (w2 := update_element el _ w1).
    assert (H2 : evolves w1 w2).
    { apply evolves_update_element. intros j. by repeat split. }
    destruct (attr_truthy _).
    + by apply (evolves_trans w w1 w2).
    + apply (evolves_trans w w2); [by apply (evolves_trans w w1 w2)|].
      apply evolves_setAttribute.
  - unfold run_overridable. destruct (render_hook i); apply evolves_refl.
  - unfold run_initConnected. cbn [hook_evolves].
    eapply evolves_trans; [apply evolves_setAttribute|].
    apply evolves_update_element. intros j. by repeat split.
  - apply evolves_refl.
  - apply evolves_refl.
  - unfold run_processAttributeChanged.
    destruct data; try apply evolves_refl; try apply evolves_setTimeout.
    destruct (_ && _); cbn [hook_evolves].
    + eapply evolves_trans; [apply evolves_setOption | apply evolves_enqueue].
    + apply evolves_setTimeout.
  - destruct data; apply evolves_refl.
  - unfold run_clonedCallback. destruct data; try apply evolves_refl.
    destruct (getData el0 w); [apply evolves_setData | apply evolves_refl].
Qed.

Lemma evolves_callWithEvent el method event data k w :
  evolves w (callWithEvent el method event data k w).
Proof.
  unfold callWithEvent. generalize (evolves_run_hook el method data event k w).
  destruct (run_hook _ _ _ _ _ _) as [r w'|w']; cbn [hook_evolves]; intros H; [|exact H].
  eapply evolves_trans; [exact H | apply evolves_enqueue].
Qed.

Lemma evolves_checkClone el w : evolves w (checkClone el w).
Proof.
  unfold checkClone. destruct (elements w !! el) as [i|]; [|apply evolves_refl].
  destruct (attributes i !! "guid") as [g|]; [|apply evolves_enqueue].
  destruct (String.eqb g ""); [apply evolves_enqueue|].
  destruct (querySelector _ _ _) as [found|]; [|apply evolves_enqueue].
  destruct (negb _); [|apply evolves_enqueue].
  eapply evolves_trans; [|apply evolves_callWithEvent].
  eapply evolves_trans; [|apply evolves_setAttribute].
  eapply evolves_trans; [apply evolves_setAttribute|].
  apply evolves_update_element. intros j. by repeat split.
Qed.

Lemma evolves_run_actions name data body :
  forall w, res_evolves w (run_actions name data body w).
Proof.
  induction body as [|a body IH]; intros w; cbn [run_actions]; [apply evolves_refl|].
  destruct a as [o|target event n b|e].
  - destruct (elements w !! o) as [io|]; [|apply evolves_refl].
    set (w1 := set_observed _ w).
    assert (H1 : evolves w w1).
    { generalize (evolves_traces w [] [observe name data io] [] (microtasks w) (timers w) []).
      by rewrite !app_nil_r. }
    generalize (IH w1). destruct (run_actions _ _ _ w1); cbn; try done;
      by apply evolves_trans.
  - destruct (elements w !! target); [|apply evolves_refl].
    generalize (IH (subscribe target event (CbUser n b) w)).
    destruct (run_actions _ _ _ _); cbn; try done;
      apply evolves_trans, evolves_subscribe.
  - apply evolves_refl.
Qed.

Lemma evolves_invoke cb data w : res_evolves w (invoke cb data w).
Proof.
  destruct cb; cbn [invoke res_evolves].
  - apply evolves_enqueue.
  - apply evolves_checkClone.
  - apply evolves_run_actions.
Qed.

Lemma evolves_dispatch fuel loc action data :
  forall k w, res_evolves w (dispatch fuel loc action k data w).
Proof.
  induction fuel as [|fuel IH]; intros k w; cbn [dispatch]; [done|].
  destruct (_ ≫= _) as [cb|]; [|apply evolves_refl].
  generalize (evolves_invoke cb data w).
  destruct (invoke cb data w) as [w'|e w'|]; cbn [res_evolves]; try done.
  intros H. generalize (IH (S k) w').
  destruct (dispatch _ _ _ _ _ w'); cbn [res_evolves]; try done; by apply evolves_trans.
Qed.

Lemma evolves_send fuel el action data source w :
  res_evolves w (_sendSubscriptionEvent fuel el action data source w).
Proof.
  unfold _sendSubscriptionEvent.
  destruct (elements w !! el) as [i|]; [|apply evolves_refl].
  destruct (datas w !! _data i) as [d|]; [|apply evolves_refl].
  set (w1 := publish_record _ _ _ _ _ _ _).
  assert (H1 : evolves w w1).
  { generalize (evolves_traces w [mkPublished el action data source] []
                  (debug_entries (read_option d "debug" (defaults w))
                     (LogEvent (guid i) (clonedGuid i) action data))
                  (microtasks w) (timers w) []).
    by rewrite !app_nil_r. }
  generalize (evolves_dispatch fuel (_data i) action data 0 w1).
  destruct (dispatch _ _ _ _ _ _); cbn [res_evolves]; try done; by apply evolves_trans.
Qed.

Lemma evolves_warning fuel el action err data w :
  res_evolves w (warning fuel el action err data w).
Proof.
  unfold warning. set (w1 := set_console _ w).
  assert (H1 : evolves w w1).
  { generalize (evolves_traces w [] []
                  [LogWarn action data err (default "" (guid <$> elements w !! el))]
                  (microtasks w) (timers w) []).
    by rewrite !app_nil_r. }
  generalize (evolves_send fuel el EVENT_ERROR (VError action err data) None w1).
  destruct (_sendSubscriptionEvent _ _ _ _ _ _); cbn [res_evolves]; try done;
    by apply evolves_trans.
Qed.

Lemma evolves_catch fuel el method event data err k w w' :
  callWithEvent_catch fuel el method event data err k w = Some w' -> evolves w w'.
Proof.
  unfold callWithEvent_catch.
  generalize (evolves_warning fuel el "callWithEvent" err (VCallInfo method event data) w).
  destruct (warning _ _ _ _ _ _) as [w1|e1 w1|]; cbn [res_evolves]; intros H E;
    [| |discriminate]; injection E as <-;
    (eapply evolves_trans; [exact H | apply evolves_enqueue]).
Qed.

Lemma evolves_tag_source d data w : evolves w (tag_source d data w).
Proof.
  destruct d; try apply evolves_refl. cbn.
  apply evolves_update_element. intros j. by repeat split.
Qed.

Lemma evolves_settled k r w : evolves w (settled k r w).
Proof.
  unfold settled.
  destruct k as [|el m|el|owner], r as [v|e]; try destruct m;
    first [ apply evolves_refl | apply evolves_reject | apply evolves_enqueue
          | apply evolves_callWithEvent ].
Qed.

Lemma evolves_exec_task fuel t w w' : exec_task fuel t w = Some w' -> evolves w w'.
Proof.
  destruct t as [el method event data [v|err] k|el data event k|k r|el|el err| |el data];
    cbn [exec_task].
  - set (d := outgoing v data).
    generalize (evolves_tag_source d data w). set (w1 := tag_source d data w). intros H1.
    generalize (evolves_send fuel el event d (Some data) w1).
    destruct (_sendSubscriptionEvent _ _ _ _ _ _) as [w2|e w2|]; cbn [res_evolves];
      intros H2 E; [| |discriminate].
    + injection E as <-.
      eapply evolves_trans; [exact H1|]. eapply evolves_trans; [exact H2|].
      apply evolves_enqueue.
    + apply evolves_catch in E.
      eapply evolves_trans; [exact H1|]. by eapply evolves_trans.
  - apply evolves_catch.
  - intros E. injection E as <-.
    eapply evolves_trans; [apply evolves_setTimeout | apply evolves_enqueue].
  - intros E. injection E as <-. apply evolves_settled.
  - intros E. injection E as <-. apply evolves_callWithEvent.
  - generalize (evolves_warning fuel el "connectedCallback" err VUndefined w).
    destruct (warning _ _ _ _ _ _) as [w1|e1 w1|]; cbn [res_evolves]; intros H E;
      [| |discriminate]; injection E as <-; [exact H|].
    eapply evolves_trans; [exact H | apply evolves_reject].
  - intros E. injection E as <-. apply evolves_refl.
  - intros E. injection E as <-. apply evolves_callWithEvent.
Qed.

Lemma evolves_set_microtasks mt w : evolves w (set_microtasks mt w).
Proof.
  generalize (evolves_traces w [] [] [] mt (timers w) []). by rewrite !app_nil_r.
Qed.

Lemma evolves_set_timers tm w : evolves w (set_timers tm w).
Proof.
  generalize (evolves_traces w [] [] [] (microtasks w) tm []). by rewrite !app_nil_r.
Qed.

Lemma evolves_drain n fuel : forall w w', drain n fuel w = Some w' -> evolves w w'.
Proof.
  induction n as [|n IH]; intros w w'; unfold drain; fold drain;
    destruct (microtasks w) as [|t rest] eqn:Hq.
  - intros E. injection E as <-. apply evolves_refl.
  - discriminate.
  - intros E. injection E as <-. apply evolves_refl.
  - destruct (exec_task fuel t (set_microtasks rest w)) as [w1|] eqn:E1; [|discriminate].
    cbn. intros E. apply evolves_exec_task in E1. apply IH in E.
    eapply evolves_trans; [apply (evolves_set_microtasks rest)|].
    by eapply evolves_trans.
Qed.

Lemma evolves_tick n fuel w w' : tick n fuel w = Some w' -> evolves w w'.
Proof.
  unfold tick. destruct (timers w) as [|t rest].
  - intros E. injection E as <-. apply evolves_refl.
  - destruct (exec_task fuel t (set_timers rest w)) as [w1|] eqn:E1; [|discriminate].
    cbn. intros E. apply evolves_exec_task in E1. apply evolves_drain in E.
    eapply evolves_trans; [apply (evolves_set_timers rest)|].
    by eapply evolves_trans.
Qed.

Lemma evolves_connectedCallback fuel el w :
  res_evolves w (connectedCallback fuel el w).
Proof.
  unfold connectedCallback.
  generalize (evolves_send fuel el EVENT_CONNECTING (VElement el) None w).
  destruct (_sendSubscriptionEvent _ _ _ _ _ _); cbn [res_evolves]; try done.
  intros H. eapply evolves_trans; [exact H | apply evolves_callWithEvent].
Qed.

Lemma evolves_construct bytes hprops hrender w :
  evolves w (construct bytes hprops hrender w).2.
Proof.
  unfold construct. cbn [snd].
  set (el := fresh (dom (elements w))).
  set (dloc := fresh (dom (defaults w))).
  set (loc := fresh (dom (datas w))).
  set (w1 := mkWorld _ _ _ _ _ _ _ _ _ _).
  assert (Hel : elements w !! el = None) by apply not_elem_of_dom, is_fresh.
  assert (Hloc : datas w !! loc = None) by apply not_elem_of_dom, is_fresh.
  assert (Hdloc : defaults w !! dloc = None) by apply not_elem_of_dom, is_fresh.
  assert (H1 : evolves w w1).
  { unfold evolves. cbn. repeat split; try done.
    - intros e i H. exists i. split; [|apply instance_evolves_refl].
      rewrite lookup_insert_ne; [done | congruence].
    - intros l d H. exists d. split; [|apply data_evolves_refl].
      rewrite lookup_insert_ne; [done | congruence].
    - by apply insert_subseteq. }
  eapply evolves_trans; [exact H1|].
  eapply evolves_trans; apply evolves_subscribe.
Qed.

Lemma evolves_host_step fuel e w w' : host_step fuel e w = Some w' -> evolves w w'.
Proof.
  destruct e; cbn [host_step].
  - intros E. injection E as <-. apply evolves_construct.
  - generalize (evolves_connectedCallback fuel el (host_append el w)).
    destruct (connectedCallback _ _ _) as [w1|e1 w1|]; cbn [res_evolves]; intros H E;
      [| |discriminate]; injection E as <-;
      (eapply evolves_trans; [apply (evolves_document w (document w ++ [el])) | exact H]).
  - intros E. injection E as <-.
    eapply evolves_trans; [apply (evolves_document w) | apply evolves_callWithEvent].
  - intros E. injection E as <-. apply evolves_callWithEvent.
  - intros E. injection E as <-.
    destruct (bool_decide _); [|apply evolves_setAttribute].
    eapply evolves_trans; [apply evolves_setAttribute | apply evolves_callWithEvent].
  - destruct (getAttribute el name w); intros E; injection E as <-; [|apply evolves_refl].
    destruct (bool_decide _); [|apply evolves_removeAttribute].
    eapply evolves_trans; [apply evolves_removeAttribute | apply evolves_callWithEvent].
  - intros E. injection E as <-. apply evolves_subscribe.
  - intros E. injection E as <-. apply evolves_setOption.
  - unfold setOptions_resume. destruct (getData el w); [|discriminate].
    destruct (decide _); [|discriminate].
    intros E. injection E as <-. apply evolves_setOptions.
  - destruct (decide _); [|discriminate]. intros E. injection E as <-. apply evolves_setData.
  - destruct (microtasks w) as [|t rest].
    + intros E. injection E as <-. apply evolves_refl.
    + intros E. apply evolves_exec_task in E.
      eapply evolves_trans; [apply (evolves_set_microtasks rest) | exact E].
  - apply evolves_drain.
  - apply evolves_tick.
Qed.

Lemma evolves_host_run fuel es : forall w w', host_run fuel es w = Some w' -> evolves w w'.
Proof.
  induction es as [|e es IH]; intros w w'; cbn [host_run].
  - intros E. injection E as <-. apply evolves_refl.
  - destruct (host_step fuel e w) as [w1|] eqn:E1; [|discriminate]. cbn.
    intros E. apply evolves_host_step in E1. apply IH in E. by eapply evolves_trans.
Qed.

(** X1.  Whatever the host and the page do (constructions, insertions,
    removals, adoptions, attribute writes and removals, subscriptions,
    option writes, records handed over, microtask and timer turns), an
    instance stays in place and keeps the identity it was constructed
    with, its default map and its hooks; once loaded it stays loaded, and
    once it has a shadow root it keeps it. *)
Theorem history_keeps_instances fuel es w w' el i :
  host_run fuel es w = Some w' -> elements w !! el = Some i ->
  exists i', elements w' !! el = Some i' /\ guid i' = guid i /\
    defaultOptions i' = defaultOptions i /\
    initProps_hook i' = initProps_hook i /\ render_hook i' = render_hook i /\
    (loaded i = true -> loaded i' = true) /\
    (shadowRoot i = true -> shadowRoot i' = true).
Proof.
  intros Hrun Hel. apply evolves_host_run in Hrun as (He & _).
  destruct (He el i Hel) as (i' & Hi' & Hev). by exists i'.
Qed.

Lemma history_keeps_instances_witness :
  exists i', elements page_end !! 0 = Some i' /\ guid i' = "121256569090".
Proof.
  destruct (history_keeps_instances 3 page_history constructed page_end 0
              (mkInstance "121256569090" None false 0 0 ∅ [] false None None None None))
    as (i' & Hi & Hg & _); [vm_compute; reflexivity | vm_compute; reflexivity |].
  exists i'. split; [exact Hi | exact Hg].
Defined.

(** X2.  The registry only grows, and only at the end: through any
    history every data record stays in place, and the list of each event
    keeps the callbacks it had, in their places; nothing in the code
    removes, replaces or reorders a subscription. *)
Theorem history_registry_append_only fuel es w w' loc d :
  host_run fuel es w = Some w' -> datas w !! loc = Some d ->
  exists d', datas w' !! loc = Some d' /\
    forall action, _getSubscriptions d action `prefix_of` _getSubscriptions d' action.
Proof.
  intros Hrun Hd. apply evolves_host_run in Hrun as (_ & Hdt & _).
  destruct (Hdt loc d Hd) as (d' & Hd' & _ & _ & Hs). by exists d'.
Qed.

Lemma history_registry_append_only_witness :
  exists d', datas page_end !! 0 = Some d' /\
    [CbConnected 0] `prefix_of` _getSubscriptions d' "connected".
Proof.
  destruct (history_registry_append_only 3 page_history constructed page_end 0
              (mkData ∅ 0 (builtin_subscriptions 0)))
    as (d' & Hd' & Hs); [vm_compute; reflexivity | vm_compute; reflexivity |].
  exists d'. split; [exact Hd' | apply (Hs "connected")].
Defined.



(** ** Identifiers, continued *)

Lemma charset_NoDup : NoDup Uid.charset.
Proof. apply (bool_decide_unpack _). by vm_compute. Qed.

Lemma symbol_of_byte_Some b : exists c, symbol_of_byte b = Some c.
Proof.
  unfold symbol_of_byte. destruct (Uid.charset !! _) as [c|] eqn:E; [by exists c|].
  apply lookup_ge_None in E. change (length Uid.charset) with 62 in E.
  generalize (index_of_byte_range b). lia.
Qed.

Lemma list_ascii_of_string_app (s t : string) :
  list_ascii_of_string (s ++ t)%string = list_ascii_of_string s ++ list_ascii_of_string t.
Proof.
  induction s as [|c s IH]; [reflexivity|].
  change (c :: list_ascii_of_string (s ++ t)%string
          = c :: (list_ascii_of_string s ++ list_ascii_of_string t)).
  by rewrite IH.
Qed.

Lemma fold_reduce_symbols bytes :
  forall acc,
  list_ascii_of_string (fold_left Uid.reduce_step bytes acc)
  = list_ascii_of_string acc ++ omap symbol_of_byte bytes.
Proof.
  induction bytes as [|b bytes IH]; intros acc; cbn [fold_left].
  - by rewrite app_nil_r.
  - rewrite IH. unfold Uid.reduce_step. rewrite list_ascii_of_string_app.
    destruct (symbol_of_byte_Some b) as [c Hc].
    rewrite omap_cons_option, Hc. unfold Uid.symbol_at.
    unfold symbol_of_byte in Hc. rewrite Hc. cbn. by rewrite <- app_assoc.
Qed.

Lemma generateUid_symbols bytes :
  list_ascii_of_string (Uid.generateUid bytes) = omap symbol_of_byte bytes.
Proof. unfold Uid.generateUid. by rewrite fold_reduce_symbols. Qed.

Lemma symbol_of_byte_inj b b' c :
  symbol_of_byte b = Some c -> symbol_of_byte b' = Some c ->
  Uid.index_of_byte b = Uid.index_of_byte b'.
Proof.
  unfold symbol_of_byte. intros H H'.
  assert (E := NoDup_lookup _ _ _ _ charset_NoDup H H').
  generalize (index_of_byte_range b) (index_of_byte_range b'). lia.
Qed.

Lemma omap_symbols_inj (bs : list Z) :
  forall bs' : list Z, omap symbol_of_byte bs = omap symbol_of_byte bs' ->
  Uid.index_of_byte <$> bs = Uid.index_of_byte <$> bs'.
Proof.
  induction bs as [|b bs IH]; intros [|b' bs'].
  - done.
  - rewrite (omap_cons_option _ b'). destruct (symbol_of_byte_Some b') as [c ->]. discriminate.
  - rewrite (omap_cons_option _ b). destruct (symbol_of_byte_Some b) as [c ->]. discriminate.
  - rewrite (omap_cons_option _ b), (omap_cons_option _ b').
    destruct (symbol_of_byte_Some b) as [c Hc], (symbol_of_byte_Some b') as [c' Hc'].
    rewrite Hc, Hc'. cbn. intros E. injection E as -> E.
    cbn. f_equal; [by apply (symbol_of_byte_inj b b' c') | by apply IH].
Qed.

(** X4.  [generateUid] yields one symbol of the alphabet per byte: the
    identity has as many symbols as there were bytes (twelve), each of
    them taken from the 62-symbol alphabet, never the word that an
    out-of-range index would print. *)
Theorem generateUid_alphabet bytes :
  String.length (Uid.generateUid bytes) = length bytes /\
  Forall (fun c => c ∈ Uid.charset) (list_ascii_of_string (Uid.generateUid bytes)).
Proof.
  split; [apply generateUid_length|].
  rewrite generateUid_symbols. induction bytes as [|b bytes IH]; [constructor|].
  rewrite omap_cons_option. destruct (symbol_of_byte_Some b) as [c Hc]. rewrite Hc.
  cbn. constructor; [|exact IH].
  unfold symbol_of_byte in Hc. by apply list_elem_of_lookup_2 in Hc.
Qed.

(** X5.  Two byte sequences give the same identity exactly when they
    agree on the masked bits of every byte: the alphabet has no repeated
    symbol, so the identity determines the masked bytes, and nothing
    else of the bytes reaches it. *)
Theorem generateUid_eq_iff_masked (bs bs' : list Z) :
  Uid.generateUid bs = Uid.generateUid bs'
  <-> Uid.index_of_byte <$> bs = Uid.index_of_byte <$> bs'.
Proof.
  split.
  - intros E. apply omap_symbols_inj. by rewrite <- !generateUid_symbols, E.
  - intros E.
    assert (H : forall (l l' : list Z) acc, Uid.index_of_byte <$> l = Uid.index_of_byte <$> l' ->
                  fold_left Uid.reduce_step l acc = fold_left Uid.reduce_step l' acc).
    { induction l as [|b l IH]; intros [|b' l'] acc El; try discriminate; [done|].
      cbn in El. injection El as Eb El. cbn [fold_left]. unfold Uid.reduce_step at 2 4.
      rewrite Eb. by apply IH. }
    by apply H.
Qed.

Lemma charset_selector_safe :
  Forall (fun c => selector_safe (String c EmptyString) = true) Uid.charset.
Proof. apply (bool_decide_unpack _). by vm_compute. Qed.

(** X25.  Every identity that [generateUid] yields is read in the
    selector of [checkClone] as it stands: the alphabet has no double
    quote, backslash, line break or NUL. *)
Theorem generateUid_selector_safe bytes :
  selector_safe (Uid.generateUid bytes) = true.
Proof.
  unfold selector_safe. rewrite generateUid_symbols. apply forallb_forall.
  intros c Hc.
  assert (Hin : c ∈ Uid.charset).
  { apply list_elem_of_In, list_elem_of_omap in Hc as (b & _ & Hb).
    unfold symbol_of_byte in Hb. by apply list_elem_of_lookup_2 in Hb. }
  assert (H := charset_selector_safe). rewrite Forall_forall in H.
  specialize (H c Hin). unfold selector_safe in H.
  cbn [list_ascii_of_string forallb] in H. by rewrite andb_true_r in H.
Qed.

(** ** Construction *)

Lemma construct_unfold bytes hprops hrender w :
  let el := fresh (dom (elements w)) in
  let loc := fresh (dom (datas w)) in
  let dloc := fresh (dom (defaults w)) in
  construct bytes hprops hrender w
  = (el, mkWorld (<[el := new_instance bytes hprops hrender loc dloc]> (elements w))
           (document w)
           (<[loc := mkData ∅ dloc (builtin_subscriptions el)]> (datas w))
           (<[dloc := {["debug" := OBool false]}]> (defaults w))
           (published w) (observed w) (console w) (microtasks w) (timers w)
           (unhandled w)).
Proof.
  intros el loc dloc. unfold construct. fold el loc dloc. f_equal.
  unfold subscribe at 2, getData. cbn [elements]. rewrite lookup_insert_eq.
  cbn [fmap option_fmap option_map _data]. rewrite update_data_top.
  unfold subscribe, getData. cbn [elements]. rewrite lookup_insert_eq.
  cbn [fmap option_fmap option_map _data]. rewrite update_data_top.
  unfold new_instance, push_subscription, _getSubscriptions, set_subscriptions,
    builtin_subscriptions.
  cbn. unfold EVENT_CONNECTED, EVENT_CONNECTING.
  by rewrite lookup_empty, lookup_insert_ne, lookup_empty.
Qed.

(** X6.  The constructor creates one instance and touches nothing that
    existed: the instance, its data record and its default map are new
    objects, the instances, records and default maps already there are
    unchanged, and nothing is published or queued.  The new instance has
    the identity drawn from the bytes, and its registry holds exactly the
    built-in subscriber of [connecting] and that of [connected].  Its
    options object has no property of its own and delegates to the new
    default map: [debug] reads [false], [__proto__] reads the default map,
    a member of [Object.prototype] reads that member, and any other key
    reads [undefined]. *)
Theorem construct_initial_state bytes hprops hrender w :
  let el := (construct bytes hprops hrender w).1 in
  let w' := (construct bytes hprops hrender w).2 in
  elements w !! el = None /\
  (forall e, e <> el -> elements w' !! e = elements w !! e) /\
  (forall l d, datas w !! l = Some d -> datas w' !! l = Some d) /\
  (forall l m, defaults w !! l = Some m -> defaults w' !! l = Some m) /\
  silent w w' /\ microtasks w' = microtasks w /\ timers w' = timers w /\
  document w' = document w /\
  (exists i d, elements w' !! el = Some i /\ datas w' !! _data i = Some d /\
     datas w !! _data i = None /\ defaults w !! options_proto d = None /\
     guid i = Uid.generateUid bytes /\ loaded i = false /\ clonedGuid i = None /\
     attributes i = ∅ /\
     _getSubscriptions d EVENT_CONNECTING = [CbConnecting el] /\
     _getSubscriptions d EVENT_CONNECTED = [CbConnected el] /\
     (forall action, action <> EVENT_CONNECTING -> action <> EVENT_CONNECTED ->
        _getSubscriptions d action = []) /\
     options d = ∅ /\ options_proto d = defaultOptions i /\
     defaults w' !! defaultOptions i = Some {["debug" := OBool false]} /\
     (forall key, key <> "debug" ->
        getProperty el key w'
        = Some (if String.eqb key "__proto__" then RPrototype (defaultOptions i)
                else if in_object_prototype key then RBuiltin key
                else RUndefined))) /\
  getProperty el "debug" w' = Some (RValue (OBool false)) /\
  getOption el "debug" w' = Some (OBool false).
Proof.
  intros el w'. subst el w'. rewrite construct_unfold. cbn [fst snd].
  set (el := fresh (dom (elements w))).
  set (loc := fresh (dom (datas w))).
  set (dloc := fresh (dom (defaults w))).
  assert (Hel : elements w !! el = None) by apply not_elem_of_dom, is_fresh.
  assert (Hloc : datas w !! loc = None) by apply not_elem_of_dom, is_fresh.
  assert (Hdloc : defaults w !! dloc = None) by apply not_elem_of_dom, is_fresh.
  assert (Hprop : forall key,
            getProperty el key
              (mkWorld (<[el := new_instance bytes hprops hrender loc dloc]> (elements w))
                 (document w)
                 (<[loc := mkData ∅ dloc (builtin_subscriptions el)]> (datas w))
                 (<[dloc := {["debug" := OBool false]}]> (defaults w))
                 (published w) (observed w) (console w) (microtasks w) (timers w)
                 (unhandled w))
            = Some (read_property (mkData ∅ dloc (builtin_subscriptions el)) key
                      (<[dloc := {["debug" := OBool false]}]> (defaults w)))).
  { intros key. unfold getProperty, getData. cbn [elements datas defaults].
    rewrite lookup_insert_eq. cbn [fmap option_fmap option_map new_instance _data].
    cbn [mbind option_bind]. by rewrite lookup_insert_eq. }
  split; [exact Hel|].
  split; [intros e He; cbn; by rewrite lookup_insert_ne|].
  split; [intros l d Hl; cbn; rewrite lookup_insert_ne; [done | congruence]|].
  split; [intros l m Hl; cbn; rewrite lookup_insert_ne; [done | congruence]|].
  split; [by repeat split|]. split; [done|]. split; [done|]. split; [done|].
  split; [|split].
  - eexists _, _. cbn [elements datas]. split; [apply lookup_insert_eq|].
    cbn [new_instance _data]. split; [apply lookup_insert_eq|].
    split; [exact Hloc|]. split; [exact Hdloc|].
    split; [reflexivity|]. split; [reflexivity|]. split; [reflexivity|].
    split; [reflexivity|]. unfold _getSubscriptions. cbn [subscriptions].
    unfold EVENT_CONNECTING, EVENT_CONNECTED.
    rewrite builtin_connecting, builtin_connected.
    split; [reflexivity|]. split; [reflexivity|].
    split; [intros action H1 H2; by rewrite builtin_other|].
    split; [reflexivity|]. split; [reflexivity|].
    cbn [defaults defaultOptions]. split; [apply lookup_insert_eq|].
    intros key Hk. rewrite Hprop. unfold read_property, default_property.
    cbn [options options_proto]. rewrite lookup_empty, lookup_insert_eq.
    cbn [mbind option_bind]. by rewrite lookup_singleton_ne.
  - rewrite Hprop. unfold read_property, default_property.
    cbn [options options_proto]. rewrite lookup_empty, lookup_insert_eq.
    cbn [mbind option_bind]. by rewrite lookup_singleton_eq.
  - unfold getOption, getData. cbn [elements datas defaults].
    rewrite lookup_insert_eq. cbn [fmap option_fmap option_map new_instance _data].
    cbn [mbind option_bind]. rewrite lookup_insert_eq. cbn [mbind option_bind].
    unfold read_option, read_property, default_property.
    cbn [options options_proto]. rewrite lookup_empty, lookup_insert_eq.
    cbn [mbind option_bind]. by rewrite lookup_singleton_eq.
Qed.

(** ** Registry and options, continued *)

(** X7.  [subscribe] appends the callback to the list of its event in the
    instance's data record: the callbacks registered before keep their
    places, a callback registered twice is listed twice, the lists of the
    other events, the options and all other records stay as they are, and
    the call itself neither calls a callback nor publishes anything. *)
Theorem subscribe_appends el loc d action cb w :
  getData el w = Some loc -> datas w !! loc = Some d ->
  let w' := subscribe el action cb w in
  exists d', datas w' !! loc = Some d' /\
    _getSubscriptions d' action = _getSubscriptions d action ++ [cb] /\
    (forall a, a <> action -> _getSubscriptions d' a = _getSubscriptions d a) /\
    options d' = options d /\ options_proto d' = options_proto d /\
    (forall l, l <> loc -> datas w' !! l = datas w !! l) /\
    elements w' = elements w /\ defaults w' = defaults w /\
    silent w w' /\ microtasks w' = microtasks w /\ timers w' = timers w.
Proof.
  intros Hloc Hd w'. subst w'. unfold subscribe. rewrite Hloc.
  rewrite update_data_unfold. cbn.
  exists (push_subscription action cb d).
  split; [by rewrite lookup_alter_eq, Hd|].
  split; [rewrite push_subscription_lookup; by destruct (decide _)|].
  split; [intros a Ha; rewrite push_subscription_lookup; by destruct (decide _)|].
  split; [done|]. split; [done|].
  split; [intros l Hl; by rewrite lookup_alter_ne|].
  by repeat split.
Qed.

Lemma subscribe_appends_witness :
  registered_names 0 "ping" (subscribe 0 "ping" (recorder 0 "c") recorders_world)
  = ["a"; "b"; "a"; "c"].
Proof.
  destruct (subscribe_appends 0 0
              (mkData ∅ 0 (<["ping" := recorder 0 <$> ["a"; "b"; "a"]]>
                             (builtin_subscriptions 0)))
              "ping" (recorder 0 "c") recorders_world)
    as (d' & Hd' & Hsubs & _ & _ & _ & _ & He & _);
    [vm_compute; reflexivity | vm_compute; reflexivity |].
  unfold registered_names, getData. rewrite He.
  change (elements recorders_world !! 0)
    with (Some (mkInstance "121256569090" None false 0 0 ∅ [] false None None None None)).
  cbn [fmap option_fmap option_map mbind option_bind _data]. rewrite Hd', Hsubs.
  reflexivity.
Defined.



(** ** Stage wrapper *)

Lemma silent_refl w : silent w w.
Proof. by repeat split. Qed.

Lemma silent_trans w1 w2 w3 : silent w1 w2 -> silent w2 w3 -> silent w1 w3.
Proof.
  intros (H1 & H2 & H3 & H4) (H1' & H2' & H3' & H4'). unfold silent.
  by rewrite H1', H2', H3', H4'.
Qed.

Lemma silent_update_element el f w : silent w (update_element el f w).
Proof. rewrite update_element_unfold. by repeat split. Qed.

Lemma silent_update_data loc f w : silent w (update_data loc f w).
Proof. rewrite update_data_unfold. by repeat split. Qed.

Lemma microtasks_update_data loc f w : microtasks (update_data loc f w) = microtasks w.
Proof. by rewrite update_data_unfold. Qed.

Lemma run_hook_silent el method data event k w :
  match run_hook el method data event k w with
  | HSettled _ w' => silent w w' /\ microtasks w' = microtasks w
  | HSuspended w' => silent w w' /\ exists t, microtasks w' = microtasks w ++ [t]
  end.
Proof.
  unfold run_hook. destruct (elements w !! el) as [i|]; [|by split; [apply silent_refl|]].
  destruct method; try (by split; [apply silent_refl|]).
  - unfold run_overridable. by destruct (initProps_hook i); (split; [apply silent_refl|]).
  - unfold run_initElements. destruct (shadowRoot i).
    + split; [apply silent_update_element | apply microtasks_update_element].
    + destruct (attr_truthy _); rewrite ?setAttribute_other by discriminate;
        rewrite !update_element_unfold; by repeat split.
  - unfold run_overridable. by destruct (render_hook i); (split; [apply silent_refl|]).
  - unfold run_initConnected. rewrite setAttribute_other by discriminate.
    rewrite !update_element_unfold. by repeat split.
  - unfold run_processAttributeChanged.
    destruct data; try (by split; [apply silent_refl|]); try (by repeat split).
    destruct (_ && _).
    + unfold setOption, write_option. destruct (getData el w).
      * rewrite update_data_unfold. split; [by repeat split|]. by eexists.
      * split; [by repeat split|]. by eexists.
    + by repeat split.
  - destruct data; by split; [apply silent_refl|].
  - unfold run_clonedCallback. destruct data; try (by split; [apply silent_refl|]).
    destruct (getData el0 w); [|by split; [apply silent_refl|]].
    unfold setData. rewrite update_element_unfold. by repeat split.
Qed.

Lemma callWithEvent_silent el method event data k w :
  silent w (callWithEvent el method event data k w).
Proof.
  unfold callWithEvent. generalize (run_hook_silent el method data event k w).
  destruct (run_hook _ _ _ _ _ _) as [r w'|w']; by intros [Hs Hq].
Qed.

(** X9.  [callWithEvent] publishes nothing before it returns: whatever the
    hook, the payload and the state, the call leaves the published
    events, the observations, the console and the rejections as they
    were and parks exactly one task on the microtask queue; the event,
    or the report of the failure, comes with that task. *)
Theorem callWithEvent_defers el method event data k w :
  silent w (callWithEvent el method event data k w) /\
  exists t, microtasks (callWithEvent el method event data k w) = microtasks w ++ [t].
Proof.
  unfold callWithEvent. generalize (run_hook_silent el method data event k w).
  destruct (run_hook _ _ _ _ _ _) as [r w'|w']; intros [Hs Hq]; [|by split].
  split; [exact Hs|]. eexists. cbn. by rewrite Hq.
Qed.

(** ** Clone detection, continued *)

(** X10.  An instance whose node carries no declared identity, an empty
    one, or the instance's own, is never taken for a clone, whatever the
    document holds: [checkClone] writes nothing, calls no hook and only
    lets its caller go on. *)
Theorem checkClone_not_a_clone el i w :
  elements w !! el = Some i ->
  attr_truthy (attributes i !! "guid") = false \/ attributes i !! "guid" = Some (guid i) ->
  checkClone el w = enqueue_microtask (TSettled (KCheckClone el) (inl VUndefined)) w.
Proof.
  intros Hel [Hg|Hg].
  - unfold checkClone. rewrite Hel. destruct (attributes i !! "guid") as [g|]; [|done].
    cbn in Hg. apply negb_false_iff in Hg. by rewrite Hg.
  - by apply (checkClone_own_identity el i).
Qed.

Lemma checkClone_not_a_clone_witness :
  microtasks (checkClone 0 (one_instance None None))
  = [TSettled (KCheckClone 0) (inl VUndefined)].
Proof.
  rewrite (checkClone_not_a_clone 0
             (mkInstance "121256569090" None false 0 0 ∅ [] false None None None None));
    [reflexivity | vm_compute; reflexivity | left; vm_compute; reflexivity].
Defined.

(** ** Publishing, continued *)

(** X11.  Every call of [_sendSubscriptionEvent] writes the event to the
    console exactly when the instance reads its [debug] option as
    truthy, and then once, before any subscriber runs: with subscribers
    that leave the registry alone, the call, whether it returns or a
    subscriber throws, has added the one published record and that one
    console entry (none with [debug] falsy), and has changed no instance,
    record or default map. *)
Theorem publish_logs_iff_debug fuel el i d action data source w :
  elements w !! el = Some i -> datas w !! _data i = Some d ->
  Forall (fun cb => passive cb = true) (_getSubscriptions d action) ->
  length (_getSubscriptions d action) < fuel ->
  exists w',
    (_sendSubscriptionEvent fuel el action data source w = Normal w' \/
     exists e, _sendSubscriptionEvent fuel el action data source w = Raised e w') /\
    published w' = published w ++ [mkPublished el action data source] /\
    console w' = console w ++
      debug_entries (getOption el "debug" w)
                    (LogEvent (guid i) (clonedGuid i) action data) /\
    (getOption el "debug" w = Some (OBool true) ->
       console w' = console w ++ [LogEvent (guid i) (clonedGuid i) action data]) /\
    (getOption el "debug" w = Some (OBool false) -> console w' = console w) /\
    same_stores w w' /\ microtasks w' = microtasks w /\ unhandled w' = unhandled w.
Proof.
  intros Hel Hd Hp Hfuel.
  assert (Hopt : getOption el "debug" w = read_option d "debug" (defaults w)).
  { unfold getOption, getData. rewrite Hel. cbn. by rewrite Hd. }
  unfold _sendSubscriptionEvent. rewrite Hel, Hd.
  destruct (dispatch_passive (_data i) action data d (_getSubscriptions d action) eq_refl Hp
              fuel 0 (publish_record el i d action data source w) Hd)
    as (obs & Hres); [lia|].
  exists (add_observations obs (publish_record el i d action data source w)).
  split; [destruct Hres as [->|[e ->]]; [by left | right; by exists e]|].
  rewrite Hopt. cbn.
  split; [done|]. split; [done|].
  split; [intros ->; reflexivity|].
  split; [intros ->; cbn; by rewrite app_nil_r|].
  by repeat split.
Qed.

Lemma publish_logs_iff_debug_witness :
  exists w',
    _sendSubscriptionEvent 4 0 "ping" VObject None
      (setOption 0 "debug" (OBool true) recorders_world) = Normal w' /\
    console w' = [LogEvent "121256569090" None "ping" VObject].
Proof.
  destruct (publish_logs_iff_debug 4 0
              (mkInstance "121256569090" None false 0 0 ∅ [] false None None None None)
              (mkData {["debug" := OBool true]} 0
                 (<["ping" := recorder 0 <$> ["a"; "b"; "a"]]> (builtin_subscriptions 0)))
              "ping" VObject None (setOption 0 "debug" (OBool true) recorders_world))
    as (w' & Hres & _ & _ & Hlog & _);
    [vm_compute; reflexivity | vm_compute; reflexivity
    | vm_compute; repeat constructor | vm_compute; lia |].
  exists w'. split.
  - destruct Hres as [H|[e H]]; [exact H|]. vm_compute in H. discriminate.
  - apply Hlog. vm_compute. reflexivity.
Defined.

(** ** Removal and adoption *)

Lemma detached_stage el i d m ev names fuel n w :
  m = processDisconnected \/ m = processAdopted ->
  elements w !! el = Some i -> datas w !! _data i = Some d ->
  _getSubscriptions d ev = recorder el <$> names ->
  microtasks w = [] -> length names < fuel -> 2 <= n ->
  drain n fuel (callWithEvent el m ev VUndefined KDetached w)
  = Some (mkWorld (elements w) (document w) (datas w) (defaults w)
            (published w ++ [stage_event el ev VObject])
            (observed w ++ ((fun name => observe name VObject i) <$> names))
            (console w ++
               debug_entries (read_option d "debug" (defaults w))
                             (LogEvent (guid i) (clonedGuid i) ev VObject))
            [] (timers w) (unhandled w)).
Proof.
  intros Hm Hel Hd Hsubs Hq Hfuel Hn. do 2 (destruct n as [|n]; [lia|]).
  assert (Hcall : callWithEvent el m ev VUndefined KDetached w
                  = enqueue_microtask
                      (TAfterHook el m ev VUndefined (inl VUndefined) KDetached) w).
  { unfold callWithEvent, run_hook. rewrite Hel. by destruct Hm as [-> | ->]. }
  rewrite Hcall. destruct w as [els doc ds dfs pub obs con mt tm un].
  cbn in Hel, Hd, Hq. subst.
  erewrite drain_cons by reflexivity. unfold exec_task, outgoing, tag_source.
  erewrite (send_recorders fuel el i d ev VObject (Some VUndefined) names);
    [|exact Hel | exact Hd | exact Hsubs | exact Hfuel].
  cbn. erewrite drain_cons by reflexivity. cbn. by rewrite drain_nil.
Qed.

(** X12.  [disconnectedCallback] and [adoptedCallback] return before
    anything is published; the next microtask publishes [disconnected]
    (resp. [adopted]) once, with a new empty object for payload, to the
    subscribers of that event in registration order; no instance,
    record or default map changes, no timer is set and no rejection is
    left. *)
Theorem detached_entry_points_publish el i d fuel n w :
  elements w !! el = Some i -> datas w !! _data i = Some d ->
  microtasks w = [] -> 2 <= n ->
  silent w (disconnectedCallback el w) /\ silent w (adoptedCallback el w) /\
  (forall names,
     _getSubscriptions d EVENT_DISCONNECTED = recorder el <$> names -> length names < fuel ->
     exists w', drain n fuel (disconnectedCallback el w) = Some w' /\
       published w' = published w ++ [stage_event el EVENT_DISCONNECTED VObject] /\
       observed w' = observed w ++ ((fun name => observe name VObject i) <$> names) /\
       microtasks w' = [] /\ timers w' = timers w /\ unhandled w' = unhandled w /\
       same_stores w w') /\
  (forall names,
     _getSubscriptions d EVENT_ADOPTED = recorder el <$> names -> length names < fuel ->
     exists w', drain n fuel (adoptedCallback el w) = Some w' /\
       published w' = published w ++ [stage_event el EVENT_ADOPTED VObject] /\
       observed w' = observed w ++ ((fun name => observe name VObject i) <$> names) /\
       microtasks w' = [] /\ timers w' = timers w /\ unhandled w' = unhandled w /\
       same_stores w w').
Proof.
  intros Hel Hd Hq Hn.
  split; [apply callWithEvent_silent|]. split; [apply callWithEvent_silent|].
  split; intros names Hsubs Hfuel; eexists; (split;
    [ unfold disconnectedCallback, adoptedCallback;
      apply (detached_stage el i d _ _ names fuel n w); auto
    | by repeat split ]).
Qed.

Lemma detached_entry_points_publish_witness :
  exists w', drain 2 1 (disconnectedCallback 0 (one_instance None None)) = Some w' /\
    actions_on 0 w' = ["disconnected"].
Proof.
  destruct (detached_entry_points_publish 0
              (mkInstance "121256569090" None false 0 0 ∅ [] false None None None None)
              (mkData ∅ 0 (builtin_subscriptions 0)) 1 2 (one_instance None None))
    as (_ & _ & Hdis & _);
    [vm_compute; reflexivity | vm_compute; reflexivity | reflexivity | lia |].
  destruct (Hdis []) as (w' & Hrun & Hpub & _); [vm_compute; reflexivity | cbn; lia |].
  exists w'. split; [exact Hrun|]. unfold actions_on. rewrite Hpub. vm_compute. reflexivity.
Defined.

Lemma detached_stage_failure el i d m ev pre name e rest post errs fuel n w :
  m = processDisconnected \/ m = processAdopted ->
  elements w !! el = Some i -> datas w !! _data i = Some d ->
  subscriptions d !! ev = Some ((recorder el <$> pre) ++ thrower name e rest :: post) ->
  _getSubscriptions d EVENT_ERROR = recorder el <$> errs ->
  microtasks w = [] -> length pre < fuel -> length errs < fuel -> 2 <= n ->
  let report := VError "callWithEvent" e (VCallInfo m ev VUndefined) in
  drain n fuel (callWithEvent el m ev VUndefined KDetached w)
  = Some (mkWorld (elements w) (document w) (datas w) (defaults w)
            (published w ++ [stage_event el ev VObject; stage_error el m ev VUndefined e])
            (observed w ++ ((fun name => observe name VObject i) <$> pre)
                        ++ ((fun name => observe name report i) <$> errs))
            (console w ++
               debug_entries (read_option d "debug" (defaults w))
                             (LogEvent (guid i) (clonedGuid i) ev VObject) ++
               LogWarn "callWithEvent" (VCallInfo m ev VUndefined) e (guid i) ::
               debug_entries (read_option d "debug" (defaults w))
                             (LogEvent (guid i) (clonedGuid i) EVENT_ERROR report))
            [] (timers w) (unhandled w ++ [e])).
Proof.
  intros Hm Hel Hd Hsubs Herrs Hq Hfuel Hfuel' Hn report.
  do 2 (destruct n as [|n]; [lia|]).
  assert (Hcall : callWithEvent el m ev VUndefined KDetached w
                  = enqueue_microtask
                      (TAfterHook el m ev VUndefined (inl VUndefined) KDetached) w).
  { unfold callWithEvent, run_hook. rewrite Hel. by destruct Hm as [-> | ->]. }
  rewrite Hcall. destruct w as [els doc ds dfs pub obs con mt tm un].
  cbn in Hel, Hd, Hq. subst.
  erewrite drain_cons by reflexivity. unfold exec_task, outgoing, tag_source.
  erewrite (send_thrower fuel el i d ev VObject (Some VUndefined) pre name e rest post);
    [|exact Hel | exact Hd | exact Hsubs | exact Hfuel].
  unfold callWithEvent_catch, warning. cbn [set_console console elements].
  erewrite (send_recorders fuel el i d EVENT_ERROR _ None errs);
    [|exact Hel | exact Hd | exact Herrs | exact Hfuel'].
  cbn. rewrite Hel. cbn. erewrite drain_cons by reflexivity. cbn.
  rewrite drain_nil by reflexivity. unfold stage_event, stage_error.
  by rewrite <- !app_assoc.
Qed.

(** X13.  A subscriber of [disconnected] (resp. [adopted]) that throws
    ends the dispatch: the subscribers behind it are not called, the
    stage wrapper publishes [error] with action [callWithEvent] to the
    subscribers of [error], and, the entry point having dropped the
    promise, the error ends as an unhandled rejection. *)
Theorem detached_subscriber_failure el i d pre name e rest post errs fuel n w :
  elements w !! el = Some i -> datas w !! _data i = Some d ->
  _getSubscriptions d EVENT_ERROR = recorder el <$> errs ->
  microtasks w = [] -> length pre < fuel -> length errs < fuel -> 2 <= n ->
  (subscriptions d !! EVENT_DISCONNECTED
     = Some ((recorder el <$> pre) ++ thrower name e rest :: post) ->
   exists w', drain n fuel (disconnectedCallback el w) = Some w' /\
     published w' = published w ++
       [stage_event el EVENT_DISCONNECTED VObject;
        stage_error el processDisconnected EVENT_DISCONNECTED VUndefined e] /\
     obs_callback <$> observed w' = (obs_callback <$> observed w) ++ pre ++ errs /\
     unhandled w' = unhandled w ++ [e] /\ microtasks w' = [] /\ same_stores w w') /\
  (subscriptions d !! EVENT_ADOPTED
     = Some ((recorder el <$> pre) ++ thrower name e rest :: post) ->
   exists w', drain n fuel (adoptedCallback el w) = Some w' /\
     published w' = published w ++
       [stage_event el EVENT_ADOPTED VObject;
        stage_error el processAdopted EVENT_ADOPTED VUndefined e] /\
     obs_callback <$> observed w' = (obs_callback <$> observed w) ++ pre ++ errs /\
     unhandled w' = unhandled w ++ [e] /\ microtasks w' = [] /\ same_stores w w').
Proof.
  intros Hel Hd Herrs Hq Hfuel Hfuel' Hn.
  assert (Hnames : forall (v v' : Value),
            obs_callback <$> (observed w ++ ((fun name => observe name v i) <$> pre)
                                         ++ ((fun name => observe name v' i) <$> errs))
            = (obs_callback <$> observed w) ++ pre ++ errs).
  { intros v v'. rewrite !fmap_app, <- !list_fmap_compose.
    f_equal. f_equal; apply list_fmap_id. }
  split; intros Hsubs; eexists; (split;
    [ unfold disconnectedCallback, adoptedCallback;
      apply (detached_stage_failure el i d _ _ pre name e rest post errs fuel n w); auto
    | split; [reflexivity|]; split; [apply Hnames|]; by repeat split ]).
Qed.

Lemma detached_subscriber_failure_witness :
  exists w',
    drain 2 2 (disconnectedCallback 0
                 (subscribe 0 "disconnected" (recorder 0 "after")
                    (subscribe 0 "disconnected" (thrower "t" "boom" [])
                       (one_instance None None)))) = Some w' /\
    actions_on 0 w' = ["disconnected"; "error"] /\ observed w' = [] /\
    unhandled w' = ["boom"].
Proof.
  destruct (detached_subscriber_failure 0
              (mkInstance "121256569090" None false 0 0 ∅ [] false None None None None)
              (mkData ∅ 0 (<["disconnected" := [thrower "t" "boom" []; recorder 0 "after"]]>
                             (builtin_subscriptions 0)))
              [] "t" "boom" [] [recorder 0 "after"] [] 2 2
              (subscribe 0 "disconnected" (recorder 0 "after")
                 (subscribe 0 "disconnected" (thrower "t" "boom" [])
                    (one_instance None None))))
    as (Hdis & _);
    [vm_compute; reflexivity | vm_compute; reflexivity | vm_compute; reflexivity
    | reflexivity | cbn; lia | cbn; lia | lia |].
  destruct Hdis as (w' & Hrun & Hpub & Hobs & Hun & _); [vm_compute; reflexivity|].
  exists w'. split; [exact Hrun|].
  split; [unfold actions_on; rewrite Hpub; vm_compute; reflexivity|].
  split; [|exact Hun].
  apply fmap_nil_inv with (f := obs_callback). exact Hobs.
Defined.

(** ** Attach, continued *)

(** X14.  [connecting] is published before [connectedCallback] returns,
    outside every handler: a subscriber of [connecting] that throws makes
    the entry point itself throw.  The subscribers behind it are not
    called, no stage is started, no [error] event is published and no
    rejection is recorded; the instance stays as it was. *)
Theorem connecting_failure_aborts_attach w el i d pre name e rest post fuel :
  elements w !! el = Some i -> datas w !! _data i = Some d ->
  subscriptions d !! EVENT_CONNECTING
    = Some (CbConnecting el :: (recorder el <$> pre) ++ thrower name e rest :: post) ->
  length pre + 1 < fuel ->
  exists w1, connectedCallback fuel el w = Raised e w1 /\
    published w1 = published w ++ [mkPublished el EVENT_CONNECTING (VElement el) None] /\
    observed w1 = observed w ++ ((fun n => observe n (VElement el) i) <$> pre) /\
    microtasks w1 = microtasks w ++ [TSubscriberDone] /\ timers w1 = timers w /\
    unhandled w1 = unhandled w /\ same_stores w w1 /\
    (microtasks w = [] -> forall n, 1 <= n ->
       exists w2, mount n fuel el w = Some w2 /\ published w2 = published w1 /\
         microtasks w2 = [] /\ unhandled w2 = unhandled w /\ same_stores w w2).
Proof.
  intros Hel Hd Hsubs Hfuel. destruct fuel as [|fuel]; [lia|].
  assert (Hsend : _sendSubscriptionEvent (S fuel) el EVENT_CONNECTING (VElement el) None w
            = Raised e (set_observed
                          (observed w ++ ((fun n => observe n (VElement el) i) <$> pre))
                          (enqueue_microtask TSubscriberDone
                             (publish_record el i d EVENT_CONNECTING (VElement el) None w)))).
  { unfold _sendSubscriptionEvent. rewrite Hel, Hd. cbn [dispatch].
    change (datas (publish_record el i d EVENT_CONNECTING (VElement el) None w))
      with (datas w).
    rewrite Hd. cbn [mbind option_bind]. unfold _getSubscriptions. rewrite Hsubs.
    cbn [default from_option id lookup list_lookup invoke].
    by erewrite (dispatch_thrower el i (_data i) d EVENT_CONNECTING (VElement el)
                   name e rest post pre [CbConnecting el]) by (done || lia). }
  unfold mount, connectedCallback. rewrite Hsend.
  eexists. split; [reflexivity|]. cbn.
  split; [done|]. split; [done|]. split; [done|]. split; [done|]. split; [done|].
  split; [by repeat split|].
  intros Hq n Hn. destruct n as [|n]; [lia|].
  unfold set_observed, enqueue_microtask, set_microtasks, publish_record, set_published,
    set_console. cbn. rewrite Hq. cbn.
  erewrite drain_cons by reflexivity. cbn. rewrite drain_nil by reflexivity.
  eexists. split; [reflexivity|]. by repeat split.
Qed.

Lemma connecting_failure_aborts_attach_witness :
  exists w1,
    connectedCallback 2 0
      (subscribe 0 "connecting" (thrower "t" "boom" []) (one_instance None None))
    = Raised "boom" w1 /\
    actions_on 0 w1 = ["connecting"] /\ unhandled w1 = [].
Proof.
  destruct (connecting_failure_aborts_attach
              (subscribe 0 "connecting" (thrower "t" "boom" []) (one_instance None None)) 0
              (mkInstance "121256569090" None false 0 0 ∅ [] false None None None None)
              (mkData ∅ 0 (<["connecting" := [CbConnecting 0; thrower "t" "boom" []]]>
                             (builtin_subscriptions 0)))
              [] "t" "boom" [] [] 2)
    as (w1 & Hrun & Hpub & _ & _ & _ & Hun & _);
    [vm_compute; reflexivity | vm_compute; reflexivity | vm_compute; reflexivity
    | cbn; lia |].
  exists w1. split; [exact Hrun|].
  split; [unfold actions_on; rewrite Hpub; vm_compute; reflexivity | exact Hun].
Defined.

(** ** Mount failures *)

Lemma has_class_elem_of cls classes : has_class cls classes = true -> cls ∈ classes.
Proof.
  unfold has_class. intros H. apply existsb_exists in H as (c & Hin & Hc).
  apply String.eqb_eq in Hc. subst c. by apply list_elem_of_In.
Qed.

Lemma root_class_added classes :
  rootClass ∈ classes ++ (if has_class rootClass classes then [] else [rootClass]).
Proof.
  destruct (has_class rootClass classes) eqn:E.
  - rewrite app_nil_r. by apply has_class_elem_of.
  - apply elem_of_app. right. by left.
Qed.





(** ** Elements stage *)

(** X17.  [initElements] on a node without shadow root succeeds and leaves
    the node with the root class (added once), a shadow root, and a
    [guid] attribute: a declared identity that is already there and not
    empty is kept as it is, otherwise the instance's own identity is
    written.  No other attribute, no other instance and no data record
    changes, and nothing is published. *)
Theorem initElements_persists_identity el i w :
  elements w !! el = Some i -> shadowRoot i = false ->
  exists w' i', run_initElements el i w = HSettled (inl VUndefined) w' /\
    elements w' !! el = Some i' /\
    attributes i' !! "guid"
      = (if attr_truthy (attributes i !! "guid") then attributes i !! "guid"
         else Some (guid i)) /\
    (forall k, k <> "guid" -> attributes i' !! k = attributes i !! k) /\
    shadowRoot i' = true /\ component_data i' = Some (_data i) /\
    rootClass ∈ classList i' /\
    (has_class rootClass (classList i) = true -> classList i' = classList i) /\
    guid i' = guid i /\ _data i' = _data i /\ loaded i' = loaded i /\
    (forall e, e <> el -> elements w' !! e = elements w !! e) /\
    datas w' = datas w /\ silent w w' /\ microtasks w' = microtasks w.
Proof.
  intros Hel Hshadow. unfold run_initElements. rewrite Hshadow.
  set (f1 := fun j => set_classList _ j).
  set (f2 := fun j => set_component_data _ _).
  set (w2 := update_element el f2 (update_element el f1 w)).
  assert (H2 : elements w2 !! el = Some (f2 (f1 i))) by (by do 2 apply update_element_lookup).
  assert (Hg : getAttribute el "guid" w2 = attributes i !! "guid")
    by (unfold getAttribute; by rewrite H2).
  rewrite Hg.
  assert (Hcls : has_class rootClass (classList i) = true ->
            classList i ++ (if has_class rootClass (classList i) then [] else [rootClass])
            = classList i) by (intros ->; apply app_nil_r).
  destruct (attr_truthy (attributes i !! "guid")) eqn:Ht.
  - exists w2, (f2 (f1 i)). split; [done|]. split; [exact H2|].
    split; [done|]. split; [done|]. split; [done|]. split; [done|].
    split; [apply root_class_added|]. split; [exact Hcls|].
    split; [done|]. split; [done|]. split; [done|].
    split; [intros e He; unfold w2; by rewrite !update_element_lookup_ne|].
    unfold w2. rewrite !update_element_unfold. by repeat split.
  - unfold setAttribute.
    set (f3 := fun j => set_attributes _ j).
    exists (update_element el f3 w2), (f3 (f2 (f1 i))). split; [done|].
    split; [by apply update_element_lookup|].
    split; [cbn; by rewrite lookup_insert_eq|].
    split; [intros k Hk; cbn; by rewrite lookup_insert_ne|].
    split; [done|]. split; [done|].
    split; [apply root_class_added|]. split; [exact Hcls|].
    split; [done|]. split; [done|]. split; [done|].
    split; [intros e He; unfold w2; by rewrite !update_element_lookup_ne|].
    unfold w2. rewrite !update_element_unfold. by repeat split.
Qed.

Lemma initElements_persists_identity_witness :
  exists w' i', run_initElements 0
      (mkInstance "121256569090" None false 0 0 {["guid" := "X"]} [] false None None None None)
      stale_identity = HSettled (inl VUndefined) w' /\
    elements w' !! 0 = Some i' /\ attributes i' !! "guid" = Some "X".
Proof.
  destruct (initElements_persists_identity 0
              (mkInstance "121256569090" None false 0 0 {["guid" := "X"]} [] false None None
                          None None) stale_identity)
    as (w' & i' & Hrun & Hel & Hg & _); [vm_compute; reflexivity | reflexivity |].
  exists w', i'. split; [exact Hrun|]. split; [exact Hel|]. rewrite Hg. reflexivity.
Defined.



Lemma failing_connected_connected el name e rest post :
  failing_connected el name e rest post !! "connected"
  = Some (CbConnected el :: thrower name e rest :: post).
Proof. unfold failing_connected. by rewrite lookup_insert_eq. Qed.

Lemma failing_connected_other el name e rest post action :
  action <> "connected" ->
  failing_connected el name e rest post !! action = builtin_subscriptions el !! action.
Proof. intros H. unfold failing_connected. by rewrite lookup_insert_ne. Qed.

#[local] Arguments failing_connected : simpl never.

Ltac registry_lookup ::=
  match goal with
  | |- context [builtin_subscriptions _ !! _] =>
      first [ rewrite builtin_connecting | rewrite builtin_connected
            | rewrite builtin_other by discriminate ]
  | |- context [probe_subscriptions _ _ !! _] =>
      first [ rewrite probe_connected | rewrite probe_other by discriminate ]
  | |- context [failing_connected _ _ _ _ _ !! _] =>
      first [ rewrite failing_connected_connected
            | rewrite failing_connected_other by discriminate ]
  end.



(** ** Attribute changes, continued *)

Lemma read_option_inserted opts proto subs key v dfs :
  read_option (mkData (<[key := v]> opts) proto subs) key dfs = Some v.
Proof. apply read_option_own. cbn. apply lookup_insert_eq. Qed.

(** X20.  One attribute mutation gives two events, in this order:
    [attribute.changed] with the mutation for payload when the microtask
    queue runs, then [changed], wrapping the same mutation, when the
    timer fires; no timer or microtask is left.  A truthy value of the
    [debug] attribute has switched the option on before the first of
    the two is published, so both are already written to the console. *)
Theorem attribute_turn_trace w el i d name oldValue newValue fuel :
  elements w !! el = Some i -> datas w !! _data i = Some d ->
  subscriptions d = builtin_subscriptions el ->
  microtasks w = [] -> timers w = [] -> 1 <= fuel ->
  let a := VAttribute name oldValue newValue in
  let dbg := if sets_debug (name, oldValue, newValue) then Some (OBool true)
             else getOption el "debug" w in
  exists w', attribute_turn fuel el (name, oldValue, newValue) w = Some w' /\
    published w' = published w ++
      [mkPublished el EVENT_ATTRIBUTE_CHANGED a (Some a);
       mkPublished el EVENT_CHANGED (VChange a) (Some (VChange a))] /\
    console w' = console w ++
      debug_entries dbg (LogEvent (guid i) (clonedGuid i) EVENT_ATTRIBUTE_CHANGED a) ++
      debug_entries dbg (LogEvent (guid i) (clonedGuid i) EVENT_CHANGED (VChange a)) /\
    getOption el "debug" w' = dbg /\
    microtasks w' = [] /\ timers w' = [] /\ unhandled w' = unhandled w /\
    elements w' = elements w.
Proof.
  intros Hel Hd Hsubs Hq Ht Hfuel a dbg. subst a dbg.
  destruct fuel as [|fuel]; [lia|].
  unfold sets_debug, getOption, getData. rewrite Hel. cbn [fst snd fmap option_fmap option_map
    mbind option_bind]. rewrite Hd. cbn [mbind option_bind].
  flatten_world w i d Hel.
  rewrite <- (insert_id _ _ _ Hd). clear Hd.
  unfold attribute_turn, attributeChangedCallback.
  destruct (String.eqb name "debug" && attr_truthy newValue) eqn:Hdbg.
  - simp_code. do 3 run_task. rewrite drain_nil by reflexivity.
    cbn [mbind option_bind]. unfold tick. simp_code.
    do 2 run_task. rewrite drain_nil by reflexivity.
    eexists. split; [reflexivity|]. cbn.
    rewrite !read_option_inserted, !lookup_insert_eq. cbn. rewrite lookup_insert_eq. cbn.
    rewrite read_option_inserted.
    split; [by rewrite <- !app_assoc|]. split; [by rewrite <- !app_assoc|]. done.
  - simp_code. do 2 run_task. rewrite drain_nil by reflexivity.
    cbn [mbind option_bind]. unfold tick. simp_code.
    do 2 run_task. rewrite drain_nil by reflexivity.
    eexists. split; [reflexivity|]. cbn.
    rewrite !lookup_insert_eq. cbn. rewrite lookup_insert_eq. cbn.
    split; [by rewrite <- !app_assoc|]. split; [by rewrite <- !app_assoc|]. done.
Qed.

Lemma attribute_turn_trace_witness :
  exists w', attribute_turn 1 0 ("debug", None, Some "1") (one_instance None None) = Some w' /\
    actions_on 0 w' = ["attribute.changed"; "changed"] /\
    length (console w') = 2.
Proof.
  destruct (attribute_turn_trace (one_instance None None) 0
              (mkInstance "121256569090" None false 0 0 ∅ [] false None None None None)
              (mkData ∅ 0 (builtin_subscriptions 0)) "debug" None (Some "1") 1)
    as (w' & Hrun & Hpub & Hcon & _);
    [vm_compute; reflexivity | vm_compute; reflexivity | reflexivity | reflexivity
    | reflexivity | lia |].
  exists w'. split; [exact Hrun|].
  split; [unfold actions_on; rewrite Hpub; vm_compute; reflexivity|].
  rewrite Hcon. vm_compute. reflexivity.
Defined.

(** ** Payloads that are instances *)

(** X21.  When a hook returns an instance, that instance is the payload,
    and the source tag of [callWithEvent] is written on the instance
    itself before the event is published: after [initConnected] the
    instance carries it, and after the clone hook, which returns the
    original, it is the original that is written to.  No other instance
    changes. *)
Theorem element_payload_is_tagged w el e i ei d method event data k fuel :
  elements w !! el = Some i -> elements w !! e = Some ei ->
  datas w !! _data i = Some d -> _getSubscriptions d event = [] -> 1 <= fuel ->
  exists w', exec_task fuel (TAfterHook el method event data (inl (VElement e)) k) w = Some w' /\
    elements w' = <[e := set__source (Some data) ei]> (elements w) /\
    published w' = published w ++ [mkPublished el event (VElement e) (Some data)] /\
    microtasks w' = microtasks w ++ [TSettled k (inl (VElement e))] /\
    datas w' = datas w.
Proof.
  intros Hel He Hd Hsubs Hfuel.
  unfold exec_task, outgoing, tag_source.
  set (w1 := update_element e (set__source (Some data)) w).
  assert (H1 : exists i1, elements w1 !! el = Some i1 /\ _data i1 = _data i).
  { destruct (decide (el = e)) as [->|Hn].
    - exists (set__source (Some data) i). split; [|done]. by apply update_element_lookup.
    - exists i. split; [|done]. unfold w1. by rewrite update_element_lookup_ne. }
  destruct H1 as (i1 & H1 & Hdata).
  assert (Hd1 : datas w1 !! _data i1 = Some d)
    by (unfold w1; by rewrite datas_update_element, Hdata).
  rewrite (send_recorders fuel el i1 d event (VElement e) (Some data) [] w1 H1 Hd1 Hsubs)
    by (cbn; lia).
  eexists. split; [reflexivity|]. cbn. unfold w1.
  rewrite elements_update_element, published_update_element, microtasks_update_element,
    datas_update_element.
  split; [|done].
  rewrite <- (insert_id (elements w) e ei He) at 1. by rewrite alter_insert_eq.
Qed.

Lemma element_payload_is_tagged_witness :
  exists w', exec_task 1 (clone_hook_task 1 0) two_instances = Some w' /\
    _source <$> elements w' !! 0 = Some (Some (VElement 0)) /\
    _source <$> elements w' !! 1 = Some None.
Proof.
  destruct (element_payload_is_tagged two_instances 1 0
              (mkInstance "cdcdghghklkl" None false 1 1 ∅ [] false None None None None)
              (mkInstance "121256569090" None false 0 0 ∅ [] false None None None None)
              (mkData ∅ 1 (builtin_subscriptions 1))
              clonedCallback EVENT_CLONED (VElement 0) (KCheckClone 1) 1)
    as (w' & Hrun & Hels & _);
    [vm_compute; reflexivity | vm_compute; reflexivity | vm_compute; reflexivity
    | vm_compute; reflexivity | lia |].
  exists w'. split; [exact Hrun|]. rewrite Hels. vm_compute. split; reflexivity.
Defined.

(** ** Failure reports *)

(** X22.  The [catch] of [callWithEvent], for any hook that failed with
    [err]: it writes a warning to the console whatever the [debug]
    option, publishes [error] with action [callWithEvent] and the
    method, event and input of the stage, and rejects with [err].  When
    a subscriber of [error] throws in turn, the rejection carries that
    subscriber's error and [err] itself is no longer seen by the
    awaiter. *)
Theorem callWithEvent_failure_report w el i d method event data err k fuel :
  elements w !! el = Some i -> datas w !! _data i = Some d ->
  let report := VError "callWithEvent" err (VCallInfo method event data) in
  (forall errs,
     _getSubscriptions d EVENT_ERROR = recorder el <$> errs -> length errs < fuel ->
     exists w', exec_task fuel (TAfterHook el method event data (inr err) k) w = Some w' /\
       published w' = published w ++ [stage_error el method event data err] /\
       observed w' = observed w ++ ((fun n => observe n report i) <$> errs) /\
       console w' = console w ++
         LogWarn "callWithEvent" (VCallInfo method event data) err (guid i) ::
         debug_entries (getOption el "debug" w)
                       (LogEvent (guid i) (clonedGuid i) EVENT_ERROR report) /\
       microtasks w' = microtasks w ++ [TSettled k (inr err)] /\ same_stores w w') /\
  (forall pre name e' rest post,
     subscriptions d !! EVENT_ERROR
       = Some ((recorder el <$> pre) ++ thrower name e' rest :: post) ->
     length pre < fuel ->
     exists w', exec_task fuel (TAfterHook el method event data (inr err) k) w = Some w' /\
       published w' = published w ++ [stage_error el method event data err] /\
       observed w' = observed w ++ ((fun n => observe n report i) <$> pre) /\
       microtasks w' = microtasks w ++ [TSettled k (inr e')] /\ same_stores w w').
Proof.
  intros Hel Hd report.
  assert (Hopt : getOption el "debug" w = read_option d "debug" (defaults w)).
  { unfold getOption, getData. rewrite Hel. cbn. by rewrite Hd. }
  split.
  - intros errs Herrs Hfuel. unfold exec_task, callWithEvent_catch, warning.
    erewrite (send_recorders fuel el i d EVENT_ERROR _ None errs);
      [|exact Hel | exact Hd | exact Herrs | exact Hfuel].
    eexists. split; [reflexivity|]. cbn. rewrite Hel, Hopt. cbn.
    split; [done|]. split; [done|]. split; [by rewrite <- app_assoc|]. by repeat split.
  - intros pre name e' rest post Hsubs Hfuel. unfold exec_task, callWithEvent_catch, warning.
    erewrite (send_thrower fuel el i d EVENT_ERROR _ None pre name e' rest post);
      [|exact Hel | exact Hd | exact Hsubs | exact Hfuel].
    eexists. split; [reflexivity|]. by repeat split.
Qed.

Lemma callWithEvent_failure_report_witness :
  exists w',
    exec_task 1 (TAfterHook 0 render EVENT_RENDERED VUndefined (inr "boom") KDetached)
              (subscribe 0 "error" (thrower "t" "worse" []) (one_instance None None))
    = Some w' /\
    microtasks w' = [TSettled KDetached (inr "worse")].
Proof.
  destruct (callWithEvent_failure_report
              (subscribe 0 "error" (thrower "t" "worse" []) (one_instance None None)) 0
              (mkInstance "121256569090" None false 0 0 ∅ [] false None None None None)
              (mkData ∅ 0 (<["error" := [thrower "t" "worse" []]]> (builtin_subscriptions 0)))
              render EVENT_RENDERED VUndefined "boom" KDetached 1)
    as (_ & Hthrow); [vm_compute; reflexivity | vm_compute; reflexivity |].
  destruct (Hthrow [] "t" "worse" [] []) as (w' & Hrun & _ & _ & Hq & _);
    [vm_compute; reflexivity | cbn; lia |].
  exists w'. split; [exact Hrun | exact Hq].
Defined.

(** ** Clones and the registry *)

(** X23.  Once the clone hook has made an instance hold the record of
    another, the events published on it go to the subscribers of that
    record, those of the original: they are called in their order with
    the clone's payload, and the callbacks that the instance had
    registered in its former record are not called. *)
Theorem clone_events_reach_original_subscribers w el from i fi loc d action data source
    names fuel :
  elements w !! el = Some i -> elements w !! from = Some fi ->
  _data fi = loc -> datas w !! loc = Some d ->
  _getSubscriptions d action = recorder from <$> names -> length names < fuel ->
  exists w', _sendSubscriptionEvent fuel el action data source (setData el loc w) = Normal w' /\
    published w' = published w ++ [mkPublished el action data source] /\
    obs_callback <$> observed w' = (obs_callback <$> observed w) ++ names /\
    obs_payload <$> observed w' = (obs_payload <$> observed w) ++ (const data <$> names) /\
    datas w' = datas w.
Proof.
  intros Hel Hfrom Hloc Hd Hsubs Hfuel. unfold setData.
  set (w1 := update_element el (set__data loc) w).
  assert (H1 : elements w1 !! el = Some (set__data loc i)) by (by apply update_element_lookup).
  assert (Hd1 : datas w1 !! loc = Some d) by (unfold w1; by rewrite datas_update_element).
  assert (Hf1 : exists fi1, elements w1 !! from = Some fi1).
  { destruct (decide (from = el)) as [->|Hne]; [by eexists|].
    exists fi. unfold w1. by rewrite update_element_lookup_ne. }
  destruct Hf1 as (fi1 & Hf1).
  unfold _sendSubscriptionEvent. rewrite H1. cbn [_data set__data]. rewrite Hd1.
  set (w2 := publish_record _ _ _ _ _ _ _).
  assert (Hrun := dispatch_recorders_from from fi1 loc d action data names [] fuel w2
                    Hf1 Hd1 Hsubs Hfuel).
  cbn [length] in Hrun. rewrite Hrun.
  eexists. split; [reflexivity|]. cbn. unfold w1.
  rewrite published_update_element, datas_update_element, update_element_unfold. cbn.
  split; [done|]. rewrite !fmap_app, <- !list_fmap_compose.
  split; [f_equal; apply list_fmap_id|]. done.
Qed.

Lemma clone_events_reach_original_subscribers_witness :
  exists w',
    _sendSubscriptionEvent 2 1 "ping" VObject None
      (setData 1 0 (subscribe 1 "ping" (recorder 1 "mine")
                      (subscribe 0 "ping" (recorder 0 "theirs") two_instances)))
    = Normal w' /\
    obs_callback <$> observed w' = ["theirs"].
Proof.
  destruct (clone_events_reach_original_subscribers
              (subscribe 1 "ping" (recorder 1 "mine")
                 (subscribe 0 "ping" (recorder 0 "theirs") two_instances))
              1 0
              (mkInstance "cdcdghghklkl" None false 1 1 ∅ [] false None None None None)
              (mkInstance "121256569090" None false 0 0 ∅ [] false None None None None)
              0 (mkData ∅ 0 (<["ping" := [recorder 0 "theirs"]]> (builtin_subscriptions 0)))
              "ping" VObject None ["theirs"] 2)
    as (w' & Hrun & _ & Hobs & _);
    [vm_compute; reflexivity | vm_compute; reflexivity | reflexivity
    | vm_compute; reflexivity | vm_compute; reflexivity | cbn; lia |].
  exists w'. split; [exact Hrun | exact Hobs].
Defined.

(** ** Attaching a copy *)







